(** * Kibana-style nested filter builder: model and properties

    Shallow embedding of the filter-expression core of the repository.

    Definitions:
    - [Js]        : the JavaScript values the code manipulates (strings,
                    numbers, arrays, plain objects) with the primitives the
                    source relies on (truthiness, [trim], [split],
                    [endsWith], template-literal conversion, property
                    assignment);
    - [Dsl]       : the object literals of the query DSL;
    - [FlatBar]   : [KibanaFilterBarComponent] (flat list with relation
                    tags): [generateQueryDSL], [buildKibanaPreview],
                    [updatePreview];
    - [TreeState] : [FilterStateService] (expression tree): [addFilter],
                    [removeFilter], [normalizeNode], [generatePreview],
                    [generateQueryDSL], [buildSingleFilterQuery];
    - [Backend]   : [buildElasticsearchQuery] of the Node service, over the
                    query constructors of the elastic-builder package;
    - [Builder]   : [FilterBuilderService.normalizeFilters] (path-based
                    combined filters);
    - [TreeShape] : paths, identifiers and well-groupedness of trees;
    - [Samples]   : concrete rows, conditions and trees;
    - [TreeEdits] : [modifyFilter], [toggleOperator], [findNodeById],
                    [getNodePath] of the same service;
    - [FlatMore]  : [isFilterValid], [canAddFilter] and the HTML preview
                    of the flat component;
    - [BackendMore], [BuilderMore], [Wrapper] : the grouping test and
                    [queryDSLToElasticsearchBody] of the Node service,
                    [flattenFilters], and [generateQueryDSLFromFilters].

    Properties:
    - [TreeProps], [AddProps], [RemoveProps] : normalization, [addFilter]
                    and [removeFilter] on arbitrary trees;
    - [FlatProps], [TreeClaims], [CompilerProps], [BuilderProps] : the
                    properties of the specification, C1 to C10;
    - [TreeEditProps], [FlatFoldProps], [FlatValidProps], [BackendProps],
      [BuilderMoreProps], [WrapperProps], [CrossProps] : further
                    properties of the same functions.
*)

From Stdlib Require Import List String Ascii ZArith NArith Bool Arith Lia.
From Stdlib Require Import DecimalString.
Import ListNotations.
Local Open Scope string_scope.
Local Open Scope nat_scope.
Local Open Scope list_scope.

(** String concatenation, written as in a template literal. *)
Notation "a +++ b" := (String.append a b) (right associativity, at level 60).

(* ===================================================================== *)
(** ** JavaScript values and string primitives *)
(* ===================================================================== *)

Module Js.

(** A JavaScript number.  A finite number is written [Fin m e] for the
    double whose shortest decimal form (the digits that [String] prints) is
    [m * 10^-e]; this is the form [parseFloat] returns below.  The sign of
    zero, which shows neither in [JSON.stringify] nor in [===], is not
    kept. *)
Inductive JsNumber : Type :=
| NaN
| Inf (negative : bool)
| Fin (m : Z) (e : nat).

(** Values of type [any].  Objects are association lists in property
    order. *)
#[warnings="-register-all"]
Inductive JsVal : Type :=
| JUndefined
| JNull
| JBool (b : bool)
| JNum (n : JsNumber)
| JStr (s : string)
| JArr (l : list JsVal)
| JObj (kv : list (string * JsVal)).

(** Outcome of a call that may raise. *)
Inductive Completion (A : Type) : Type :=
| Normal (a : A)
| Throw (error : string).
Arguments Normal {A} a.
Arguments Throw {A} error.

(** *** Characters and strings *)

Definition chars (s : string) : list ascii := list_ascii_of_string s.
Definition str (l : list ascii) : string := string_of_list_ascii l.

Definition isDigit (c : ascii) : bool :=
  let n := nat_of_ascii c in (48 <=? n) && (n <=? 57).

(** Strings are the UTF-8 bytes of the JavaScript string.  The number of
    bytes of the white-space or line-terminator code point that starts the
    list, zero when there is none: U+0009 to U+000D, U+0020, U+00A0,
    U+1680, U+2000 to U+200A, U+2028, U+2029, U+202F, U+205F, U+3000 and
    U+FEFF, the set that [String.prototype.trim] removes. *)
Definition whiteLength (l : list ascii) : nat :=
  match map nat_of_ascii (firstn 3 l) with
  | a :: rest =>
      if ((9 <=? a) && (a <=? 13)) || (a =? 32) then 1
      else
        match rest with
        | b :: rest' =>
            if (a =? 194) && (b =? 160) then 2
            else
              match rest' with
              | c :: _ =>
                  if ((a =? 225) && (b =? 154) && (c =? 128)) ||
                     ((a =? 226) && (b =? 128) &&
                      (((128 <=? c) && (c <=? 138)) || (c =? 168) || (c =? 169) ||
                       (c =? 175))) ||
                     ((a =? 226) && (b =? 129) && (c =? 159)) ||
                     ((a =? 227) && (b =? 128) && (c =? 128)) ||
                     ((a =? 239) && (b =? 187) && (c =? 191))
                  then 3 else 0
              | [] => 0
              end
        | [] => 0
        end
  | [] => 0
  end.

Fixpoint dropWhile {A} (p : A -> bool) (l : list A) : list A :=
  match l with
  | [] => []
  | x :: t => if p x then dropWhile p t else l
  end.

(** The list without the white space it starts with; [skip] bytes of a
    white-space code point are still to be passed. *)
Fixpoint dropWhite (skip : nat) (l : list ascii) : list ascii :=
  match l with
  | [] => []
  | _ :: t =>
      match skip with
      | S skip' => dropWhite skip' t
      | O =>
          match whiteLength l with
          | O => l
          | S n => dropWhite n t
          end
      end
  end.

Definition allWhite (l : list ascii) : bool :=
  match dropWhite 0 l with [] => true | _ :: _ => false end.

(** The list without the white space it ends with. *)
Fixpoint dropWhiteEnd (l : list ascii) : list ascii :=
  match l with
  | [] => []
  | c :: t => if allWhite l then [] else c :: dropWhiteEnd t
  end.

Definition trimChars (l : list ascii) : list ascii :=
  dropWhiteEnd (dropWhite 0 l).

(** [s.trim()] *)
Definition trim (s : string) : string := str (trimChars (chars s)).

(** [s.endsWith(suffix)] *)
Definition endsWith (s suffix : string) : bool :=
  let n := String.length s in
  let m := String.length suffix in
  (m <=? n) && String.eqb (substring (n - m) m s) suffix.

Fixpoint startsWithChars (l p : list ascii) : bool :=
  match p, l with
  | [], _ => true
  | _ :: _, [] => false
  | a :: p', b :: l' => Ascii.eqb a b && startsWithChars l' p'
  end.

Fixpoint includesChars (l p : list ascii) : bool :=
  startsWithChars l p ||
  match l with
  | [] => false
  | _ :: t => includesChars t p
  end.

(** [s.includes(sub)] *)
Definition includes (s sub : string) : bool := includesChars (chars s) (chars sub).

Definition lowerChar (c : ascii) : ascii :=
  let n := nat_of_ascii c in
  if (65 <=? n) && (n <=? 90) then ascii_of_nat (n + 32) else c.

(** [s.toLowerCase()] as far as [includes] of an ASCII word can tell: the
    ASCII letters are mapped; no other code point becomes a run of ASCII
    letters (U+0130 gives [i] followed by U+0307, U+212A gives [k]). *)
Definition toLowerCase (s : string) : string := str (map lowerChar (chars s)).

(** [s.split(',')] on characters: the current piece is accumulated in
    [cur]. *)
Fixpoint splitChars (sep : ascii) (cur : list ascii) (l : list ascii)
  : list (list ascii) :=
  match l with
  | [] => [rev cur]
  | c :: t =>
      if Ascii.eqb c sep then rev cur :: splitChars sep [] t
      else splitChars sep (c :: cur) t
  end.

Definition splitComma (s : string) : list string :=
  map str (splitChars "," [] (chars s)).

(** [parts.join(sep)] for an array of strings. *)
Fixpoint join (sep : string) (parts : list string) : string :=
  match parts with
  | [] => EmptyString
  | [p] => p
  | p :: rest => p +++ sep +++ join sep rest
  end.

(** The double-quote character, as a string. *)
Definition dquote : string := String (ascii_of_nat 34) EmptyString.

(** *** Numbers *)

Definition digitVal (c : ascii) : Z := Z.of_nat (nat_of_ascii c - 48).

Definition digitsVal (l : list ascii) : Z :=
  fold_left (fun acc c => (10 * acc + digitVal c)%Z) l 0%Z.

Fixpoint takeWhile {A} (p : A -> bool) (l : list A) : list A :=
  match l with
  | [] => []
  | x :: t => if p x then x :: takeWhile p t else []
  end.

(** The shape [-?\d+(\.\d+)?] split into sign, integer digits and
    fraction digits; [None] when the whole input does not match. *)
Definition decimalParts (l : list ascii) : option (bool * list ascii * list ascii) :=
  let (neg, body) :=
    match l with
    | "-"%char :: t => (true, t)
    | _ => (false, l)
    end in
  let ip := takeWhile isDigit body in
  let rest := dropWhile isDigit body in
  match ip with
  | [] => None
  | _ :: _ =>
      match rest with
      | [] => Some (neg, ip, [])
      | "."%char :: fr =>
          match fr with
          | [] => None
          | _ :: _ => if forallb isDigit fr then Some (neg, ip, fr) else None
          end
      | _ :: _ => None
      end
  end.

(** [/^-?\d+(\.\d+)?$/.test(s)] *)
Definition matchesDecimal (s : string) : bool :=
  match decimalParts (chars s) with Some _ => true | None => false end.

(** Trailing zeros of the fraction carry no value. *)
Fixpoint normalizeDec (m : Z) (e : nat) : JsNumber :=
  match e with
  | O => Fin m O
  | S e' => if (m mod 10 =? 0)%Z then normalizeDec (m / 10) e' else Fin m e
  end.

(** **** Doubles

    A non-negative rational is a pair [(n, d)] with [d > 0]; a double is
    [(q, k)] for [q * 2^k] with [q < 2^53] and [-1074 <= k]. *)

(** [floor (log2 (n / d))] for [n > 0]. *)
Definition binaryExponent (n d : Z) : Z :=
  let b := (Z.log2 n - Z.log2 d)%Z in
  if (0 <=? b)%Z
  then (if (d * 2 ^ b <=? n)%Z then b else b - 1)%Z
  else (if (d <=? n * 2 ^ (- b))%Z then b else b - 1)%Z.

(** The double nearest to [n / d], ties to the even significand. *)
Definition roundToDouble (n d : Z) : Z * Z :=
  if (n =? 0)%Z then (0, 0)%Z
  else
    let k := Z.max (binaryExponent n d - 52) (-1074) in
    let num := if (0 <=? k)%Z then n else (n * 2 ^ (- k))%Z in
    let den := if (0 <=? k)%Z then (d * 2 ^ k)%Z else d in
    let q0 := (num / den)%Z in
    let r := (num mod den)%Z in
    let q := if (den <? 2 * r)%Z || ((den =? 2 * r)%Z && Z.odd q0)
             then (q0 + 1)%Z else q0 in
    (q, k).

(** The double as a rational. *)
Definition doubleValue (x : Z * Z) : Z * Z :=
  let (q, k) := x in
  if (0 <=? k)%Z then (q * 2 ^ k, 1)%Z else (q, 2 ^ (- k))%Z.

(** Beyond the largest double the result is [Infinity]. *)
Definition overflows (x : Z * Z) : bool :=
  let (n, d) := doubleValue x in (d * 2 ^ 1024 <=? n)%Z.

Definition sameRational (x y : Z * Z) : bool :=
  (fst x * snd y =? fst y * snd x)%Z.

Definition decimalLength (n : Z) : Z :=
  Z.of_nat (String.length (NilZero.string_of_uint (N.to_uint (Z.to_N n)))).

(** [floor (log10 (n / d))] for [n > 0]. *)
Definition decimalExponent (n d : Z) : Z :=
  let p := (decimalLength n - decimalLength d)%Z in
  if (0 <=? p)%Z
  then (if (d * 10 ^ p <=? n)%Z then p else p - 1)%Z
  else (if (d <=? n * 10 ^ (- p))%Z then p else p - 1)%Z.

(** [s * 10^x] as a rational. *)
Definition decimalValue (s x : Z) : Z * Z :=
  if (0 <=? x)%Z then (s * 10 ^ x, 1)%Z else (s, 10 ^ (- x))%Z.

(** The decimal with [digits] significant digits that reads back as the
    double [x] and is nearest to it, as [(s, x)] for [s * 10^x]; [None] when
    no decimal of that length reads back as [x]. *)
Definition decimalOfLength (x : Z * Z) (digits : Z) : option (Z * Z) :=
  let (n, d) := doubleValue x in
  let e := (decimalExponent n d - digits + 1)%Z in
  let lo := if (0 <=? e)%Z then (n / (d * 10 ^ e))%Z else (n * 10 ^ (- e) / d)%Z in
  let hi := (lo + 1)%Z in
  let reads s :=
    let (cn, cd) := decimalValue s e in
    sameRational (doubleValue (roundToDouble cn cd)) (n, d) in
  (* twice the double against the sum of the two candidates *)
  let (ln, ld) := decimalValue lo e in
  let (hn, hd) := decimalValue hi e in
  let twice := (2 * n * ld)%Z in
  let sum := ((ln + hn) * d)%Z in
  let lowNearer := (twice <? sum)%Z || ((twice =? sum)%Z && Z.even lo) in
  match reads lo, reads hi with
  | true, true => Some (if lowNearer then lo else hi, e)
  | true, false => Some (lo, e)
  | false, true => Some (hi, e)
  | false, false => None
  end.

(** The shortest decimal that reads back as the double: the digits of
    [Number::toString].  Seventeen digits always suffice. *)
Fixpoint shortestDecimal (x : Z * Z) (lengths : list Z) : Z * Z :=
  match lengths with
  | [] => (0, 0)%Z
  | digits :: rest =>
      match decimalOfLength x digits with
      | Some r => r
      | None => shortestDecimal x rest
      end
  end.

Definition digitCounts : list Z :=
  [1; 2; 3; 4; 5; 6; 7; 8; 9; 10; 11; 12; 13; 14; 15; 16; 17]%Z.

(** The number denoted by the decimal [m * 10^-e], [negative] giving its
    sign. *)
Definition numberOfDecimal (negative : bool) (m : Z) (e : nat) : JsNumber :=
  let x := roundToDouble m (10 ^ Z.of_nat e) in
  if overflows x then Inf negative
  else if (fst x =? 0)%Z then Fin 0 0
  else
    let (s, p) := shortestDecimal x digitCounts in
    let s' := if negative then (- s)%Z else s in
    if (0 <=? p)%Z then Fin (s' * 10 ^ p) 0
    else normalizeDec s' (Z.to_nat (- p)).

(** [parseFloat(s)] for an [s] of the decimal shape above, the only strings
    the source passes to it (it is always guarded by the test); other
    strings are mapped to [NaN]. *)
Definition parseFloat (s : string) : JsNumber :=
  match decimalParts (chars s) with
  | Some (neg, ip, fr) =>
      numberOfDecimal neg (digitsVal (ip ++ fr)) (List.length fr)
  | None => NaN
  end.

Definition isNaN (n : JsNumber) : bool :=
  match n with NaN => true | _ => false end.

Definition natDigits (n : N) : string := NilZero.string_of_uint (N.to_uint n).

Fixpoint zeros (k : nat) : string :=
  match k with O => EmptyString | S k' => "0" +++ zeros k' end.

(** The decimal digits of a positive integer, and their count. *)
Definition digitsOf (a : Z) : string := natDigits (Z.to_N a).

(** [String(n)], for [n] in the shortest form: plain decimal notation when
    the decimal point falls from seven places before the first digit to
    twenty-one places after it, exponent notation beyond. *)
Definition numberToString (n : JsNumber) : string :=
  match n with
  | NaN => "NaN"
  | Inf false => "Infinity"
  | Inf true => "-Infinity"
  | Fin m e =>
      if (m =? 0)%Z then "0"
      else
        let sign := if (m <? 0)%Z then "-" else EmptyString in
        let all := digitsOf (Z.abs m) in
        (* the digits without the zeros they end with, and their count *)
        let stripped :=
          str (rev (dropWhile (fun c => Ascii.eqb c "0") (rev (chars all)))) in
        let k := String.length stripped in
        (* the position of the decimal point, counted from the first digit *)
        let point := (Z.of_nat (String.length all) - Z.of_nat e)%Z in
        if (21 <? point)%Z || (point <? -5)%Z then
          let x := (point - 1)%Z in
          let mantissa :=
            if k =? 1 then stripped
            else substring 0 1 stripped +++ "." +++ substring 1 (k - 1) stripped in
          sign +++ mantissa +++ "e" +++ (if (x <? 0)%Z then "-" else "+")
               +++ digitsOf (Z.abs x)
        else if (Z.of_nat k <=? point)%Z then
          sign +++ stripped +++ zeros (Z.to_nat point - k)
        else if (0 <? point)%Z then
          sign +++ substring 0 (Z.to_nat point) stripped +++ "." +++
          substring (Z.to_nat point) (k - Z.to_nat point) stripped
        else
          sign +++ "0." +++ zeros (Z.to_nat (- point)) +++ stripped
  end.

(** *** Conversions and property access *)

(** Truthiness, as tested by [if (v)], [!v] and [v || d]. *)
Definition truthy (v : JsVal) : bool :=
  match v with
  | JUndefined | JNull => false
  | JBool b => b
  | JNum NaN => false
  | JNum (Inf _) => true
  | JNum (Fin m _) => negb (m =? 0)%Z
  | JStr s => negb (String.eqb s EmptyString)
  | JArr _ | JObj _ => true
  end.

(** [v || d] *)
Definition orElse (v d : JsVal) : JsVal := if truthy v then v else d.

(** [s || d] for strings. *)
Definition strOr (s d : string) : string := if String.eqb s EmptyString then d else s.

(** Conversion to string as done by a template literal.  Array elements
    are joined with a comma, [null] and [undefined] elements giving the
    empty string. *)
Fixpoint toStr (v : JsVal) : string :=
  match v with
  | JUndefined => "undefined"
  | JNull => "null"
  | JBool true => "true"
  | JBool false => "false"
  | JNum n => numberToString n
  | JStr s => s
  | JArr l =>
      join "," ((fix elems (l : list JsVal) : list string :=
                   match l with
                   | [] => []
                   | JUndefined :: t => EmptyString :: elems t
                   | JNull :: t => EmptyString :: elems t
                   | x :: t => toStr x :: elems t
                   end) l)
  | JObj _ => "[object Object]"
  end.

Fixpoint lookup (k : string) (kv : list (string * JsVal)) : option JsVal :=
  match kv with
  | [] => None
  | (k', v) :: t => if String.eqb k k' then Some v else lookup k t
  end.

(** [o.k] when [o] is known not to be [null]/[undefined]: a missing
    property, or a property of a primitive, reads as [undefined]. *)
Definition prop (o : JsVal) (k : string) : JsVal :=
  match o with
  | JObj kv => match lookup k kv with Some v => v | None => JUndefined end
  | _ => JUndefined
  end.

(** A canonical array index ("0", "7", "12", ...): such keys are
    enumerated before the other keys of an object, in numeric order. *)
Definition isIndexKey (k : string) : bool :=
  match chars k with
  | [] => false
  | ["0"%char] => true
  | c :: t => isDigit c && negb (Ascii.eqb c "0") && forallb isDigit t
              && (digitsVal (c :: t) <? 4294967295)%Z
  end.

Definition indexOf (k : string) : Z := digitsVal (chars k).

(** [o[k] = v] on the property list of a plain object: an existing
    property keeps its place; a new array-index key goes among the index
    keys in numeric order; any other new key goes last.  The key
    [__proto__] is not created: the assignment goes to the accessor that the
    object inherits, which makes no own property, whatever the value. *)
Fixpoint setProp (k : string) (v : JsVal) (kv : list (string * JsVal))
  : list (string * JsVal) :=
  match kv with
  | [] => if String.eqb k "__proto__" then [] else [(k, v)]
  | (k', v') :: t =>
      if String.eqb k k' then (k, v) :: t
      else if isIndexKey k && negb (existsb (fun p => String.eqb k (fst p)) t) &&
              (negb (isIndexKey k') || (indexOf k <? indexOf k')%Z)
           then (k, v) :: (k', v') :: t
           else (k', v') :: setProp k v t
  end.

(** [Object.keys(o).length > 0] *)
Definition hasKeys (kv : list (string * JsVal)) : bool :=
  match kv with [] => false | _ :: _ => true end.

End Js.


Import Js.

(* ===================================================================== *)
(** ** Object literals of the query DSL *)
(* ===================================================================== *)

Module Dsl.

(** [{ [k]: v }] *)
Definition obj1 (k : string) (v : JsVal) : JsVal := JObj [(k, v)].

(** [{ bool: { must_not: [q] } }] *)
Definition mustNot (q : JsVal) : JsVal := obj1 "bool" (obj1 "must_not" (JArr [q])).

(** [{ bool: { must: qs } }] *)
Definition boolMust (qs : list JsVal) : JsVal := obj1 "bool" (obj1 "must" (JArr qs)).

(** [{ bool: { should: qs, minimum_should_match: 1 } }] *)
Definition boolShould (qs : list JsVal) : JsVal :=
  obj1 "bool" (JObj [("should", JArr qs); ("minimum_should_match", JNum (Fin 1 0))]).

(** The value list of [is_one_of] / [is_not_one_of]. *)
Definition arrayOf (v : JsVal) : JsVal :=
  match v with
  | JArr _ => v
  | JStr s => JArr (map (fun p => JStr (trim p)) (splitComma s))
  | _ => JArr [v]
  end.

(** [{ match_all: {} }] *)
Definition matchAll : JsVal := obj1 "match_all" (JObj []).

End Dsl.

Import Dsl.

(* ===================================================================== *)
(** ** The flat filter bar: [KibanaFilterBarComponent] *)
(* ===================================================================== *)

Module FlatBar.

(** One row of the filter form ([this.filters.value[i]]). *)
Record Row : Type := mkRow {
  field : string;
  operator : string;
  value : JsVal;
  logic : string;
  minOperator : string;
  minValue : JsVal;
  maxOperator : string;
  maxValue : JsVal
}.

Fixpoint assoc (k : string) (m : list (string * string)) : option string :=
  match m with
  | [] => None
  | (k', v) :: t => if String.eqb k k' then Some v else assoc k t
  end.

Definition operatorMap : list (string * string) :=
  [ ("is", "is"); ("isNot", "is_not"); ("is_not", "is_not");
    ("terms", "is_one_of"); ("is_one_of", "is_one_of");
    ("notTerms", "is_not_one_of"); ("is_not_one_of", "is_not_one_of");
    ("exists", "exists"); ("notExists", "does_not_exist");
    ("does_not_exist", "does_not_exist"); ("range", "range");
    ("prefix", "prefix"); ("wildcard", "wildcard");
    ("query_string", "query_string"); ("queryString", "query_string") ].

(** [operatorMap[operator] || operator].  A name inherited from
    [Object.prototype] (such as [constructor]) yields an object that equals
    no operator name; here it is left as it is, which equals no operator
    name either. *)
Definition normalizeOperator (op : string) : string :=
  match assoc op operatorMap with
  | Some v => v
  | None => op
  end.

Definition isKeywordField (f : string) : bool := endsWith f ".keyword".

Definition isNumericValue (val : JsVal) : bool :=
  match val with
  | JNull | JUndefined => false
  | JNum _ => true
  | JStr s => if String.eqb s EmptyString then false else matchesDecimal (trim s)
  | _ => false
  end.

Definition isDateField (f : string) : bool :=
  String.eqb f "@timestamp" ||
  includes (toLowerCase f) "date" ||
  includes (toLowerCase f) "time".

Definition convertValue (isKeyword : bool) (val : JsVal) : JsVal :=
  if isKeyword then val
  else if isNumericValue val then
    match val with
    | JStr s =>
        let numVal := parseFloat (trim s) in
        if isNaN numVal then val else JNum numVal
    | _ => val
    end
  else val.

(** The [rangeQuery] object of the [range] case. *)
Definition rangeBounds (isKeyword : bool) (filter : Row) : list (string * JsVal) :=
  let rq0 : list (string * JsVal) := [] in
  let rq1 :=
    if truthy (minValue filter)
    then setProp (strOr (minOperator filter) "gt")
                 (convertValue isKeyword (minValue filter)) rq0
    else rq0 in
  if truthy (maxValue filter)
  then setProp (strOr (maxOperator filter) "lt")
               (convertValue isKeyword (maxValue filter)) rq1
  else rq1.

(** Body of the [forEach] callback of [generateQueryDSL] after the
    field/operator guard: the clause of one row, or [None] when the callback
    returns early and the row is skipped. *)
Definition rowQuery (filter : Row) : option JsVal :=
  let isKeyword := isKeywordField (field filter) in
  let normalizedOperator := normalizeOperator (operator filter) in
  let f := field filter in
  let v := value filter in
  if String.eqb normalizedOperator "is" then
    if isKeyword || isDateField f || isNumericValue v
    then Some (obj1 "term" (obj1 f (convertValue isKeyword v)))
    else Some (obj1 "match" (obj1 f v))
  else if String.eqb normalizedOperator "is_not" then
    if isKeyword || isDateField f || isNumericValue v
    then Some (mustNot (obj1 "term" (obj1 f (convertValue isKeyword v))))
    else Some (mustNot (obj1 "match" (obj1 f v)))
  else if String.eqb normalizedOperator "is_one_of" then
    Some (obj1 "terms" (obj1 f (arrayOf v)))
  else if String.eqb normalizedOperator "is_not_one_of" then
    Some (mustNot (obj1 "terms" (obj1 f (arrayOf v))))
  else if String.eqb normalizedOperator "exists" then
    Some (obj1 "exists" (obj1 "field" (JStr f)))
  else if String.eqb normalizedOperator "does_not_exist" then
    Some (mustNot (obj1 "exists" (obj1 "field" (JStr f))))
  else if String.eqb normalizedOperator "range" then
    let rangeQuery := rangeBounds isKeyword filter in
    if hasKeys rangeQuery
    then Some (obj1 "range" (obj1 f (JObj rangeQuery)))
    else None
  else if String.eqb normalizedOperator "prefix" then
    if negb (truthy v) then None
    else if isKeyword then Some (obj1 "prefix" (obj1 f v))
    else Some (obj1 "wildcard"
                 (obj1 f (JObj [("value", JStr (toStr v +++ "*"));
                                ("case_insensitive", JBool true)])))
  else if String.eqb normalizedOperator "wildcard" then
    if negb (truthy v) then None
    else Some (obj1 "wildcard"
                 (obj1 f (JObj [("value", v); ("case_insensitive", JBool true)])))
  else if String.eqb normalizedOperator "query_string" then
    if negb (truthy v) then None
    else Some (JObj [("query_string",
                      JObj [("default_field", JStr f); ("query", v)])])
  else None.

(** An element of the [queries] array. *)
Record Entry : Type := mkEntry {
  query : JsVal;
  entryLogic : string;
  index : nat
}.

(** The [forEach] over the rows, [i] being the index of the head row. *)
Fixpoint collectQueries (i : nat) (filterArray : list Row) : list Entry :=
  match filterArray with
  | [] => []
  | filter :: rest =>
      if String.eqb (field filter) EmptyString || String.eqb (operator filter) EmptyString
      then collectQueries (S i) rest
      else
        match rowQuery filter with
        | None => collectQueries (S i) rest
        | Some q => mkEntry q (strOr (logic filter) "AND") i
                      :: collectQueries (S i) rest
        end
  end.

(** [operators]: [null] followed by the relation before each later
    element. *)
Definition operatorsOf {A} (logicOf : A -> string) (l : list A)
  : list (option string) :=
  None :: map (fun x => Some (strOr (logicOf x) "AND")) (tl l).

Definition opEq (a b : option string) : bool :=
  match a, b with
  | Some x, Some y => String.eqb x y
  | None, None => true
  | _, _ => false
  end.

Definition isOR (op : option string) : bool := opEq op (Some "OR").

(** [allOperators.every(op => op === allOperators[0])] *)
Definition everySame (allOperators : list (option string)) : bool :=
  forallb (fun op => opEq op (nth 0 allOperators None)) allOperators.

(** [result.bool.k = [currentQuery, ...result.bool.k]]: the array under
    [bool.k] of [result] is replaced in place.  Only arrays are ever spread
    here: a [should]/[must] entry exists only in groups built by the loop. *)
Definition extendGroup (k : string) (currentQuery result : JsVal) : JsVal :=
  match result with
  | JObj kv =>
      match prop result "bool" with
      | JObj bkv =>
          let old := match prop (JObj bkv) k with JArr l => l | _ => [] end in
          JObj (setProp "bool" (JObj (setProp k (JArr (currentQuery :: old)) bkv)) kv)
      | _ => result
      end
  | _ => result
  end.

(** One iteration of the right-to-left loop of [generateQueryDSL]. *)
Definition combine (currentOp : option string) (needsNesting : bool)
           (currentQuery result : JsVal) : JsVal :=
  if isOR currentOp then
    if needsNesting then boolShould [currentQuery; result]
    else if truthy (prop result "bool") && truthy (prop (prop result "bool") "should")
         then extendGroup "should" currentQuery result
         else boolShould [currentQuery; result]
  else
    if needsNesting then boolMust [currentQuery; result]
    else if truthy (prop result "bool") && truthy (prop (prop result "bool") "must")
         then extendGroup "must" currentQuery result
         else boolMust [currentQuery; result].

Definition needsNestingAt (n : nat) (operators : list (option string)) (i : nat) : bool :=
  if i + 1 <? n - 1
  then negb (opEq (nth (i + 2) operators None) (nth (i + 1) operators None))
  else false.

(** [for (let i = k - 1; i >= 0; i--)] of [generateQueryDSL]. *)
Fixpoint nestLoop (queries : list JsVal) (operators : list (option string))
         (k : nat) (result : JsVal) : JsVal :=
  match k with
  | O => result
  | S i =>
      let currentOp := nth (i + 1) operators None in
      let currentQuery := nth i queries JUndefined in
      let needsNesting := needsNestingAt (List.length queries) operators i in
      nestLoop queries operators i (combine currentOp needsNesting currentQuery result)
  end.

(** [generateQueryDSL]: the [queryDSL] object that is serialized into
    [this.queryDSL], or the exception the call raises. *)
Definition generateQueryDSL (filterArray : list Row) : Completion JsVal :=
  let queries := collectQueries 0 filterArray in
  let operators := operatorsOf entryLogic queries in
  let allOperators := tl operators in
  let allSame := (0 <? List.length allOperators) && everySame allOperators in
  let n := List.length queries in
  if n =? 1 then
    Normal (obj1 "query" (nth 0 (map query queries) JUndefined))
  else if allSame then
    let queryList := map query queries in
    if isOR (nth 0 allOperators None)
    then Normal (obj1 "query" (boolShould queryList))
    else Normal (obj1 "query" (boolMust queryList))
  else
    match nth_error queries (n - 1) with
    | None =>
        (* [queries[queries.length - 1]] is [undefined] *)
        Throw "TypeError: Cannot read properties of undefined (reading 'query')"
    | Some last =>
        Normal (obj1 "query"
                  (nestLoop (map query queries) operators (n - 1) (query last)))
    end.

(** *** Preview *)

Record FilterExpr : Type := mkExpr {
  text : string;
  exprLogic : string;
  hasNot : bool
}.

Definition rangeOperators : list (string * string) :=
  [ ("gt", "Greater Than"); ("gte", "Greater Than/Equal To");
    ("lt", "Less Than"); ("lte", "Less Than/Equal To") ].

Definition getRangeOperatorLabel (op : string) : string :=
  match assoc op rangeOperators with
  | Some label => label
  | None => op
  end.

(** [filter.hasNot ? `NOT ${filter.text}` : filter.text] *)
Definition exprText (e : FilterExpr) : string :=
  if hasNot e then "NOT " +++ text e else text e.

Definition opText (op : option string) : string :=
  match op with Some s => s | None => "null" end.

(** The [parts] array of the same-relation branch. *)
Fixpoint sameParts (idx : nat) (operators : list (option string))
         (filters : list FilterExpr) : list string :=
  match filters with
  | [] => []
  | f :: rest =>
      (if 0 <? idx then [opText (nth idx operators None)] else [])
        ++ exprText f :: sameParts (S idx) operators rest
  end.

(** [for (let i = k - 1; i >= 0; i--)] of [buildKibanaPreview]. *)
Fixpoint previewLoop (filters : list FilterExpr) (operators : list (option string))
         (k : nat) (result : string) : string :=
  match k with
  | O => result
  | S i =>
      let currentOp := nth (i + 1) operators None in
      let currentFilterText :=
        match nth_error filters i with Some f => exprText f | None => EmptyString end in
      let needsParens := needsNestingAt (List.length filters) operators i in
      previewLoop filters operators i
        (currentFilterText +++ " " +++ opText currentOp +++ " " +++
         (if needsParens then "(" +++ result +++ ")" else result))
  end.

Definition buildKibanaPreview (filters : list FilterExpr) : string :=
  match filters with
  | [] => EmptyString
  | [f] => exprText f
  | _ =>
      let operators := operatorsOf exprLogic filters in
      let allOperators := tl operators in
      let allSame := everySame allOperators in
      if allSame then join " " (sameParts 0 operators filters)
      else
        let n := List.length filters in
        let last :=
          match nth_error filters (n - 1) with Some f => exprText f | None => EmptyString end in
        previewLoop filters operators (n - 1) last
  end.

(** Text and negation flag of one row in [updatePreview]. *)
Definition rowExpr (index : nat) (filter : Row) : FilterExpr :=
  let normalizedOperator := normalizeOperator (operator filter) in
  let f := field filter in
  let lg := if 0 <? index then strOr (logic filter) "AND" else EmptyString in
  if String.eqb normalizedOperator "exists" then
    mkExpr (f +++ ": exists") lg false
  else if String.eqb normalizedOperator "does_not_exist" then
    mkExpr (f +++ ": exists") lg true
  else if String.eqb normalizedOperator "range" then
    let rangeParts :=
      (if truthy (minValue filter)
       then [getRangeOperatorLabel (strOr (minOperator filter) "gt")
               +++ " " +++ toStr (minValue filter)]
       else []) ++
      (if truthy (maxValue filter)
       then [getRangeOperatorLabel (strOr (maxOperator filter) "lt")
               +++ " " +++ toStr (maxValue filter)]
       else []) in
    match rangeParts with
    | [] => mkExpr (f +++ ": -") lg false
    | _ :: _ => mkExpr (f +++ ": " +++ join " and " rangeParts) lg false
    end
  else if String.eqb normalizedOperator "prefix" then
    mkExpr (f +++ ": prefix " +++ dquote +++ toStr (orElse (value filter) (JStr "-")) +++ dquote) lg false
  else if String.eqb normalizedOperator "wildcard" then
    mkExpr (f +++ ": wildcard " +++ dquote +++ toStr (orElse (value filter) (JStr "-")) +++ dquote) lg false
  else if String.eqb normalizedOperator "query_string" then
    mkExpr (f +++ ": query_string " +++ dquote +++ toStr (orElse (value filter) (JStr "-")) +++ dquote) lg false
  else if String.eqb normalizedOperator "is_not" then
    mkExpr (f +++ ": " +++ toStr (orElse (value filter) (JStr "-"))) lg true
  else if truthy (value filter) then
    mkExpr (f +++ ": " +++ toStr (value filter)) lg false
  else
    mkExpr (f +++ ": -") lg false.

Fixpoint collectExprs (index : nat) (filterArray : list Row) : list FilterExpr :=
  match filterArray with
  | [] => []
  | filter :: rest =>
      if negb (String.eqb (field filter) EmptyString) && negb (String.eqb (operator filter) EmptyString)
      then rowExpr index filter :: collectExprs (S index) rest
      else collectExprs (S index) rest
  end.

(** [updatePreview]: the value left in [this.previewText]. *)
Definition updatePreview (filterArray : list Row) : string :=
  match filterArray with
  | [] => EmptyString
  | _ :: _ =>
      match collectExprs 0 filterArray with
      | [] => EmptyString
      | filterExpressions => buildKibanaPreview filterExpressions
      end
  end.

End FlatBar.

(* ===================================================================== *)
(** ** The expression tree: [FilterStateService] *)
(* ===================================================================== *)

Module TreeState.

Inductive Relation : Type := AND | OR.

Definition relEq (a b : Relation) : bool :=
  match a, b with
  | AND, AND | OR, OR => true
  | _, _ => false
  end.

Definition relText (r : Relation) : string :=
  match r with AND => "AND" | OR => "OR" end.

(** Leaf node.  An absent optional string property is the empty string
    (both are falsy, and the source only tests them with [!] and [||]). *)
Record FilterCondition : Type := mkCond {
  id : string;
  field : string;
  operator : string;
  value : JsVal;
  minOperator : string;
  minValue : JsVal;
  maxOperator : string;
  maxValue : JsVal
}.

(** [FilterNode = FilterCondition | BooleanNode]; the constructor plays the
    role of the [isFilterCondition] / [isBooleanNode] guards. *)
#[warnings="-register-all"]
Inductive FilterNode : Type :=
| Condition (c : FilterCondition)
| BooleanNode (nodeId : string) (op : Relation) (children : list FilterNode).

Record FilterTree : Type := mkTree {
  root : option FilterNode;
  treeId : string
}.

Definition idOf (node : FilterNode) : string :=
  match node with
  | Condition c => id c
  | BooleanNode i _ _ => i
  end.

Definition isBooleanNode (node : FilterNode) : bool :=
  match node with BooleanNode _ _ _ => true | Condition _ => false end.

(** *** Structural edits *)

Section Service.

(** [generateId] draws on the clock and on [Math.random]: the [k]-th
    identifier the service generates is [genId k], and the service state
    counts the identifiers drawn so far. *)
Variable genId : nat -> string.

Record State : Type := mkState {
  tree : FilterTree;
  drawn : nat
}.

(** The [Partial<FilterCondition>] argument of [addFilter]. *)
Record PartialFilter : Type := mkPartial {
  pField : string;
  pOperator : string;
  pValue : JsVal;
  pMinOperator : string;
  pMinValue : JsVal;
  pMaxOperator : string;
  pMaxValue : JsVal
}.

(** The condition literal built in [initializeWithFilter] and [addFilter]. *)
Definition newCondition (newId : string) (filter : PartialFilter) : FilterCondition :=
  mkCond newId
         (strOr (pField filter) EmptyString)
         (strOr (pOperator filter) EmptyString)
         (orElse (pValue filter) (JStr EmptyString))
         (strOr (pMinOperator filter) "gt")
         (orElse (pMinValue filter) (JStr EmptyString))
         (strOr (pMaxOperator filter) "lt")
         (orElse (pMaxValue filter) (JStr EmptyString)).

Definition initializeWithFilter (filter : PartialFilter) (s : State) : State :=
  let condition := newCondition (genId (drawn s)) filter in
  mkState (mkTree (Some (Condition condition)) (genId (S (drawn s))))
          (S (S (drawn s))).

(** [addFilterRecursive]; the counter of drawn identifiers is threaded
    through the [map] over the children, left to right. *)
Fixpoint addFilterRecursive (parentNodeId : string) (operator : Relation)
         (newFilter : FilterCondition) (node : FilterNode) (k : nat)
  : FilterNode * nat :=
  match node with
  | Condition c =>
      if String.eqb (id c) parentNodeId
      then (BooleanNode (genId k) operator [node; Condition newFilter], S k)
      else (node, k)
  | BooleanNode i op children =>
      if String.eqb i parentNodeId then
        if relEq op operator
        then (BooleanNode i op (children ++ [Condition newFilter]), k)
        else (BooleanNode (genId k) operator [node; Condition newFilter], S k)
      else
        let '(children', k') :=
          (fix mapAdd (l : list FilterNode) (k : nat) : list FilterNode * nat :=
             match l with
             | [] => ([], k)
             | child :: rest =>
                 let '(child', k1) :=
                   addFilterRecursive parentNodeId operator newFilter child k in
                 let '(rest', k2) := mapAdd rest k1 in
                 (child' :: rest', k2)
             end) children k in
        (BooleanNode i op children', k')
  end.

Definition addFilter (parentNodeId : string) (operator : Relation)
           (filter : PartialFilter) (s : State) : State :=
  match root (tree s) with
  | None => initializeWithFilter filter s
  | Some r =>
      let newFilter := newCondition (genId (drawn s)) filter in
      let '(newRoot, k) :=
        addFilterRecursive parentNodeId operator newFilter r (S (drawn s)) in
      mkState (mkTree (Some newRoot) (treeId (tree s))) k
  end.

(** [children.map(f).filter(child => child !== null)] *)
Definition keepNodes (l : list (option FilterNode)) : list FilterNode :=
  flat_map (fun o => match o with Some x => [x] | None => [] end) l.

Fixpoint removeFilterRecursive (nodeId : string) (node : FilterNode)
  : option FilterNode :=
  match node with
  | BooleanNode i op children =>
      let filteredChildren := keepNodes (map (removeFilterRecursive nodeId) children) in
      match filteredChildren with
      | [] => None
      | [only] => Some only
      | _ => Some (BooleanNode i op filteredChildren)
      end
  | Condition c =>
      if String.eqb (id c) nodeId then None else Some node
  end.

(** [normalizeNode] on a node that is not [null]. *)
Fixpoint normalizeNode' (node : FilterNode) : option FilterNode :=
  match node with
  | BooleanNode i op children =>
      let normalizedChildren := keepNodes (map normalizeNode' children) in
      match normalizedChildren with
      | [] => None
      | [only] => Some only
      | _ => Some (BooleanNode i op normalizedChildren)
      end
  | Condition _ => Some node
  end.

Definition normalizeNode (node : option FilterNode) : option FilterNode :=
  match node with
  | None => None
  | Some n => normalizeNode' n
  end.

Definition removeFilter (nodeId : string) (s : State) : State :=
  match root (tree s) with
  | None => s
  | Some r =>
      if String.eqb (idOf r) nodeId
      then mkState (mkTree None (genId (drawn s))) (S (drawn s))
      else
        let newRoot := removeFilterRecursive nodeId r in
        let normalizedRoot := normalizeNode newRoot in
        mkState (mkTree normalizedRoot (treeId (tree s))) (drawn s)
  end.

End Service.

(** [findNodeByIdRecursive] *)
Fixpoint findNodeByIdRecursive (nodeId : string) (node : FilterNode)
  : option FilterNode :=
  if String.eqb (idOf node) nodeId then Some node
  else
    match node with
    | BooleanNode _ _ children =>
        (fix search (l : list FilterNode) : option FilterNode :=
           match l with
           | [] => None
           | child :: rest =>
               match findNodeByIdRecursive nodeId child with
               | Some found => Some found
               | None => search rest
               end
           end) children
    | Condition _ => None
    end.

(** *** Preview *)

Definition isNegatedFilter (filter : FilterCondition) : bool :=
  let operator := strOr (operator filter) EmptyString in
  String.eqb operator "is_not" ||
  String.eqb operator "does_not_exist" ||
  String.eqb operator "is_not_one_of".

(** The leaf branch of [generatePreviewRecursive]. *)
Definition leafPreview (node : FilterCondition) : string :=
  let field := strOr (field node) "-" in
  let value := orElse (value node) (JStr "-") in
  let hasNot := isNegatedFilter node in
  let filterText := field +++ ": " +++ toStr value in
  if hasNot then "NOT " +++ filterText else filterText.

(** The test of the [map] callback: the child is wrapped in parentheses. *)
Definition wrapsChild (parentOp : Relation) (child : FilterNode) : bool :=
  match child with
  | BooleanNode _ childOp _ => negb (relEq childOp parentOp)
  | Condition _ => false
  end.

(** The test on the whole group: an ambient relation was passed and
    differs. *)
Definition wrapsGroup (parentOperator : option Relation) (op : Relation) : bool :=
  match parentOperator with
  | Some p => negb (relEq p op)
  | None => false
  end.

Fixpoint generatePreviewRecursive (node : FilterNode)
         (parentOperator : option Relation) : string :=
  match node with
  | Condition c => leafPreview c
  | BooleanNode _ op children =>
      let childrenPreviews :=
        map (fun child =>
               let childPreview := generatePreviewRecursive child (Some op) in
               if wrapsChild op child
               then "(" +++ childPreview +++ ")"
               else childPreview) children in
      let joined := join (" " +++ relText op +++ " ") childrenPreviews in
      if wrapsGroup parentOperator op
      then "(" +++ joined +++ ")"
      else joined
  end.

Definition generatePreview (t : FilterTree) : string :=
  match root t with
  | None => EmptyString
  | Some r => generatePreviewRecursive r None
  end.

(** *** Compilation *)

Definition isNumeric (val : JsVal) : bool :=
  match val with
  | JNull | JUndefined => false
  | JNum _ => true
  | JStr s => if String.eqb s EmptyString then false else matchesDecimal (trim s)
  | _ => false
  end.

Definition convertValue (isKeyword : bool) (val : JsVal) : JsVal :=
  if isKeyword then val
  else if isNumeric val then
    match val with
    | JStr s =>
        let num := parseFloat (trim s) in
        if isNaN num then val else JNum num
    | _ => val
    end
  else val.

(** The [rangeQuery] object of the [range] case. *)
Definition rangeBounds (isKeyword : bool) (filter : FilterCondition)
  : list (string * JsVal) :=
  let rq0 : list (string * JsVal) := [] in
  let rq1 :=
    if truthy (minValue filter)
    then setProp (strOr (minOperator filter) "gt")
                 (convertValue isKeyword (minValue filter)) rq0
    else rq0 in
  if truthy (maxValue filter)
  then setProp (strOr (maxOperator filter) "lt")
               (convertValue isKeyword (maxValue filter)) rq1
  else rq1.

(** [buildSingleFilterQuery]; [JNull] is the [null] result. *)
Definition buildSingleFilterQuery (filter : FilterCondition) : JsVal :=
  if String.eqb (field filter) EmptyString || String.eqb (operator filter) EmptyString
  then JNull
  else
    let operator := operator filter in
    let field := field filter in
    let value := value filter in
    let isKeyword := endsWith field ".keyword" in
    if String.eqb operator "is" then
      if isKeyword || isNumeric value
      then obj1 "term" (obj1 field (convertValue isKeyword value))
      else obj1 "match" (obj1 field value)
    else if String.eqb operator "is_not" then
      if isKeyword || isNumeric value
      then mustNot (obj1 "term" (obj1 field (convertValue isKeyword value)))
      else mustNot (obj1 "match" (obj1 field value))
    else if String.eqb operator "is_one_of" then
      obj1 "terms" (obj1 field (arrayOf value))
    else if String.eqb operator "is_not_one_of" then
      mustNot (obj1 "terms" (obj1 field (arrayOf value)))
    else if String.eqb operator "exists" then
      obj1 "exists" (obj1 "field" (JStr field))
    else if String.eqb operator "does_not_exist" then
      mustNot (obj1 "exists" (obj1 "field" (JStr field)))
    else if String.eqb operator "range" then
      let rangeQuery := rangeBounds isKeyword filter in
      if hasKeys rangeQuery
      then obj1 "range" (obj1 field (JObj rangeQuery))
      else JNull
    else if String.eqb operator "prefix" then
      if negb (truthy value) then JNull
      else if isKeyword then obj1 "prefix" (obj1 field value)
      else obj1 "wildcard"
             (obj1 field (JObj [("value", JStr (toStr value +++ "*"));
                                ("case_insensitive", JBool true)]))
    else if String.eqb operator "wildcard" then
      if negb (truthy value) then JNull
      else obj1 "wildcard"
             (obj1 field (JObj [("value", value); ("case_insensitive", JBool true)]))
    else if String.eqb operator "query_string" then
      if negb (truthy value) then JNull
      else JObj [("query_string",
                  JObj [("default_field", JStr field); ("query", value)])]
    else JNull.

(** [Object.keys(query).length === 1] *)
Definition oneKey (query : JsVal) : bool :=
  match query with
  | JObj [_] => true
  | _ => false
  end.

Definition isEmptyQuery (query : JsVal) : bool :=
  negb (truthy query) || (truthy (prop query "match_all") && oneKey query).

(** The predicate of the [filter] over the compiled children. *)
Definition survives (query : JsVal) : bool :=
  truthy query && negb (isEmptyQuery query).

Fixpoint generateQueryDSLRecursive (node : FilterNode) : JsVal :=
  match node with
  | Condition c => buildSingleFilterQuery c
  | BooleanNode _ op children =>
      let childQueries := filter survives (map generateQueryDSLRecursive children) in
      match childQueries with
      | [] => matchAll
      | [only] => only
      | _ =>
          match op with
          | OR => boolShould childQueries
          | AND => boolMust childQueries
          end
      end
  end.

Definition generateQueryDSL (t : FilterTree) : JsVal :=
  match root t with
  | None => matchAll
  | Some r => generateQueryDSLRecursive r
  end.

End TreeState.

(* ===================================================================== *)
(** ** The Node service: [buildElasticsearchQuery] *)
(* ===================================================================== *)

Module Backend.

(** A filter object [{ field, operator, value, logic, ... }]. *)
Record Filter : Type := mkFilter {
  field : string;
  operator : string;
  value : JsVal;
  logic : string;
  minOperator : string;
  minValue : JsVal;
  maxOperator : string;
  maxValue : JsVal
}.

Definition oneOf (s : string) (alts : list string) : bool :=
  existsb (String.eqb s) alts.

Section Esb.

(** The query constructors come from the elastic-builder package, which is
    not part of the repository: the [toJSON()] form of each constructed
    query is a parameter of the model. *)
Variable termQuery : string -> JsVal -> JsVal.
Variable matchQuery : string -> JsVal -> JsVal.
Variable termsQuery : string -> JsVal -> JsVal.
Variable existsQuery : string -> JsVal.
(** [esb.rangeQuery(field, rangeQuery)] *)
Variable rangeQuery : string -> JsVal -> JsVal.
Variable prefixQuery : string -> JsVal -> JsVal.
(** [esb.wildcardQuery(field, v).caseInsensitive(true)] *)
Variable wildcardQueryCI : string -> JsVal -> JsVal.
(** [esb.queryStringQuery(value).defaultField(field)] *)
Variable queryStringQuery : JsVal -> string -> JsVal.
(** [esb.boolQuery().mustNot(q)] *)
Variable boolMustNot : JsVal -> JsVal.
(** [esb.boolQuery()], with nothing added *)
Variable boolQueryEmpty : JsVal.

(** The [rangeQuery] object of the [range] case. *)
Definition rangeBounds (filter : Filter) : list (string * JsVal) :=
  let rq0 : list (string * JsVal) := [] in
  let rq1 :=
    if truthy (minValue filter)
    then setProp (strOr (minOperator filter) "gt") (minValue filter) rq0
    else rq0 in
  if truthy (maxValue filter)
  then setProp (strOr (maxOperator filter) "lt") (maxValue filter) rq1
  else rq1.

(** The [switch] of the [forEach] callback: the JSON of the query built for
    one filter, or [None] when the callback returns early. *)
Definition filterQuery (filter : Filter) : option JsVal :=
  let field := field filter in
  let operator := operator filter in
  let value := value filter in
  let isKeywordField := endsWith field ".keyword" in
  if oneOf operator ["is"; "IS"] then
    if isKeywordField then Some (termQuery field value)
    else Some (matchQuery field value)
  else if oneOf operator ["is_not"; "isNot"; "IS_NOT"] then
    if isKeywordField then Some (boolMustNot (termQuery field value))
    else Some (boolMustNot (matchQuery field value))
  else if oneOf operator ["is_one_of"; "terms"; "TERMS"] then
    Some (termsQuery field (arrayOf value))
  else if oneOf operator ["is_not_one_of"; "notTerms"; "NOT_TERMS"] then
    Some (boolMustNot (termsQuery field (arrayOf value)))
  else if oneOf operator ["exists"; "EXISTS"] then
    Some (existsQuery field)
  else if oneOf operator ["does_not_exist"; "notExists"; "NOT_EXISTS"] then
    Some (boolMustNot (existsQuery field))
  else if oneOf operator ["range"; "RANGE"] then
    let rq := rangeBounds filter in
    if hasKeys rq then Some (rangeQuery field (JObj rq)) else None
  else if oneOf operator ["prefix"; "PREFIX"] then
    if negb (truthy value) then None
    else if isKeywordField then Some (prefixQuery field value)
    else Some (wildcardQueryCI field (JStr (toStr value +++ "*")))
  else if oneOf operator ["wildcard"; "WILDCARD"] then
    if negb (truthy value) then None
    else Some (wildcardQueryCI field value)
  else if oneOf operator ["query_string"; "queryString"; "QUERY_STRING"] then
    if negb (truthy value) then None
    else Some (queryStringQuery value field)
  else None.

(** A filter the [forEach] callback leaves without pushing a query. *)
Definition skipped (filter : Filter) : Prop :=
  field filter = EmptyString \/ operator filter = EmptyString \/
  filterQuery filter = None.

(** A closed group: a single query as it is, several under [bool.should]. *)
Definition closeGroup (currentGroup : list JsVal) : JsVal :=
  match currentGroup with
  | [only] => only
  | _ => boolShould currentGroup
  end.

(** The [forEach] over the filters, on the pair
    [(queryGroups, currentGroup)]. *)
Fixpoint groupLoop (index : nat) (filters : list Filter)
         (queryGroups currentGroup : list JsVal) : list JsVal * list JsVal :=
  match filters with
  | [] => (queryGroups, currentGroup)
  | filter :: rest =>
      if String.eqb (field filter) EmptyString ||
         String.eqb (operator filter) EmptyString
      then groupLoop (S index) rest queryGroups currentGroup
      else
        match filterQuery filter with
        | None => groupLoop (S index) rest queryGroups currentGroup
        | Some queryJSON =>
            let logic := strOr (logic filter) "AND" in
            if index =? 0 then
              groupLoop (S index) rest queryGroups (currentGroup ++ [queryJSON])
            else if oneOf logic ["OR"; "or"] then
              groupLoop (S index) rest queryGroups (currentGroup ++ [queryJSON])
            else
              match currentGroup with
              | [] => groupLoop (S index) rest queryGroups currentGroup
              | _ :: _ =>
                  groupLoop (S index) rest
                            (queryGroups ++ [closeGroup currentGroup]) [queryJSON]
              end
        end
  end.

(** [buildElasticsearchQuery(filters)]; [None] stands for an argument that
    is absent or is not an array.  The elements of [queryGroups] are
    results of [toJSON()] and object literals, that is plain objects, and
    [esb.boolQuery().must(queryGroups)] takes instances of the [Query]
    class of elastic-builder only: its type check raises a [TypeError] on
    the first element.  With no element [must] is not called. *)
Definition buildElasticsearchQuery (filters : option (list Filter))
  : Completion JsVal :=
  match filters with
  | None => Normal (obj1 "query" matchAll)
  | Some [] => Normal (obj1 "query" matchAll)
  | Some rows =>
      let '(queryGroups0, currentGroup) := groupLoop 0 rows [] [] in
      let queryGroups :=
        match currentGroup with
        | [] => queryGroups0
        | _ :: _ => queryGroups0 ++ [closeGroup currentGroup]
        end in
      match queryGroups with
      | [] => Normal (obj1 "query" boolQueryEmpty)
      | _ :: _ => Throw "TypeError: Argument must be an instance of Query"
      end
  end.

End Esb.

End Backend.

(* ===================================================================== *)
(** ** Path-based combined filters: [FilterBuilderService] *)
(* ===================================================================== *)

Module Builder.

(** A [Filter] of [filter.model]: a plain filter, or a combined filter
    ([meta.type === 'combined'] with an array [meta.params]).  An entry of
    [params] may be [undefined] ([None]): [removeFilter] leaves such a hole
    before it normalizes. *)
#[warnings="-register-all"]
Inductive Filter : Type :=
| Plain (row : FlatBar.Row)
| Combined (relation : TreeState.Relation) (params : list (option Filter)).

(** [array.filter(Boolean)] *)
Definition present {A} (l : list (option A)) : list A :=
  flat_map (fun o => match o with Some x => [x] | None => [] end) l.

(** [normalizeRecursively] on a single filter, with [normalizeCombined]
    inlined in the [Combined] case.  The inner loop is
    [normalizeArray(nonEmptyCombinedFilters, combinedFilter)]: it skips the
    holes, normalizes each remaining item and drops the items that
    normalize to [undefined]. *)
Fixpoint normalizeRecursively (f : Filter) : option Filter :=
  match f with
  | Plain _ => Some f
  | Combined relation params =>
      let nonEmptyCombinedFilters := present params in
      if List.length nonEmptyCombinedFilters <? 2
      then hd_error nonEmptyCombinedFilters
      else
        Some (Combined relation
                (map Some
                   ((fix normalizeItems (l : list (option Filter)) : list Filter :=
                       match l with
                       | [] => []
                       | None :: rest => normalizeItems rest
                       | Some item :: rest =>
                           match normalizeRecursively item with
                           | Some normalized => normalized :: normalizeItems rest
                           | None => normalizeItems rest
                           end
                       end) params)))
  end.

(** [normalizeArray(filtersArray, parent)]: no item of a [Filter[]] is itself
    an array, so the final [flat()] changes nothing. *)
Definition normalizeArray (filtersArray : list Filter) : list Filter :=
  present (map normalizeRecursively filtersArray).

(** [normalizeFilters(filters)] *)
Definition normalizeFilters (filters : list Filter) : list Filter :=
  normalizeArray filters.

(** Number of params of every combined filter is at least two. *)
Fixpoint wellGrouped (f : Filter) : bool :=
  match f with
  | Plain _ => true
  | Combined _ params =>
      (2 <=? List.length params) &&
      (fix all (l : list (option Filter)) : bool :=
         match l with
         | [] => true
         | None :: _ => false
         | Some x :: rest => wellGrouped x && all rest
         end) params
  end.

End Builder.

(* ===================================================================== *)
(** ** Vocabulary of the properties *)
(* ===================================================================== *)

Module TreeShape.

Import TreeState.

(** Identifiers of a subtree, node first, then the children left to
    right. *)
Fixpoint nodeIds (node : FilterNode) : list string :=
  match node with
  | Condition c => [id c]
  | BooleanNode i _ children => i :: flat_map nodeIds children
  end.

(** The node reached from [node] by following child positions. *)
Fixpoint subtree (path : list nat) (node : FilterNode) : option FilterNode :=
  match path with
  | [] => Some node
  | k :: rest =>
      match node with
      | BooleanNode _ _ children =>
          match nth_error children k with
          | Some child => subtree rest child
          | None => None
          end
      | Condition _ => None
      end
  end.

Fixpoint updateAt {A} (k : nat) (f : A -> A) (l : list A) {struct l} : list A :=
  match l, k with
  | [], _ => []
  | x :: t, O => f x :: t
  | x :: t, S k' => x :: updateAt k' f t
  end.

(** [node] with the subtree at [path] replaced by [new], the rest of the
    tree untouched. *)
Fixpoint replaceAt (path : list nat) (new : FilterNode) (node : FilterNode)
  : FilterNode :=
  match path with
  | [] => new
  | k :: rest =>
      match node with
      | BooleanNode i op children =>
          BooleanNode i op (updateAt k (replaceAt rest new) children)
      | Condition _ => node
      end
  end.

(** Every [BooleanNode] of the subtree has at least two children. *)
Fixpoint groupsOk (node : FilterNode) : bool :=
  match node with
  | Condition _ => true
  | BooleanNode _ _ children =>
      (2 <=? List.length children) && forallb groupsOk children
  end.

Definition rootOk (r : option FilterNode) : bool :=
  match r with
  | None => true
  | Some n => groupsOk n
  end.

(** Identifiers of the conditions of a subtree. *)
Fixpoint leafIds (node : FilterNode) : list string :=
  match node with
  | Condition c => [id c]
  | BooleanNode _ _ children => flat_map leafIds children
  end.

Definition rootIds (r : option FilterNode) : list string :=
  match r with
  | None => []
  | Some n => nodeIds n
  end.

(** What [addFilter] is described to put in place of the node it targets. *)
Definition grown (freshId : string) (r : Relation) (c : FilterCondition)
           (target : FilterNode) : FilterNode :=
  match target with
  | Condition _ => BooleanNode freshId r [target; Condition c]
  | BooleanNode i op children =>
      if relEq op r
      then BooleanNode i op (children ++ [Condition c])
      else BooleanNode freshId r [target; Condition c]
  end.

(** A compiled query that is a boolean group: [{bool:{must:[..]}}] or
    [{bool:{should:[..], ..}}]. *)
Definition isGroupBool (q : JsVal) : bool :=
  truthy (prop (prop q "bool") "must") || truthy (prop (prop q "bool") "should").

(** The compiled children a group keeps. *)
Definition survivors (children : list FilterNode) : list JsVal :=
  filter survives (map generateQueryDSLRecursive children).

(** The object literal a group with at least two kept children returns. *)
Definition boolOf (op : Relation) (childQueries : list JsVal) : JsVal :=
  match op with
  | OR => boolShould childQueries
  | AND => boolMust childQueries
  end.

(** The collapse shared by [normalizeNode] and [removeFilterRecursive]. *)
Definition collapse (i : string) (op : Relation) (kept : list FilterNode)
  : option FilterNode :=
  match kept with
  | [] => None
  | [only] => Some only
  | _ => Some (BooleanNode i op kept)
  end.

(** A [map] whose callback draws identifiers: the counter goes through the
    elements from left to right. *)
Fixpoint mapThread {A B} (f : A -> nat -> B * nat) (l : list A) (k : nat)
  : list B * nat :=
  match l with
  | [] => ([], k)
  | x :: rest =>
      let '(y, k1) := f x k in
      let '(rest', k2) := mapThread f rest k1 in
      (y :: rest', k2)
  end.

End TreeShape.

(* ===================================================================== *)
(** ** Concrete inputs *)
(* ===================================================================== *)

Module Samples.

(** A row as the form creates it ([addFilter] of the component): the
    range-specific controls keep their defaults. *)
Definition formRow (field operator value logic : string) : FlatBar.Row :=
  FlatBar.mkRow field operator (JStr value) logic
                "gt" (JStr EmptyString) "lt" (JStr EmptyString).

Definition rowA : FlatBar.Row := formRow "host.keyword" "is" "web01" EmptyString.
Definition rowB : FlatBar.Row := formRow "status" "is_not" "500" "AND".
Definition rowC : FlatBar.Row := formRow "verb.keyword" "is_one_of" "GET,POST" "OR".

(** The three rows of the worked example. *)
Definition rowsABC : list FlatBar.Row := [rowA; rowB; rowC].

(** The untouched first row of a freshly opened filter bar. *)
Definition blankRow : FlatBar.Row :=
  formRow EmptyString EmptyString EmptyString EmptyString.

Definition num (z : Z) : JsVal := JNum (Fin z 0).

Definition clauseA : JsVal :=
  JObj [("term", JObj [("host.keyword", JStr "web01")])].
Definition clauseB : JsVal :=
  JObj [("bool", JObj [("must_not",
     JArr [JObj [("term", JObj [("status", num 500)])]])])].
Definition clauseC : JsVal :=
  JObj [("terms", JObj [("verb.keyword", JArr [JStr "GET"; JStr "POST"])])].

(** [{query:{bool:{must:[A, {bool:{should:[B, C], minimum_should_match:1}}]}}}] *)
Definition documentABC : JsVal :=
  JObj [("query",
    JObj [("bool",
      JObj [("must",
        JArr [clauseA;
              JObj [("bool",
                JObj [("should", JArr [clauseB; clauseC]);
                      ("minimum_should_match", num 1)])]])])])].

(** [{query:{match_all:{}}}] *)
Definition queryMatchAll : JsVal := JObj [("query", JObj [("match_all", JObj [])])].

(** A leaf as [newCondition] builds it. *)
Definition leaf (i field operator value : string) : TreeState.FilterCondition :=
  TreeState.mkCond i field operator (JStr value)
                   "gt" (JStr EmptyString) "lt" (JStr EmptyString).

Definition leafA := leaf "a" "host.keyword" "is" "web01".
Definition leafB := leaf "b" "verb.keyword" "is" "GET".
Definition leafC := leaf "c" "tags.keyword" "is" "prod".
(** A row the user has not filled in yet. *)
Definition leafBlank := leaf "e" EmptyString EmptyString EmptyString.

Definition termOf (field value : string) : JsVal :=
  JObj [("term", JObj [(field, JStr value)])].

(** A child group with the relation of its parent. *)
Definition innerSame : TreeState.FilterNode :=
  TreeState.BooleanNode "g1" TreeState.AND
    [TreeState.Condition leafA; TreeState.Condition leafB].
Definition treeSame : TreeState.FilterNode :=
  TreeState.BooleanNode "g0" TreeState.AND [innerSame; TreeState.Condition leafC].

(** A child group with another relation, one of whose children compiles to
    nothing. *)
Definition innerDropped : TreeState.FilterNode :=
  TreeState.BooleanNode "g1" TreeState.AND
    [TreeState.Condition leafA; TreeState.Condition leafBlank].
Definition treeDropped : TreeState.FilterNode :=
  TreeState.BooleanNode "g0" TreeState.OR [innerDropped; TreeState.Condition leafC].

(** A non-root group [g1] inside the root group [g0]. *)
Definition innerOr : TreeState.FilterNode :=
  TreeState.BooleanNode "g1" TreeState.OR
    [TreeState.Condition leafA; TreeState.Condition leafB].
Definition treeNested : TreeState.FilterNode :=
  TreeState.BooleanNode "g0" TreeState.AND [innerOr; TreeState.Condition leafC].

(** Identifiers in the style of [generateId]. *)
Definition sampleId (k : nat) : string := "filter_" +++ natDigits (N.of_nat k).

Definition partialD : TreeState.PartialFilter :=
  TreeState.mkPartial "bytes" "is" (JStr "42") EmptyString JUndefined
                      EmptyString JUndefined.

(** A condition on [bytes] whose value is the number 0. *)
Definition partialZero : TreeState.PartialFilter :=
  TreeState.mkPartial "bytes" "is" (JNum (Fin 0 0)) EmptyString JUndefined
                      EmptyString JUndefined.

(** A date condition that is not a [.keyword] field. *)
Definition dateLeaf := leaf "d" "@timestamp" "is" "2024-01-01".
Definition dateRow : FlatBar.Row := formRow "@timestamp" "is" "2024-01-01" EmptyString.
Definition dateLeafNot := leaf "d" "created_date" "is_not" "yesterday".
Definition dateRowNot : FlatBar.Row := formRow "created_date" "is_not" "yesterday" EmptyString.

(** An [is_not_one_of] condition. *)
Definition noneOfLeaf := leaf "n" "verb.keyword" "is_not_one_of" "GET,POST".
Definition noneOfRow : FlatBar.Row :=
  formRow "verb.keyword" "is_not_one_of" "GET,POST" EmptyString.

(** Combined filters nested in a single-item group. *)
Definition plainA : Builder.Filter := Builder.Plain rowA.
Definition singleInner : Builder.Filter :=
  Builder.Combined TreeState.OR [Some plainA].
Definition singleOuter : Builder.Filter :=
  Builder.Combined TreeState.AND [Some singleInner].
Definition emptyPair : Builder.Filter :=
  Builder.Combined TreeState.AND
    [Some (Builder.Combined TreeState.OR []);
     Some (Builder.Combined TreeState.OR [])].

Definition rangeRow (minValue maxValue : JsVal) : FlatBar.Row :=
  FlatBar.mkRow "bytes" "range" (JStr EmptyString) EmptyString "gte" minValue "lt" maxValue.

End Samples.

(* ===================================================================== *)
(** ** The expression tree: the other edits and the lookups *)
(* ===================================================================== *)

Module TreeEdits.

Import TreeState.

(** The [Partial<FilterCondition>] argument of [modifyFilter]: the
    properties it carries.  ([logic] and [meta], which the service never
    reads, are left out, as in [FilterCondition].) *)
Record Updates : Type := mkUpdates {
  uId : option string;
  uField : option string;
  uOperator : option string;
  uValue : option JsVal;
  uMinOperator : option string;
  uMinValue : option JsVal;
  uMaxOperator : option string;
  uMaxValue : option JsVal
}.

Definition over {A} (update : option A) (old : A) : A :=
  match update with
  | Some new => new
  | None => old
  end.

(** [{ ...node, ...updates }] *)
Definition merge (node : FilterCondition) (updates : Updates) : FilterCondition :=
  mkCond (over (uId updates) (id node))
         (over (uField updates) (field node))
         (over (uOperator updates) (operator node))
         (over (uValue updates) (value node))
         (over (uMinOperator updates) (minOperator node))
         (over (uMinValue updates) (minValue node))
         (over (uMaxOperator updates) (maxOperator node))
         (over (uMaxValue updates) (maxValue node)).

(** [modifyFilterRecursive]; [operator] is [None] for [null]. *)
Fixpoint modifyFilterRecursive (nodeId : string) (operator : option Relation)
         (updates : Updates) (node : FilterNode) : FilterNode :=
  match node with
  | Condition c =>
      if String.eqb (id c) nodeId then Condition (merge c updates) else node
  | BooleanNode i op children =>
      match (if String.eqb i nodeId then operator else None) with
      | Some newOperator => BooleanNode i newOperator children
      | None =>
          BooleanNode i op
            (map (modifyFilterRecursive nodeId operator updates) children)
      end
  end.

Definition modifyFilter (nodeId : string) (operator : option Relation)
           (updates : Updates) (s : State) : State :=
  match root (tree s) with
  | None => s
  | Some r =>
      mkState (mkTree (Some (modifyFilterRecursive nodeId operator updates r))
                      (treeId (tree s)))
              (drawn s)
  end.

Definition flip (op : Relation) : Relation :=
  match op with AND => OR | OR => AND end.

Fixpoint toggleOperatorRecursive (nodeId : string) (node : FilterNode) : FilterNode :=
  match node with
  | BooleanNode i op children =>
      if String.eqb i nodeId
      then BooleanNode i (flip op) children
      else BooleanNode i op (map (toggleOperatorRecursive nodeId) children)
  | Condition _ => node
  end.

Definition toggleOperator (nodeId : string) (s : State) : State :=
  match root (tree s) with
  | None => s
  | Some r =>
      mkState (mkTree (Some (toggleOperatorRecursive nodeId r)) (treeId (tree s)))
              (drawn s)
  end.

Definition findNodeById (nodeId : string) (s : State) : option FilterNode :=
  match root (tree s) with
  | None => None
  | Some r => findNodeByIdRecursive nodeId r
  end.

(** [getNodePathRecursive]: the array [path] is threaded through the calls;
    the result is the returned boolean with the array as the call leaves
    it. *)
Fixpoint getNodePathRecursive (nodeId : string) (node : FilterNode)
         (path : list string) : bool * list string :=
  if String.eqb (idOf node) nodeId then (true, path ++ [idOf node])
  else
    match node with
    | BooleanNode i _ children =>
        (fix each (l : list FilterNode) (path : list string)
           : bool * list string :=
           match l with
           | [] => (false, removelast path)
           | child :: rest =>
               let '(found, path') := getNodePathRecursive nodeId child path in
               if found then (true, path') else each rest path'
           end) children (path ++ [i])
    | Condition _ => (false, path)
    end.

Definition getNodePath (nodeId : string) (s : State) : list string :=
  match root (tree s) with
  | None => []
  | Some r => snd (getNodePathRecursive nodeId r [])
  end.

(** [reset] *)
Definition reset (genId : nat -> string) (s : State) : State :=
  mkState (mkTree None (genId (drawn s))) (S (drawn s)).

(** Identifiers met from [node] down the child positions of [path], the
    node reached included. *)
Fixpoint idsAlong (path : list nat) (node : FilterNode) : list string :=
  idOf node ::
  match path with
  | [] => []
  | k :: rest =>
      match node with
      | BooleanNode _ _ children =>
          match nth_error children k with
          | Some child => idsAlong rest child
          | None => []
          end
      | Condition _ => []
      end
  end.

(** The first result of [f] over a list, as the [for ... of] loop of
    [findNodeByIdRecursive] returns it. *)
Fixpoint firstSome {A B} (f : A -> option B) (l : list A) : option B :=
  match l with
  | [] => None
  | x :: rest =>
      match f x with
      | Some found => Some found
      | None => firstSome f rest
      end
  end.

(** The loop over the children of [getNodePathRecursive], ending with the
    [pop]. *)
Fixpoint eachChild (f : FilterNode -> list string -> bool * list string)
         (l : list FilterNode) (path : list string) : bool * list string :=
  match l with
  | [] => (false, removelast path)
  | child :: rest =>
      let '(found, path') := f child path in
      if found then (true, path') else eachChild f rest path'
  end.

(** What the two lookups return below one node: nothing, with the path left
    as it was, when the identifier is absent; otherwise the same node, the
    path extended by the identifiers met on the way down to it. *)
Definition lookupsAgree (nodeId : string) (node : FilterNode) : Prop :=
  forall path,
  (~ In nodeId (TreeShape.nodeIds node) ->
   getNodePathRecursive nodeId node path = (false, path) /\
   findNodeByIdRecursive nodeId node = None) /\
  (In nodeId (TreeShape.nodeIds node) ->
   exists p n,
     TreeShape.subtree p node = Some n /\ idOf n = nodeId /\
     getNodePathRecursive nodeId node path = (true, path ++ idsAlong p node) /\
     findNodeByIdRecursive nodeId node = Some n).

(** A compiled query as its parent group sees it: [None] when the parent
    filters it out. *)
Definition kept (query : JsVal) : option JsVal :=
  if survives query then Some query else None.

(** [onRangeValueChange] of [FilterNodeComponent] on the service: an
    argument that is [undefined] ([None]) is left out of the [updates]. *)
Definition onRangeValueChange (node : FilterNode)
           (minValue maxValue : option JsVal)
           (minOperator maxOperator : option string) (s : State) : State :=
  modifyFilter (idOf node) None
    (mkUpdates None None None None minOperator minValue maxOperator maxValue) s.


(** A state over the sample tree, and an update of the value alone. *)
Definition sampleState : State :=
  mkState (mkTree (Some Samples.treeNested) "tree") 0.

(** The state the service starts in: no root. *)
Definition emptyState : State :=
  mkState (mkTree None "tree") 0.

Definition valueUpdate : Updates :=
  mkUpdates None None None (Some (JStr "web02")) None None None None.

End TreeEdits.

(* ===================================================================== *)
(** ** The flat filter bar: validity checks, markup preview, and the fold
    the compiler and the previews are compared with *)
(* ===================================================================== *)

Module FlatMore.

Import FlatBar.

(** The [operators] of the operator selector, as (label, value). *)
Definition operators : list (string * string) :=
  [ ("is", "is"); ("is not", "is_not"); ("is one of", "is_one_of");
    ("is not one of", "is_not_one_of"); ("exists", "exists");
    ("does not exist", "does_not_exist"); ("range", "range");
    ("prefix", "prefix"); ("wildcard", "wildcard");
    ("query_string", "query_string") ].

Definition operatorValues : list string := map snd operators.

(** [isFilterValid(index)] on the row at that index. *)
Definition isFilterValid (filter : Row) : bool :=
  if String.eqb (field filter) EmptyString || String.eqb (operator filter) EmptyString
  then false
  else
    let normalizedOperator := normalizeOperator (operator filter) in
    if String.eqb normalizedOperator "exists" ||
       String.eqb normalizedOperator "does_not_exist" then true
    else if String.eqb normalizedOperator "range" then
      truthy (orElse (minValue filter) (maxValue filter))
    else if String.eqb normalizedOperator "prefix" then truthy (value filter)
    else if String.eqb normalizedOperator "wildcard" then truthy (value filter)
    else if String.eqb normalizedOperator "query_string" then truthy (value filter)
    else truthy (value filter).

(** The callback of [filterArray.filter(...)] in [applyFilters]. *)
Definition validFilter (f : Row) : bool :=
  if String.eqb (field f) EmptyString || String.eqb (operator f) EmptyString
  then false
  else
    let normalizedOperator := normalizeOperator (operator f) in
    if String.eqb normalizedOperator "exists" ||
       String.eqb normalizedOperator "does_not_exist" then true
    else if String.eqb normalizedOperator "range" then
      truthy (orElse (minValue f) (maxValue f))
    else if String.eqb normalizedOperator "prefix" then truthy (value f)
    else if String.eqb normalizedOperator "wildcard" then truthy (value f)
    else if String.eqb normalizedOperator "query_string" then truthy (value f)
    else truthy (value f).

(** [canAddFilter()] *)
Definition canAddFilter (filters : list Row) : bool :=
  (0 <? List.length filters) && forallb isFilterValid filters.

(** *** Markup preview *)

Section Html.

(** [escapeHtml] goes through the DOM ([textContent] in, [innerHTML] out):
    it is a parameter. *)
Variable escapeHtml : string -> string.

(** [<span class="cls">body</span>] *)
Definition span (cls body : string) : string :=
  "<span class=" +++ dquote +++ cls +++ dquote +++ ">" +++ body +++ "</span>".

Definition exprHtml (e : FilterExpr) : string :=
  if hasNot e
  then span "preview-not" "NOT" +++ " " +++ span "preview-field" (escapeHtml (text e))
  else span "preview-field" (escapeHtml (text e)).

(** The [parts] array of the same-relation branch. *)
Fixpoint sameHtmlParts (idx : nat) (operators : list (option string))
         (filters : list FilterExpr) : list string :=
  match filters with
  | [] => []
  | f :: rest =>
      (if 0 <? idx
       then [" " +++ span "preview-operator" (opText (nth idx operators None)) +++ " "]
       else [])
        ++ exprHtml f :: sameHtmlParts (S idx) operators rest
  end.

(** [for (let i = k - 1; i >= 0; i--)] of [buildNestedPreviewHtml]. *)
Fixpoint htmlLoop (filters : list FilterExpr) (operators : list (option string))
         (k : nat) (result : string) : string :=
  match k with
  | O => result
  | S i =>
      let currentOp := nth (i + 1) operators None in
      let currentFilterHtml :=
        match nth_error filters i with Some f => exprHtml f | None => EmptyString end in
      let needsParens := needsNestingAt (List.length filters) operators i in
      htmlLoop filters operators i
        (currentFilterHtml +++ " " +++ span "preview-operator" (opText currentOp)
         +++ " " +++
         (if needsParens then span "preview-group" ("(" +++ result +++ ")")
          else result))
  end.

Definition buildNestedPreviewHtml (filters : list FilterExpr)
           (operators : list (option string)) : Completion string :=
  match filters with
  | [f] => Normal (exprHtml f)
  | _ =>
      let n := List.length filters in
      match nth_error filters (n - 1) with
      | None =>
          Throw "TypeError: Cannot read properties of undefined (reading 'hasNot')"
      | Some last => Normal (htmlLoop filters operators (n - 1) (exprHtml last))
      end
  end.

Definition buildKibanaPreviewHtml (filters : list FilterExpr) : Completion string :=
  match filters with
  | [] => Normal EmptyString
  | [f] => Normal (exprHtml f)
  | _ =>
      let operators := operatorsOf exprLogic filters in
      let allOperators := tl operators in
      let allSame := everySame allOperators in
      if allSame then Normal (join EmptyString (sameHtmlParts 0 operators filters))
      else buildNestedPreviewHtml filters operators
  end.

(** The markup that [updatePreview] hands to the sanitizer. *)
Definition updatePreviewHtml (filterArray : list Row) : Completion string :=
  match filterArray with
  | [] => Normal EmptyString
  | _ :: _ =>
      match collectExprs 0 filterArray with
      | [] => Normal EmptyString
      | filterExpressions => buildKibanaPreviewHtml filterExpressions
      end
  end.

End Html.

(** *** The right-to-left fold *)

Section Fold.

Variables A R : Type.
(** How a single element, a group under a relation, and a group nested in
    another group are rendered. *)
Variable leaf : A -> R.
Variable group : string -> list R -> R.
Variable nest : R -> R.

(** Members of the group headed by [a], joined to [b] by [op]: while the
    next relation is the same the group goes on; where it changes, the rest
    is one nested member. *)
Fixpoint groupOf (a : A) (op : string) (b : A) (rest : list (string * A))
  : list R :=
  match rest with
  | [] => [leaf a; leaf b]
  | (op2, c) :: rest' =>
      if String.eqb op2 op
      then leaf a :: groupOf b op2 c rest'
      else [leaf a; nest (group op2 (groupOf b op2 c rest'))]
  end.

(** The fold of [a] followed by the elements of [rest], each with the
    relation that ties it to the element before it. *)
Definition assocFold (a : A) (rest : list (string * A)) : R :=
  match rest with
  | [] => leaf a
  | (op, b) :: rest' => group op (groupOf a op b rest')
  end.

(** The loop shared by the compiler and the previews, over its body
    [step currentOp needsNesting current result]. *)
Fixpoint stepLoop (step : option string -> bool -> A -> R -> R) (none : A)
         (items : list A) (operators : list (option string))
         (k : nat) (result : R) : R :=
  match k with
  | O => result
  | S i =>
      stepLoop step none items operators i
        (step (nth (i + 1) operators None)
              (needsNestingAt (List.length items) operators i)
              (nth i items none) result)
  end.

End Fold.

Arguments groupOf {A R} leaf group nest a op b rest.
Arguments assocFold {A R} leaf group nest a rest.
Arguments stepLoop {A R} step none items operators k result.

(** The elements and the [operators] array of an element followed by
    tagged elements. *)
Definition foldItems {A} (a : A) (rest : list (string * A)) : list A :=
  a :: map snd rest.

Definition foldTags {A} (rest : list (string * A)) : list (option string) :=
  None :: map (fun p => Some (fst p)) rest.

(** The [parts] array of a same-relation branch, over the piece for a
    relation and the piece for an element. *)
Fixpoint partsWith (opPiece : option string -> string)
         (piece : FilterExpr -> string) (idx : nat)
         (operators : list (option string)) (filters : list FilterExpr)
  : list string :=
  match filters with
  | [] => []
  | f :: rest =>
      (if 0 <? idx then [opPiece (nth idx operators None)] else [])
        ++ piece f :: partsWith opPiece piece (S idx) operators rest
  end.

(** The body of the preview loop. *)
Definition textStep (currentOp : option string) (needsParens : bool)
           (currentFilterText result : string) : string :=
  currentFilterText +++ " " +++ opText currentOp +++ " " +++
  (if needsParens then "(" +++ result +++ ")" else result).

(** The body of the markup loop. *)
Definition htmlStep (currentOp : option string) (needsParens : bool)
           (currentFilterHtml result : string) : string :=
  currentFilterHtml +++ " " +++ span "preview-operator" (opText currentOp)
  +++ " " +++
  (if needsParens then span "preview-group" ("(" +++ result +++ ")")
   else result).

(** The three renderings. *)
Definition docGroup (op : string) (members : list JsVal) : JsVal :=
  if String.eqb op "OR" then boolShould members else boolMust members.

Definition docFold : JsVal -> list (string * JsVal) -> JsVal :=
  assocFold (fun q => q) docGroup (fun q => q).

Definition textGroup (op : string) (members : list string) : string :=
  join (" " +++ op +++ " ") members.

Definition textFold : string -> list (string * string) -> string :=
  assocFold (fun t => t) textGroup (fun t => "(" +++ t +++ ")").

Definition htmlGroup (op : string) (members : list string) : string :=
  join (" " +++ span "preview-operator" op +++ " ") members.

Definition htmlFold : string -> list (string * string) -> string :=
  assocFold (fun t => t) htmlGroup (fun t => span "preview-group" ("(" +++ t +++ ")")).

(** The relation tags of the compiled rows and of the previewed rows, the
    first one left out. *)
Definition queryTags (queries : list Entry) : list string :=
  map (fun e => strOr (entryLogic e) "AND") (tl queries).

Definition exprTags (filters : list FilterExpr) : list string :=
  map (fun f => strOr (exprLogic f) "AND") (tl filters).

(** A row that has a field and an operator. *)
Definition filled (row : Row) : bool :=
  negb (String.eqb (field row) EmptyString) &&
  negb (String.eqb (operator row) EmptyString).

(** A bound that the [range] case writes into its [rangeQuery] object: a
    truthy value, under an operator name other than [__proto__]. *)
Definition writesBound (operator fallback : string) (value : JsVal) : bool :=
  truthy value && negb (String.eqb (strOr operator fallback) "__proto__").

Definition writesRange (row : Row) : bool :=
  writesBound (minOperator row) "gt" (minValue row) ||
  writesBound (maxOperator row) "lt" (maxValue row).

(** A row that is left out of the preview, or for which the compiler
    builds a clause. *)
Definition compiles (row : Row) : bool :=
  negb (filled row) ||
  match rowQuery row with Some _ => true | None => false end.

End FlatMore.

(* ===================================================================== *)
(** ** The Node service, continued *)
(* ===================================================================== *)

Module BackendMore.

Import Backend.

(** [logic === 'OR' || logic === 'or'] for [logic = filter.logic || 'AND'] *)
Definition joinsGroup (filter : Filter) : bool :=
  oneOf (strOr (logic filter) "AND") ["OR"; "or"].

(** The filter at [index] pushes its query onto [currentGroup] even when
    that group is empty: it has a field and an operator, [compile] (the
    [switch] on the operator) builds a query for it, and it is the filter
    at index 0 or an OR filter. *)
Definition grouped (compile : Filter -> option JsVal) (index : nat)
           (filter : Filter) : bool :=
  negb (String.eqb (field filter) EmptyString ||
        String.eqb (operator filter) EmptyString) &&
  match compile filter with Some _ => true | None => false end &&
  ((index =? 0) || joinsGroup filter).

(** Some filter of the array, [index] being the index of the first. *)
Fixpoint anyGrouped (compile : Filter -> option JsVal) (index : nat)
         (filters : list Filter) : bool :=
  match filters with
  | [] => false
  | filter :: rest =>
      grouped compile index filter || anyGrouped compile (S index) rest
  end.

(** [queryDSLToElasticsearchBody(queryDSL)] *)
Definition queryDSLToElasticsearchBody (queryDSL : JsVal) : JsVal :=
  if negb (truthy queryDSL) || negb (truthy (prop queryDSL "query"))
  then obj1 "query" matchAll
  else obj1 "query" (prop queryDSL "query").

End BackendMore.

(* ===================================================================== *)
(** ** The builder service, continued: [flattenFilters] *)
(* ===================================================================== *)

Module BuilderMore.

Import Builder.

(** One round of the [for ... of] loop of [flatten], on the [result] array:
    a combined filter hands its params to [flatten], any other filter is
    pushed.  An [undefined] entry of a params array makes
    [isCombinedFilter] read [meta] of [undefined]. *)
Fixpoint flattenInto (filter : Filter) (result : list Filter)
  : Completion (list Filter) :=
  match filter with
  | Plain _ => Normal (result ++ [filter])
  | Combined _ params =>
      (fix flatten (filterList : list (option Filter)) (result : list Filter)
         : Completion (list Filter) :=
         match filterList with
         | [] => Normal result
         | None :: _ =>
             Throw "TypeError: Cannot read properties of undefined (reading 'meta')"
         | Some f :: rest =>
             match flattenInto f result with
             | Normal result' => flatten rest result'
             | Throw e => Throw e
             end
         end) params result
  end.

(** [flatten(filterList)] *)
Fixpoint flatten (filterList : list (option Filter)) (result : list Filter)
  : Completion (list Filter) :=
  match filterList with
  | [] => Normal result
  | None :: _ =>
      Throw "TypeError: Cannot read properties of undefined (reading 'meta')"
  | Some f :: rest =>
      match flattenInto f result with
      | Normal result' => flatten rest result'
      | Throw e => Throw e
      end
  end.

(** [flattenFilters(filters)] *)
Definition flattenFilters (filters : list Filter) : Completion (list Filter) :=
  flatten (map Some filters) [].

(** What normalizing does to the filters pushed by [flatten], for one
    filter. *)
Definition keepsLeaves (f : Filter) : Prop :=
  forall result l,
  flattenInto f result = Normal l ->
  match normalizeRecursively f with
  | Some n => flattenInto n result = Normal l
  | None => l = result
  end.

End BuilderMore.

(* ===================================================================== *)
(** ** The dashboard wrapper: [DashboardFilterWrapperComponent] *)
(* ===================================================================== *)

Module Wrapper.

Import FlatBar.

Definition operatorMap : list (string * string) :=
  [ ("is", "is"); ("isNot", "is_not"); ("is_not", "is_not");
    ("terms", "is_one_of"); ("is_one_of", "is_one_of");
    ("notTerms", "is_not_one_of"); ("is_not_one_of", "is_not_one_of");
    ("exists", "exists"); ("notExists", "does_not_exist");
    ("does_not_exist", "does_not_exist") ].

(** [operatorMap[operator] || operator] *)
Definition normalizeOperator (op : string) : string :=
  match assoc op operatorMap with
  | Some v => v
  | None => op
  end.

(** The [switch] of the [forEach] callback of [generateQueryDSLFromFilters]:
    the clause of one filter, or [None] in the [default] case. *)
Definition filterQuery (filter : Row) : option JsVal :=
  let isKeyword := endsWith (field filter) ".keyword" in
  let normalizedOperator := normalizeOperator (operator filter) in
  let f := field filter in
  let v := value filter in
  if String.eqb normalizedOperator "is" then
    if isKeyword then Some (obj1 "term" (obj1 f v))
    else Some (obj1 "match" (obj1 f v))
  else if String.eqb normalizedOperator "is_not" then
    if isKeyword then Some (mustNot (obj1 "term" (obj1 f v)))
    else Some (mustNot (obj1 "match" (obj1 f v)))
  else if String.eqb normalizedOperator "is_one_of" then
    Some (obj1 "terms" (obj1 f (arrayOf v)))
  else if String.eqb normalizedOperator "is_not_one_of" then
    Some (mustNot (obj1 "terms" (obj1 f (arrayOf v))))
  else if String.eqb normalizedOperator "exists" then
    Some (obj1 "exists" (obj1 "field" (JStr f)))
  else if String.eqb normalizedOperator "does_not_exist" then
    Some (mustNot (obj1 "exists" (obj1 "field" (JStr f))))
  else None.

(** The [forEach] over the filters, on the pair
    [(mustQueries, shouldQueries)]. *)
Fixpoint bucketLoop (index : nat) (filters : list Row)
         (mustQueries shouldQueries : list JsVal) : list JsVal * list JsVal :=
  match filters with
  | [] => (mustQueries, shouldQueries)
  | filter :: rest =>
      if String.eqb (field filter) EmptyString ||
         String.eqb (operator filter) EmptyString
      then bucketLoop (S index) rest mustQueries shouldQueries
      else
        match filterQuery filter with
        | None => bucketLoop (S index) rest mustQueries shouldQueries
        | Some query =>
            if index =? 0 then
              bucketLoop (S index) rest (mustQueries ++ [query]) shouldQueries
            else if String.eqb (strOr (logic filter) "AND") "AND" then
              bucketLoop (S index) rest (mustQueries ++ [query]) shouldQueries
            else
              bucketLoop (S index) rest mustQueries (shouldQueries ++ [query])
        end
  end.

(** [generateQueryDSLFromFilters()]: the document stored in
    [activeFilters.queryDSL] for the filters of [activeFilters]. *)
Definition generateQueryDSLFromFilters (filters : list Row) : JsVal :=
  let '(mustQueries, shouldQueries) := bucketLoop 0 filters [] [] in
  let boolQuery :=
    (if 0 <? List.length mustQueries then [("must", JArr mustQueries)] else [])
    ++ (if 0 <? List.length shouldQueries
        then [("should", JArr shouldQueries);
              ("minimum_should_match", JNum (Fin 1 0))]
        else []) in
  obj1 "query" (obj1 "bool" (JObj boolQuery)).

End Wrapper.

(* ===================================================================== *)
(** ** Properties of the expression tree *)
(* ===================================================================== *)

Module TreeProps.

Import TreeState TreeShape.

(** Induction over a tree with the hypothesis available for every child. *)
Lemma FilterNode_forall_ind (P : FilterNode -> Prop) :
  (forall c, P (Condition c)) ->
  (forall i op children, Forall P children -> P (BooleanNode i op children)) ->
  forall node, P node.
Proof.
  intros Hleaf Hgroup.
  fix IH 1.
  intros [c | i op children].
  - apply Hleaf.
  - apply Hgroup.
    induction children as [| child rest IHrest].
    + constructor.
    + constructor; [apply IH | exact IHrest].
Qed.

Lemma keepNodes_cons_some (x : FilterNode) (l : list (option FilterNode)) :
  keepNodes (Some x :: l) = x :: keepNodes l.
Proof. reflexivity. Qed.

Lemma keepNodes_cons_none (l : list (option FilterNode)) :
  keepNodes (None :: l) = keepNodes l.
Proof. reflexivity. Qed.

(** Children that each normalize to a well-grouped node (or vanish) leave
    only well-grouped nodes. *)
Lemma keepNodes_all_ok (f : FilterNode -> option FilterNode) children :
  Forall (fun c => forall m, f c = Some m -> groupsOk m = true) children ->
  forallb groupsOk (keepNodes (map f children)) = true.
Proof.
  induction 1 as [| c rest Hc _ IHrest]; cbn [map].
  - reflexivity.
  - destruct (f c) as [m |] eqn:E.
    + rewrite keepNodes_cons_some. cbn [forallb].
      rewrite (Hc m eq_refl). exact IHrest.
    + rewrite keepNodes_cons_none. exact IHrest.
Qed.

Lemma collapse_ok i op kept m :
  forallb groupsOk kept = true ->
  collapse i op kept = Some m -> groupsOk m = true.
Proof.
  intros Hall Hc.
  destruct kept as [| a [| b rest]]; simpl in Hc.
  - discriminate.
  - injection Hc as <-. simpl in Hall.
    apply andb_true_iff in Hall. tauto.
  - injection Hc as <-. simpl. simpl in Hall. exact Hall.
Qed.

Lemma normalizeNode'_unfold i op children :
  normalizeNode' (BooleanNode i op children)
  = collapse i op (keepNodes (map normalizeNode' children)).
Proof. reflexivity. Qed.

Lemma removeFilterRecursive_unfold nodeId i op children :
  removeFilterRecursive nodeId (BooleanNode i op children)
  = collapse i op (keepNodes (map (removeFilterRecursive nodeId) children)).
Proof. reflexivity. Qed.

(** Closure: whatever [normalizeNode] returns is well grouped. *)
Lemma normalizeNode'_closed node :
  forall m, normalizeNode' node = Some m -> groupsOk m = true.
Proof.
  induction node as [c | i op children IH] using FilterNode_forall_ind; intros m Hm.
  - simpl in Hm. injection Hm as <-. reflexivity.
  - rewrite normalizeNode'_unfold in Hm.
    eapply collapse_ok; [| exact Hm].
    apply keepNodes_all_ok. exact IH.
Qed.

Lemma keepNodes_fixed (f : FilterNode -> option FilterNode) children :
  Forall (fun c => f c = Some c) children ->
  keepNodes (map f children) = children.
Proof.
  induction 1 as [| c rest Hc _ IHrest]; cbn [map].
  - reflexivity.
  - rewrite Hc, keepNodes_cons_some, IHrest. reflexivity.
Qed.

(** A well-grouped tree is a fixed point of [normalizeNode]. *)
Lemma normalizeNode'_fixed node :
  groupsOk node = true -> normalizeNode' node = Some node.
Proof.
  induction node as [c | i op children IH] using FilterNode_forall_ind; intros Hok.
  - reflexivity.
  - simpl in Hok. apply andb_true_iff in Hok. destruct Hok as [Hlen Hall].
    rewrite normalizeNode'_unfold.
    rewrite keepNodes_fixed.
    + destruct children as [| a [| b rest]]; simpl in Hlen; try discriminate.
      reflexivity.
    + rewrite forallb_forall in Hall.
      rewrite Forall_forall in IH |- *.
      intros c Hin. apply IH; [exact Hin | apply Hall; exact Hin].
Qed.

(** Normalization of trees is closed and idempotent. *)
Lemma normalizeNode_closed (t : option FilterNode) :
  rootOk (normalizeNode t) = true.
Proof.
  destruct t as [n |]; simpl; [| reflexivity].
  destruct (normalizeNode' n) as [m |] eqn:E; simpl; [| reflexivity].
  eapply normalizeNode'_closed; exact E.
Qed.

Lemma normalizeNode_idempotent (t : option FilterNode) :
  normalizeNode (normalizeNode t) = normalizeNode t.
Proof.
  destruct t as [n |]; simpl; [| reflexivity].
  destruct (normalizeNode' n) as [m |] eqn:E; simpl; [| reflexivity].
  apply normalizeNode'_fixed. eapply normalizeNode'_closed; exact E.
Qed.

End TreeProps.

Module AddProps.

Import TreeState TreeShape.

Section Add.

Variable genId : nat -> string.
Variable parentNodeId : string.
Variable operator : Relation.
Variable newFilter : FilterCondition.

Let add := addFilterRecursive genId parentNodeId operator newFilter.

Lemma addFilterRecursive_group i op children k :
  String.eqb i parentNodeId = false ->
  add (BooleanNode i op children) k
  = (BooleanNode i op (fst (mapThread add children k)),
     snd (mapThread add children k)).
Proof.
  intros Hi. unfold add. cbn [addFilterRecursive]. rewrite Hi.
  fold add.
  match goal with
  | |- (let '(a, b) := ?m in _) = _ =>
      replace m with (mapThread add children k)
  end.
  - destruct (mapThread add children k); reflexivity.
  - clear Hi. revert k.
    induction children as [| c rest IH]; intros k; cbn [mapThread].
    + reflexivity.
    + destruct (add c k) as [c' k1]. rewrite IH. reflexivity.
Qed.

(** A subtree that does not hold the target identifier is returned as it
    is, and no identifier is drawn. *)
Lemma addFilterRecursive_absent node :
  forall k, ~ In parentNodeId (nodeIds node) -> add node k = (node, k).
Proof.
  induction node as [c | i op children IH] using TreeProps.FilterNode_forall_ind;
    intros k Hnot.
  - unfold add. cbn [addFilterRecursive].
    destruct (String.eqb (id c) parentNodeId) eqn:E.
    + apply String.eqb_eq in E. exfalso. apply Hnot. simpl. left. exact E.
    + reflexivity.
  - assert (Hi : String.eqb i parentNodeId = false).
    { apply String.eqb_neq. intros ->. apply Hnot. simpl. left. reflexivity. }
    rewrite addFilterRecursive_group by exact Hi.
    assert (Hmap : mapThread add children k = (children, k)).
    { assert (Hkids : ~ In parentNodeId (flat_map nodeIds children)).
      { intros Hin. apply Hnot. simpl. right. exact Hin. }
      clear Hnot Hi. revert k.
      induction IH as [| c rest Hc _ IHrest]; intros k; cbn [mapThread].
      - reflexivity.
      - cbn [flat_map] in Hkids.
        rewrite Hc by (intros Hin; apply Hkids, in_or_app; left; exact Hin).
        rewrite IHrest by (intros Hin; apply Hkids, in_or_app; right; exact Hin).
        reflexivity. }
    rewrite Hmap. reflexivity.
Qed.

Lemma mapThread_absent children :
  forall k, ~ In parentNodeId (flat_map nodeIds children) ->
  mapThread add children k = (children, k).
Proof.
  induction children as [| c rest IH]; intros k Hnot; cbn [mapThread].
  - reflexivity.
  - cbn [flat_map] in Hnot.
    rewrite addFilterRecursive_absent
      by (intros Hin; apply Hnot, in_or_app; left; exact Hin).
    rewrite IH by (intros Hin; apply Hnot, in_or_app; right; exact Hin).
    reflexivity.
Qed.

Lemma subtree_id_in path :
  forall node target,
  subtree path node = Some target -> In (idOf target) (nodeIds node).
Proof.
  induction path as [| j rest IH]; intros node target Hsub; cbn [subtree] in Hsub.
  - injection Hsub as <-. destruct node; simpl; left; reflexivity.
  - destruct node as [c | i op children]; [discriminate |].
    destruct (nth_error children j) as [child |] eqn:Hj; [| discriminate].
    simpl. right. apply in_flat_map. exists child. split.
    + eapply nth_error_In; exact Hj.
    + apply IH. exact Hsub.
Qed.

(** In a list without repetition, an element of the front part is not in
    the back part. *)
Lemma NoDup_app_disjoint {A} (l1 l2 : list A) x :
  NoDup (l1 ++ l2) -> In x l1 -> ~ In x l2.
Proof.
  induction l1 as [| a l1 IH]; cbn [app]; intros Hnd H1 H2.
  - destruct H1.
  - apply NoDup_cons_iff in Hnd. destruct Hnd as [Ha Hnd].
    destruct H1 as [-> | H1].
    + apply Ha, in_or_app. right. exact H2.
    + exact (IH Hnd H1 H2).
Qed.

(** With all identifiers distinct, only the child at position [j] can hold
    an identifier found below it: the threaded map rewrites that child
    alone. *)
Lemma mapThread_at children :
  forall j child k,
  NoDup (flat_map nodeIds children) ->
  nth_error children j = Some child ->
  In parentNodeId (nodeIds child) ->
  fst (mapThread add children k)
  = updateAt j (fun c => fst (add c k)) children.
Proof.
  induction children as [| c rest IH]; intros j child k Hnd Hj Hin.
  - destruct j; discriminate.
  - cbn [flat_map] in Hnd.
    destruct j as [| j']; cbn [nth_error] in Hj.
    + injection Hj as ->. cbn [mapThread updateAt].
      destruct (add child k) as [c' k1].
      rewrite mapThread_absent; [reflexivity |].
      exact (NoDup_app_disjoint _ _ _ Hnd Hin).
    + cbn [mapThread updateAt].
      assert (Hc : ~ In parentNodeId (nodeIds c)).
      { intros Hc. apply (NoDup_app_disjoint _ _ _ Hnd Hc).
        apply in_flat_map. exists child. split; [| exact Hin].
        eapply nth_error_In; exact Hj. }
      rewrite addFilterRecursive_absent by exact Hc.
      apply NoDup_app_remove_l in Hnd.
      specialize (IH j' child k Hnd Hj Hin).
      destruct (mapThread add rest k) as [rest' k2]. simpl in IH |- *.
      rewrite IH. reflexivity.
Qed.

Lemma updateAt_ext {A} (f g : A -> A) l :
  forall j x, nth_error l j = Some x -> f x = g x ->
  updateAt j f l = updateAt j g l.
Proof.
  induction l as [| a rest IH]; intros j x Hj Hfg.
  - destruct j; discriminate.
  - destruct j as [| j']; cbn [nth_error] in Hj; cbn [updateAt].
    + injection Hj as ->. rewrite Hfg. reflexivity.
    + erewrite IH; eauto.
Qed.

Lemma NoDup_child children :
  forall j child,
  NoDup (flat_map nodeIds children) ->
  nth_error children j = Some child -> NoDup (nodeIds child).
Proof.
  induction children as [| c rest IH]; intros j child Hnd Hj.
  - destruct j; discriminate.
  - cbn [flat_map] in Hnd. destruct j as [| j']; cbn [nth_error] in Hj.
    + injection Hj as ->. eapply NoDup_app_remove_r; exact Hnd.
    + apply (IH j'); [| exact Hj]. eapply NoDup_app_remove_l; exact Hnd.
Qed.

(** The recursive edit replaces the targeted subtree by its grown form and
    leaves every other node where it was. *)
Lemma addFilterRecursive_at_path path :
  forall node target k,
  NoDup (nodeIds node) ->
  subtree path node = Some target ->
  idOf target = parentNodeId ->
  fst (add node k)
  = replaceAt path (grown (genId k) operator newFilter target) node.
Proof.
  induction path as [| j rest IH]; intros node target k Hnd Hsub Hid.
  - cbn [subtree] in Hsub. injection Hsub as <-. cbn [replaceAt].
    unfold add. destruct node as [c | i op children]; cbn [idOf] in Hid;
      cbn [addFilterRecursive grown].
    + rewrite Hid, String.eqb_refl. reflexivity.
    + rewrite Hid, String.eqb_refl.
      destruct (relEq op operator); reflexivity.
  - cbn [subtree] in Hsub.
    destruct node as [c | i op children]; [discriminate |].
    destruct (nth_error children j) as [child |] eqn:Hj; [| discriminate].
    cbn [nodeIds] in Hnd. apply NoDup_cons_iff in Hnd. destruct Hnd as [Hi Hkids].
    assert (Hin : In parentNodeId (nodeIds child)).
    { rewrite <- Hid. eapply subtree_id_in. exact Hsub. }
    assert (Hne : String.eqb i parentNodeId = false).
    { apply String.eqb_neq. intros Heq. apply Hi. rewrite Heq.
      apply in_flat_map.
      exists child. split; [eapply nth_error_In; exact Hj | exact Hin]. }
    rewrite addFilterRecursive_group by exact Hne.
    cbn [fst replaceAt]. f_equal.
    rewrite (mapThread_at children j child k Hkids Hj Hin).
    eapply updateAt_ext; [exact Hj |].
    apply IH; [| exact Hsub | exact Hid].
    eapply NoDup_child; eauto.
Qed.

End Add.

End AddProps.

Module RemoveProps.

Import TreeState TreeShape.

Lemma leafIds_incl node : incl (leafIds node) (nodeIds node).
Proof.
  induction node as [c | i op children IH] using TreeProps.FilterNode_forall_ind.
  - apply incl_refl.
  - cbn [leafIds nodeIds]. apply incl_tl.
    induction IH as [| c rest Hc _ IHrest]; cbn [flat_map].
    + apply incl_refl.
    + apply incl_app; [apply incl_appl, Hc | apply incl_appr, IHrest].
Qed.

Lemma collapse_ids i op kept m :
  collapse i op kept = Some m ->
  incl (nodeIds m) (i :: flat_map nodeIds kept).
Proof.
  destruct kept as [| a [| b rest]]; cbn [collapse]; intros H.
  - discriminate.
  - injection H as <-. cbn [flat_map]. rewrite app_nil_r. apply incl_tl, incl_refl.
  - injection H as <-. apply incl_refl.
Qed.

Lemma kept_ids_incl (f : FilterNode -> option FilterNode) children :
  Forall (fun c => forall m, f c = Some m -> incl (nodeIds m) (nodeIds c)) children ->
  incl (flat_map nodeIds (keepNodes (map f children))) (flat_map nodeIds children).
Proof.
  induction 1 as [| c rest Hc _ IHrest]; cbn [map flat_map].
  - apply incl_refl.
  - destruct (f c) as [m |] eqn:E.
    + rewrite TreeProps.keepNodes_cons_some. cbn [flat_map].
      apply incl_app; [apply incl_appl, Hc; reflexivity | apply incl_appr, IHrest].
    + rewrite TreeProps.keepNodes_cons_none. apply incl_appr, IHrest.
Qed.

(** Neither edit invents identifiers. *)
Lemma removeFilterRecursive_ids nodeId node :
  forall m, removeFilterRecursive nodeId node = Some m ->
  incl (nodeIds m) (nodeIds node).
Proof.
  induction node as [c | i op children IH] using TreeProps.FilterNode_forall_ind;
    intros m Hm.
  - cbn [removeFilterRecursive] in Hm.
    destruct (String.eqb (id c) nodeId); [discriminate |].
    injection Hm as <-. apply incl_refl.
  - rewrite TreeProps.removeFilterRecursive_unfold in Hm.
    apply collapse_ids in Hm. cbn [nodeIds].
    eapply incl_tran; [exact Hm |].
    apply incl_cons; [left; reflexivity |].
    apply incl_tl, kept_ids_incl, IH.
Qed.

Lemma normalizeNode'_ids node :
  forall m, normalizeNode' node = Some m ->
  incl (nodeIds m) (nodeIds node).
Proof.
  induction node as [c | i op children IH] using TreeProps.FilterNode_forall_ind;
    intros m Hm.
  - cbn [normalizeNode'] in Hm. injection Hm as <-. apply incl_refl.
  - rewrite TreeProps.normalizeNode'_unfold in Hm.
    apply collapse_ids in Hm. cbn [nodeIds].
    eapply incl_tran; [exact Hm |].
    apply incl_cons; [left; reflexivity |].
    apply incl_tl, kept_ids_incl, IH.
Qed.

(** After the recursive removal of [nodeId], a subtree whose conditions
    include [nodeId], or that does not hold [nodeId] at all, holds it no
    more. *)
Lemma removeFilterRecursive_deletes nodeId node :
  NoDup (nodeIds node) ->
  In nodeId (leafIds node) \/ ~ In nodeId (nodeIds node) ->
  forall m, removeFilterRecursive nodeId node = Some m ->
  ~ In nodeId (nodeIds m).
Proof.
  induction node as [c | i op children IH] using TreeProps.FilterNode_forall_ind;
    intros Hnd Hcase m Hm.
  - cbn [removeFilterRecursive] in Hm.
    destruct (String.eqb (id c) nodeId) eqn:E; [discriminate |].
    injection Hm as <-. apply String.eqb_neq in E.
    cbn [nodeIds]. intros [H | []]. exact (E H).
  - cbn [nodeIds] in Hnd. apply NoDup_cons_iff in Hnd. destruct Hnd as [Hi Hkids].
    assert (Hne : i <> nodeId).
    { intros Heq. destruct Hcase as [Hleaf | Hnot].
      - apply Hi. rewrite Heq. cbn [leafIds] in Hleaf.
        apply in_flat_map in Hleaf. destruct Hleaf as [c [Hc Hin]].
        apply in_flat_map. exists c. split; [exact Hc |].
        apply leafIds_incl. exact Hin.
      - apply Hnot. cbn [nodeIds]. left. exact Heq. }
    rewrite TreeProps.removeFilterRecursive_unfold in Hm.
    apply collapse_ids in Hm. intros Hin. apply Hm in Hin.
    destruct Hin as [Hin | Hin]; [exact (Hne Hin) |].
    assert (Hcase' : In nodeId (flat_map leafIds children) \/
                     ~ In nodeId (flat_map nodeIds children)).
    { destruct Hcase as [H | H]; [left; exact H |].
      right. intros H'. apply H. cbn [nodeIds]. right. exact H'. }
    clear Hcase Hm Hi Hne.
    induction IH as [| c rest Hc _ IHrest]; cbn [map flat_map] in *.
    + destruct Hin.
    + pose proof (NoDup_app_remove_l _ _ Hkids) as Hrest.
      pose proof (NoDup_app_remove_r _ _ Hkids) as Hhead.
      assert (Hc_case : In nodeId (leafIds c) \/ ~ In nodeId (nodeIds c)).
      { destruct Hcase' as [H | H].
        - apply in_app_or in H. destruct H as [H | H]; [left; exact H |].
          right. intros Hc'.
          apply (AddProps.NoDup_app_disjoint _ _ nodeId Hkids Hc').
          apply in_flat_map in H. destruct H as [c' [Hc'' Hl]].
          apply in_flat_map. exists c'. split; [exact Hc'' |].
          apply leafIds_incl. exact Hl.
        - right. intros Hc'. apply H, in_or_app. left. exact Hc'. }
      assert (Hrest_case : In nodeId (flat_map leafIds rest) \/
                           ~ In nodeId (flat_map nodeIds rest)).
      { destruct Hcase' as [H | H].
        - apply in_app_or in H. destruct H as [H | H]; [| left; exact H].
          right. intros Hr.
          apply (AddProps.NoDup_app_disjoint _ _ nodeId Hkids); [| exact Hr].
          apply leafIds_incl. exact H.
        - right. intros Hr. apply H, in_or_app. right. exact Hr. }
      destruct (removeFilterRecursive nodeId c) as [m' |] eqn:E.
      * rewrite TreeProps.keepNodes_cons_some in Hin. cbn [flat_map] in Hin.
        apply in_app_or in Hin. destruct Hin as [Hin | Hin].
        -- exact (Hc Hhead Hc_case m' eq_refl Hin).
        -- exact (IHrest Hrest Hin Hrest_case).
      * rewrite TreeProps.keepNodes_cons_none in Hin.
        exact (IHrest Hrest Hin Hrest_case).
Qed.

End RemoveProps.

(* ===================================================================== *)
(** ** Properties of the flat filter bar *)
(* ===================================================================== *)

Module FlatProps.

Import FlatBar Samples.

(** Rows that all compile to nothing make the compiler read
    [queries[-1].query]. *)
Lemma generateQueryDSL_all_skipped filterArray :
  collectQueries 0 filterArray = [] ->
  generateQueryDSL filterArray
  = Throw "TypeError: Cannot read properties of undefined (reading 'query')".
Proof.
  intros H. unfold generateQueryDSL. rewrite H. reflexivity.
Qed.

(** As soon as one row compiles, the compiler returns a document under the
    [query] key. *)
Lemma generateQueryDSL_returns filterArray :
  collectQueries 0 filterArray <> [] ->
  exists q, generateQueryDSL filterArray = Normal (obj1 "query" q).
Proof.
  intros H. unfold generateQueryDSL.
  destruct (collectQueries 0 filterArray) as [| e rest] eqn:E; [contradiction |].
  set (queries := e :: rest).
  destruct (List.length queries =? 1); [eexists; reflexivity |].
  match goal with |- context [if ?b then _ else _] => destruct b end.
  - match goal with |- context [if ?b then _ else _] => destruct b end;
      eexists; reflexivity.
  - destruct (nth_error queries (List.length queries - 1)) eqn:En.
    + eexists; reflexivity.
    + exfalso. apply nth_error_None in En. subst queries. simpl in En. lia.
Qed.

(** The grouping of the preview of the example is the stated one: with no
    negation flag set, [buildKibanaPreview] gives the stated string. *)
Lemma buildKibanaPreview_groups_rightmost :
  buildKibanaPreview
    [mkExpr "host.keyword: web01" EmptyString false;
     mkExpr "status: 500" "AND" false;
     mkExpr "verb.keyword: GET,POST" "OR" false]
  = "host.keyword: web01 AND (status: 500 OR verb.keyword: GET,POST)".
Proof. vm_compute. reflexivity. Qed.

(** [updatePreview] sets the negation flag of the [is_not] row. *)
Lemma example_expressions :
  collectExprs 0 rowsABC
  = [mkExpr "host.keyword: web01" EmptyString false;
     mkExpr "status: 500" "AND" true;
     mkExpr "verb.keyword: GET,POST" "OR" false].
Proof. vm_compute. reflexivity. Qed.

(** C1 as stated does not hold: on the rows A, B, C the compiled document is
    the stated one, but the preview is not the stated string (the [is_not]
    row is rendered with its NOT prefix). *)
Lemma flat_example_as_stated_fails :
  ~ (generateQueryDSL rowsABC = Normal documentABC /\
     updatePreview rowsABC
     = "host.keyword: web01 AND (status: 500 OR verb.keyword: GET,POST)").
Proof.
  intros [_ H]. vm_compute in H. discriminate H.
Qed.

(** C1, amended: on the rows A = (is, host.keyword, web01),
    B = (is_not, status, 500), C = (is_one_of, verb.keyword, GET,POST) with
    relation tags empty, AND, OR, the flat compiler produces the document
    [{query:{bool:{must:[A', {bool:{should:[B', C'],
    minimum_should_match:1}}]}}}] with status coerced to the number 500, and
    the flat preview is
    [host.keyword: web01 AND (NOT status: 500 OR verb.keyword: GET,POST)]. *)
Theorem flat_example_document_and_preview :
  generateQueryDSL rowsABC = Normal documentABC /\
  updatePreview rowsABC
  = "host.keyword: web01 AND (NOT status: 500 OR verb.keyword: GET,POST)".
Proof.
  split; vm_compute; reflexivity.
Qed.

(** C4, at the failing inputs: on the empty list, on the untouched form (one
    blank row), on a row with an unknown operator and on a range row without
    bounds, [generateQueryDSL] raises a [TypeError] instead of producing a
    document. *)
Theorem flat_compiler_throws_when_nothing_compiles :
  let typeError :=
    Throw "TypeError: Cannot read properties of undefined (reading 'query')" in
  generateQueryDSL [] = typeError /\
  generateQueryDSL [blankRow] = typeError /\
  generateQueryDSL [formRow "status" "between" "1" EmptyString] = typeError /\
  generateQueryDSL [rangeRow (JStr EmptyString) (JStr EmptyString)] = typeError.
Proof.
  repeat split; vm_compute; reflexivity.
Qed.

End FlatProps.

(* ===================================================================== *)
(** ** Properties of the tree service *)
(* ===================================================================== *)

Module TreeClaims.

Import TreeState TreeShape Samples.

Lemma generateQueryDSLRecursive_group i op children :
  generateQueryDSLRecursive (BooleanNode i op children)
  = match survivors children with
    | [] => matchAll
    | [only] => only
    | _ => match op with
           | OR => boolShould (survivors children)
           | AND => boolMust (survivors children)
           end
    end.
Proof. reflexivity. Qed.

(** The preview of a group is assembled from the two parenthesization
    tests. *)
Lemma generatePreviewRecursive_group i op children parentOperator :
  generatePreviewRecursive (BooleanNode i op children) parentOperator
  = let joined :=
      join (" " +++ relText op +++ " ")
           (map (fun child =>
                   if wrapsChild op child
                   then "(" +++ generatePreviewRecursive child (Some op) +++ ")"
                   else generatePreviewRecursive child (Some op)) children) in
    if wrapsGroup parentOperator op then "(" +++ joined +++ ")" else joined.
Proof. reflexivity. Qed.

Lemma relEq_true_iff a b : relEq a b = true <-> a = b.
Proof. destruct a, b; simpl; split; congruence. Qed.

(** C2 as stated does not hold.  First tree: the child group [g1] has the
    relation of its parent; the preview shows no parenthesis at all while the
    compiler nests a [bool] for it.  Second tree: the child group [g1] has
    another relation and is parenthesized, but one of its children compiles
    to nothing and the compiler unwraps the group to a bare clause. *)
Lemma preview_parity_as_stated_fails :
  (generatePreviewRecursive treeSame None
   = "host.keyword: web01 AND verb.keyword: GET AND tags.keyword: prod" /\
   generateQueryDSLRecursive treeSame
   = boolMust [boolMust [termOf "host.keyword" "web01"; termOf "verb.keyword" "GET"];
               termOf "tags.keyword" "prod"] /\
   ~ (wrapsChild AND innerSame = true <->
      isGroupBool (generateQueryDSLRecursive innerSame) = true))
  /\
  (generatePreviewRecursive treeDropped None
   = "((host.keyword: web01 AND -: -)) OR tags.keyword: prod" /\
   generateQueryDSLRecursive treeDropped
   = boolShould [termOf "host.keyword" "web01"; termOf "tags.keyword" "prod"] /\
   ~ (wrapsChild OR innerDropped = true <->
      isGroupBool (generateQueryDSLRecursive innerDropped) = true)).
Proof.
  split; (split; [vm_compute; reflexivity | split; [vm_compute; reflexivity |]]).
  - intros [_ H]. specialize (H eq_refl). vm_compute in H. discriminate H.
  - intros [H _]. specialize (H eq_refl). vm_compute in H. discriminate H.
Qed.

Lemma close_twice (s : string) : (s +++ ")") +++ ")" = s +++ "))".
Proof. induction s as [| c s IH]; [reflexivity | simpl; rewrite IH; reflexivity]. Qed.

Lemma survivors_app (l1 l2 : list FilterNode) :
  survivors (l1 ++ l2) = survivors l1 ++ survivors l2.
Proof. unfold survivors. rewrite map_app, filter_app. reflexivity. Qed.

Lemma survivors_survive (children : list FilterNode) :
  Forall (fun q => survives q = true) (survivors children).
Proof.
  unfold survivors. apply Forall_forall. intros q Hq.
  apply filter_In in Hq. exact (proj2 Hq).
Qed.

Lemma survives_boolOf op qs : survives (boolOf op qs) = true.
Proof. destruct op; reflexivity. Qed.

(** What a child group leaves in the list of clauses its parent keeps. *)
Lemma survivors_group i r children :
  survivors [BooleanNode i r children]
  = match survivors children with
    | [] => []
    | [only] => [only]
    | _ => [boolOf r (survivors children)]
    end.
Proof.
  pose proof (survivors_survive children) as Hall.
  unfold survivors at 1. cbn [map filter].
  rewrite generateQueryDSLRecursive_group.
  destruct (survivors children) as [| a [| b rest]].
  - reflexivity.
  - inversion Hall as [| x l Ha _]. rewrite Ha. reflexivity.
  - change (match r with
            | OR => boolShould (a :: b :: rest)
            | AND => boolMust (a :: b :: rest)
            end) with (boolOf r (a :: b :: rest)).
    rewrite survives_boolOf. reflexivity.
Qed.

(** C2, amended: in a group of relation [p], take a child group of
    relation [r].  In the preview of the parent the text of the child
    stands bare when [r] is [p] and within two pairs of parentheses when it
    is not.  In the compiled document the clause for the child depends only
    on how many of the child's compiled children are kept: none, and
    nothing stands for the child; one, and that clause stands there as it
    is; two or more, and a [bool] over them stands there, whatever [r] and
    [p] are.  That [bool] is nested in the [bool] of the parent when a
    clause of a sibling is kept too; with no sibling kept it is the whole
    result of the parent. *)
Theorem preview_parentheses_and_compiled_nesting :
  forall (j : string) (p : Relation) (before after : list FilterNode)
         (i : string) (r : Relation) (children : list FilterNode)
         (parentOperator : option Relation),
  let child := BooleanNode i r children in
  let parent := BooleanNode j p (before ++ child :: after) in
  let shown := fun sibling =>
    if wrapsChild p sibling
    then "(" +++ generatePreviewRecursive sibling (Some p) +++ ")"
    else generatePreviewRecursive sibling (Some p) in
  let inner := generatePreviewRecursive child None in
  let kept := survivors children in
  generatePreviewRecursive parent parentOperator
  = (let joined :=
       join (" " +++ relText p +++ " ")
            (map shown before ++
             (if relEq r p then inner else "((" +++ inner +++ "))") ::
             map shown after) in
     if wrapsGroup parentOperator p then "(" +++ joined +++ ")" else joined) /\
  survivors (before ++ child :: after)
  = survivors before ++
    match kept with
    | [] => []
    | [only] => [only]
    | _ => [boolOf r kept]
    end ++ survivors after /\
  (2 <= List.length kept ->
   survivors before ++ survivors after <> [] ->
   generateQueryDSLRecursive parent
   = boolOf p (survivors before ++ boolOf r kept :: survivors after)) /\
  (2 <= List.length kept ->
   survivors before ++ survivors after = [] ->
   generateQueryDSLRecursive parent = boolOf r kept) /\
  (forall only,
   kept = [only] ->
   generateQueryDSLRecursive parent
   = match survivors before ++ only :: survivors after with
     | [one] => one
     | clauses => boolOf p clauses
     end) /\
  (kept = [] ->
   generateQueryDSLRecursive parent
   = match survivors before ++ survivors after with
     | [] => matchAll
     | [one] => one
     | clauses => boolOf p clauses
     end).
Proof.
  intros j p before after i r children parentOperator child parent shown inner kept.
  assert (Hkept : survivors (before ++ child :: after)
                  = survivors before ++
                    match kept with
                    | [] => []
                    | [only] => [only]
                    | _ => [boolOf r kept]
                    end ++ survivors after).
  { change (child :: after) with ([child] ++ after).
    rewrite !survivors_app. unfold child. rewrite survivors_group.
    reflexivity. }
  assert (Hdoc : generateQueryDSLRecursive parent
                 = match survivors (before ++ child :: after) with
                   | [] => matchAll
                   | [only] => only
                   | clauses => boolOf p clauses
                   end).
  { unfold parent. rewrite generateQueryDSLRecursive_group.
    destruct (survivors (before ++ child :: after)) as [| a [| b rest]];
      reflexivity. }
  split; [| split; [exact Hkept |]].
  - unfold parent. rewrite generatePreviewRecursive_group.
    cbv zeta. rewrite map_app. cbn [map].
    replace (if wrapsChild p child
             then "(" +++ generatePreviewRecursive child (Some p) +++ ")"
             else generatePreviewRecursive child (Some p))
      with (if relEq r p then inner else "((" +++ inner +++ "))");
      [reflexivity |].
    unfold inner, child. rewrite !generatePreviewRecursive_group.
    cbv zeta. cbn [wrapsChild wrapsGroup].
    destruct r, p; cbn [relEq negb]; try reflexivity;
      cbn [String.append]; rewrite close_twice; reflexivity.
  - rewrite Hdoc, Hkept. clear Hdoc Hkept.
    repeat split.
    + intros Hlen Hsib.
      destruct kept as [| a [| b rest]]; cbn [List.length] in Hlen; try lia.
      cbn [app].
      destruct (survivors before) as [| x xs]; cbn [app] in *.
      * destruct (survivors after) as [| y ys]; [contradiction | reflexivity].
      * destruct xs; reflexivity.
    + intros Hlen Hsib. apply app_eq_nil in Hsib. destruct Hsib as [Hb Ha].
      rewrite Hb, Ha.
      destruct kept as [| a [| b rest]]; cbn [List.length] in Hlen; try lia.
      reflexivity.
    + intros only Hone. rewrite Hone. cbn [app].
      destruct (survivors before) as [| x [| y ys]]; reflexivity.
    + intros Hnone. rewrite Hnone. cbn [app].
      destruct (survivors before ++ survivors after) as [| x [| y ys]];
        reflexivity.
Qed.

(** After [removeFilter], every group that remains has at least two
    children. *)
Lemma removeFilter_groups_ok genId nodeId s :
  root (tree s) <> None ->
  rootOk (root (tree (removeFilter genId nodeId s))) = true.
Proof.
  intros Hroot. unfold removeFilter.
  destruct (root (tree s)) as [r |] eqn:Er; [| contradiction].
  destruct (String.eqb (idOf r) nodeId); cbn [tree root].
  - reflexivity.
  - apply TreeProps.normalizeNode_closed.
Qed.

(** Removing a condition that is not the root: in a tree with distinct
    identifiers its identifier is gone from the tree that results. *)
Lemma removeFilter_deletes_condition genId nodeId s t :
  root (tree s) = Some t ->
  NoDup (nodeIds t) ->
  In nodeId (leafIds t) ->
  ~ In nodeId (rootIds (root (tree (removeFilter genId nodeId s)))).
Proof.
  intros Er Hnd Hleaf. unfold removeFilter. rewrite Er.
  destruct (String.eqb (idOf t) nodeId); cbn [tree root rootIds].
  - intros [].
  - destruct (removeFilterRecursive nodeId t) as [m |] eqn:Em;
      cbn [normalizeNode rootIds]; [| intros []].
    destruct (normalizeNode' m) as [m' |] eqn:Em'; cbn [rootIds]; [| intros []].
    intros Hin.
    apply (RemoveProps.removeFilterRecursive_deletes nodeId t Hnd (or_introl Hleaf) m Em).
    eapply RemoveProps.normalizeNode'_ids; eauto.
Qed.

(** Removing the root empties the tree, whatever kind of node it is. *)
Lemma removeFilter_root genId s r :
  root (tree s) = Some r ->
  root (tree (removeFilter genId (idOf r) s)) = None.
Proof.
  intros Er. unfold removeFilter. rewrite Er, String.eqb_refl. reflexivity.
Qed.

(** C5, at the failing input: in the tree [g0 = AND [g1 = OR [a, b], c]] the
    group [g1] is present and is not the root, yet [removeFilter "g1"]
    returns the state it was given: the group is not deleted. *)
Theorem removeFilter_keeps_inner_group :
  forall (genId : nat -> string) (k : nat),
  let s := mkState (mkTree (Some treeNested) "t") k in
  findNodeByIdRecursive "g1" treeNested = Some innerOr /\
  removeFilter genId "g1" s = s.
Proof.
  intros genId k s. split; reflexivity.
Qed.

(** The condition literal of [addFilter], field by field. *)
Lemma newCondition_fields newId filter :
  newCondition newId filter
  = mkCond newId (pField filter) (pOperator filter)
           (if truthy (pValue filter) then pValue filter else JStr EmptyString)
           (if String.eqb (pMinOperator filter) EmptyString
            then "gt" else pMinOperator filter)
           (if truthy (pMinValue filter) then pMinValue filter else JStr EmptyString)
           (if String.eqb (pMaxOperator filter) EmptyString
            then "lt" else pMaxOperator filter)
           (if truthy (pMaxValue filter) then pMaxValue filter else JStr EmptyString).
Proof.
  unfold newCondition, strOr, orElse.
  destruct (String.eqb (pField filter) EmptyString) eqn:Ef;
    [apply String.eqb_eq in Ef; rewrite Ef |];
    (destruct (String.eqb (pOperator filter) EmptyString) eqn:Eo;
     [apply String.eqb_eq in Eo; rewrite Eo |]); reflexivity.
Qed.

(** C6 as stated does not hold: the condition that [addFilter] puts into
    the tree is not the one it was given.  For a condition on [bytes] whose
    value is the number 0, the condition stored, as root of an empty tree
    or next to the targeted condition [a], has the empty string as its
    value; the value 0 is lost. *)
Lemma addFilter_inserts_c_as_stated_fails :
  pValue partialZero = JNum (Fin 0 0) /\
  root (tree (addFilter sampleId "a" AND partialZero
                        (mkState (mkTree None "t") 7)))
  = Some (Condition (mkCond "filter_7" "bytes" "is" (JStr EmptyString)
                            "gt" (JStr EmptyString) "lt" (JStr EmptyString))) /\
  root (tree (addFilter sampleId "a" AND partialZero
                        (mkState (mkTree (Some (Condition leafA)) "t") 7)))
  = Some (BooleanNode "filter_8" AND
            [Condition leafA;
             Condition (mkCond "filter_7" "bytes" "is" (JStr EmptyString)
                               "gt" (JStr EmptyString) "lt" (JStr EmptyString))]) /\
  JStr EmptyString <> pValue partialZero.
Proof.
  split; [reflexivity |]. split; [vm_compute; reflexivity |].
  split; [vm_compute; reflexivity | discriminate].
Qed.

(** C6, amended: [addFilter] inserts the condition [c] it builds from its
    argument: a newly drawn identifier, the field and the operator of the
    argument, its value and its two bounds where they are truthy and the
    empty string where they are not, its two bound operators or [gt] and
    [lt] where they are missing.  With that [c] the case analysis holds: on
    an empty tree [c] becomes the root; otherwise, in a tree whose
    identifiers are distinct, the node with the target identifier is
    replaced in place by its grown form, the rest of the tree unchanged: a
    condition becomes a new group of the requested relation over the
    condition and [c]; a group of the same relation gets [c] appended; a
    group of another relation becomes the first child, unchanged, of a new
    group of the requested relation whose second child is [c]. *)
Theorem addFilter_case_analysis :
  forall (genId : nat -> string) (parentId : string) (r : Relation)
         (filter : PartialFilter) (s : State),
  let c :=
    mkCond (genId (drawn s)) (pField filter) (pOperator filter)
           (if truthy (pValue filter) then pValue filter else JStr EmptyString)
           (if String.eqb (pMinOperator filter) EmptyString
            then "gt" else pMinOperator filter)
           (if truthy (pMinValue filter) then pMinValue filter else JStr EmptyString)
           (if String.eqb (pMaxOperator filter) EmptyString
            then "lt" else pMaxOperator filter)
           (if truthy (pMaxValue filter) then pMaxValue filter else JStr EmptyString) in
  let fresh := genId (S (drawn s)) in
  (root (tree s) = None ->
   root (tree (addFilter genId parentId r filter s)) = Some (Condition c)) /\
  (forall t path target,
     root (tree s) = Some t ->
     NoDup (nodeIds t) ->
     subtree path t = Some target ->
     idOf target = parentId ->
     root (tree (addFilter genId parentId r filter s))
     = Some (replaceAt path (grown fresh r c target) t)) /\
  (forall old, grown fresh r c (Condition old)
               = BooleanNode fresh r [Condition old; Condition c]) /\
  (forall i children,
     grown fresh r c (BooleanNode i r children)
     = BooleanNode i r (children ++ [Condition c])) /\
  (forall i op children,
     op <> r ->
     grown fresh r c (BooleanNode i op children)
     = BooleanNode fresh r [BooleanNode i op children; Condition c]).
Proof.
  intros genId parentId r filter s c fresh.
  assert (Hc : newCondition (genId (drawn s)) filter = c)
    by apply newCondition_fields.
  repeat split.
  - intros Hroot. unfold addFilter, initializeWithFilter. rewrite Hroot.
    cbn [tree root]. rewrite Hc. reflexivity.
  - intros t path target Hroot Hnd Hsub Hid.
    unfold addFilter. rewrite Hroot. rewrite Hc.
    pose proof (AddProps.addFilterRecursive_at_path genId parentId r c path
                  t target (S (drawn s)) Hnd Hsub Hid) as H.
    destruct (addFilterRecursive genId parentId r c t (S (drawn s)))
      as [newRoot k'].
    cbn [fst] in H. cbn [tree root]. rewrite H. reflexivity.
  - intros i children. cbn [grown].
    replace (relEq r r) with true by (destruct r; reflexivity). reflexivity.
  - intros i op children Hne. cbn [grown].
    destruct (relEq op r) eqn:E; [| reflexivity].
    apply relEq_true_iff in E. contradiction.
Qed.

(** C6 at a concrete input: adding the condition [bytes is 42] under the
    inner OR group [g1] with relation AND wraps that group, in place, in a
    new AND group whose second child carries the field, the operator and
    the value that were passed. *)
Lemma addFilter_case_analysis_witness :
  let s := mkState (mkTree (Some treeNested) "t") 7 in
  NoDup (nodeIds treeNested) /\
  subtree [0] treeNested = Some innerOr /\
  root (tree (addFilter sampleId "g1" AND partialD s))
  = Some (BooleanNode "g0" AND
            [BooleanNode "filter_8" AND
               [innerOr;
                Condition (mkCond "filter_7" "bytes" "is" (JStr "42")
                                  "gt" (JStr EmptyString) "lt" (JStr EmptyString))];
             Condition leafC]).
Proof.
  intros s.
  assert (Hnd : NoDup (nodeIds treeNested)).
  { repeat (constructor; [simpl; intuition discriminate |]). constructor. }
  split; [exact Hnd |]. split; [reflexivity |].
  exact (proj1 (proj2 (addFilter_case_analysis sampleId "g1" AND partialD s))
           treeNested [0] innerOr eq_refl Hnd eq_refl eq_refl).
Defined.

End TreeClaims.

(* ===================================================================== *)
(** ** Properties of the compilers and previews *)
(* ===================================================================== *)

Module CompilerProps.

Import Samples.

(** The flat compiler treats a date field as exact for [is]. *)
Lemma flat_is_on_date_field_is_term (row : FlatBar.Row) :
  FlatBar.isDateField (FlatBar.field row) = true ->
  FlatBar.normalizeOperator (FlatBar.operator row) = "is" ->
  FlatBar.rowQuery row
  = Some (obj1 "term"
            (obj1 (FlatBar.field row)
                  (FlatBar.convertValue (FlatBar.isKeywordField (FlatBar.field row))
                                        (FlatBar.value row)))).
Proof.
  intros Hd Hop. unfold FlatBar.rowQuery. rewrite Hop, Hd.
  cbn [String.eqb Ascii.eqb Bool.eqb].
  rewrite orb_true_r. reflexivity.
Qed.

(** ... and for [is_not], under [must_not]. *)
Lemma flat_is_not_on_date_field_is_term (row : FlatBar.Row) :
  FlatBar.isDateField (FlatBar.field row) = true ->
  FlatBar.normalizeOperator (FlatBar.operator row) = "is_not" ->
  FlatBar.rowQuery row
  = Some (mustNot
            (obj1 "term"
               (obj1 (FlatBar.field row)
                     (FlatBar.convertValue (FlatBar.isKeywordField (FlatBar.field row))
                                           (FlatBar.value row))))).
Proof.
  intros Hd Hop. unfold FlatBar.rowQuery. rewrite Hop, Hd.
  cbn [String.eqb Ascii.eqb Bool.eqb].
  rewrite orb_true_r. reflexivity.
Qed.

(** C7, at the failing inputs: for [is] on [@timestamp] and for [is_not] on
    [created_date] (values that are not numbers, fields without the
    [.keyword] suffix) the flat compiler emits a [term] clause, while the
    tree compiler emits a [match] clause. *)
Theorem tree_compiler_matches_on_date_fields :
  FlatBar.generateQueryDSL [dateRow]
  = Normal (obj1 "query" (obj1 "term" (obj1 "@timestamp" (JStr "2024-01-01")))) /\
  TreeState.generateQueryDSL
    (TreeState.mkTree (Some (TreeState.Condition dateLeaf)) "t")
  = obj1 "match" (obj1 "@timestamp" (JStr "2024-01-01")) /\
  FlatBar.generateQueryDSL [dateRowNot]
  = Normal (obj1 "query"
              (mustNot (obj1 "term" (obj1 "created_date" (JStr "yesterday"))))) /\
  TreeState.generateQueryDSL
    (TreeState.mkTree (Some (TreeState.Condition dateLeafNot)) "t")
  = mustNot (obj1 "match" (obj1 "created_date" (JStr "yesterday"))).
Proof.
  repeat split; vm_compute; reflexivity.
Qed.

(** In the tree preview a leaf is its text, prefixed with NOT exactly for
    the three negated operators. *)
Lemma tree_leaf_preview (c : TreeState.FilterCondition) parentOperator :
  let body := strOr (TreeState.field c) "-" +++ ": "
              +++ toStr (orElse (TreeState.value c) (JStr "-")) in
  TreeState.generatePreviewRecursive (TreeState.Condition c) parentOperator
  = (if TreeState.isNegatedFilter c then "NOT " +++ body else body) /\
  (TreeState.isNegatedFilter c = true <->
   TreeState.operator c = "is_not" \/
   TreeState.operator c = "does_not_exist" \/
   TreeState.operator c = "is_not_one_of").
Proof.
  intros body. split; [reflexivity |].
  unfold TreeState.isNegatedFilter, strOr.
  destruct (String.eqb (TreeState.operator c) EmptyString) eqn:E.
  - apply String.eqb_eq in E. rewrite E. cbn. split.
    + discriminate.
    + intros [H | [H | H]]; discriminate H.
  - rewrite !orb_true_iff, !String.eqb_eq. tauto.
Qed.

(** In the flat preview the negation flag is set for [is_not] and
    [does_not_exist] (and their aliases) only. *)
Lemma flat_row_negation index (row : FlatBar.Row) :
  FlatBar.hasNot (FlatBar.rowExpr index row) = true <->
  FlatBar.normalizeOperator (FlatBar.operator row) = "is_not" \/
  FlatBar.normalizeOperator (FlatBar.operator row) = "does_not_exist".
Proof.
  unfold FlatBar.rowExpr.
  set (op := FlatBar.normalizeOperator (FlatBar.operator row)).
  destruct (String.eqb op "exists") eqn:E1.
  { apply String.eqb_eq in E1. rewrite E1. cbn. split;
      [discriminate | intros [H | H]; discriminate H]. }
  destruct (String.eqb op "does_not_exist") eqn:E2.
  { apply String.eqb_eq in E2. cbn. split; [intros _; right; exact E2 | reflexivity]. }
  apply String.eqb_neq in E2.
  destruct (String.eqb op "range") eqn:E3.
  { apply String.eqb_eq in E3.
    assert (Hf : forall e, FlatBar.hasNot
      (match e with
       | [] => FlatBar.mkExpr (FlatBar.field row +++ ": -")
                 (if 0 <? index then strOr (FlatBar.logic row) "AND" else EmptyString) false
       | _ :: _ => FlatBar.mkExpr (FlatBar.field row +++ ": " +++ join " and " e)
                 (if 0 <? index then strOr (FlatBar.logic row) "AND" else EmptyString) false
       end) = false) by (intros [| ? ?]; reflexivity).
    rewrite Hf. rewrite E3. split;
      [discriminate | intros [H | H]; discriminate H]. }
  destruct (String.eqb op "prefix") eqn:E4.
  { apply String.eqb_eq in E4. rewrite E4. cbn. split;
      [discriminate | intros [H | H]; discriminate H]. }
  destruct (String.eqb op "wildcard") eqn:E5.
  { apply String.eqb_eq in E5. rewrite E5. cbn. split;
      [discriminate | intros [H | H]; discriminate H]. }
  destruct (String.eqb op "query_string") eqn:E6.
  { apply String.eqb_eq in E6. rewrite E6. cbn. split;
      [discriminate | intros [H | H]; discriminate H]. }
  destruct (String.eqb op "is_not") eqn:E7.
  { apply String.eqb_eq in E7. cbn. split; [intros _; left; exact E7 | reflexivity]. }
  apply String.eqb_neq in E7.
  destruct (truthy (FlatBar.value row)); cbn; split;
    try discriminate; intros [H | H]; contradiction.
Qed.

(** C8, at the failing input: for the condition
    [(verb.keyword, is_not_one_of, GET,POST)] the tree preview is prefixed
    with NOT, the flat preview is not, although the flat compiler negates the
    clause. *)
Theorem flat_preview_omits_not_for_is_not_one_of :
  TreeState.generatePreview
    (TreeState.mkTree (Some (TreeState.Condition noneOfLeaf)) "t")
  = "NOT verb.keyword: GET,POST" /\
  FlatBar.updatePreview [noneOfRow] = "verb.keyword: GET,POST" /\
  FlatBar.generateQueryDSL [noneOfRow]
  = Normal (obj1 "query"
              (mustNot (obj1 "terms"
                          (obj1 "verb.keyword" (JArr [JStr "GET"; JStr "POST"]))))).
Proof.
  repeat split; vm_compute; reflexivity.
Qed.

(** C3 as stated does not hold for the tree compiler: the empty tree does
    not compile to a document with a top-level [query] key. *)
Lemma empty_tree_as_stated_fails :
  TreeState.generateQueryDSL (TreeState.mkTree None "t") <> queryMatchAll.
Proof.
  vm_compute. discriminate.
Qed.

Section WithBuilder.

Variable termQuery : string -> JsVal -> JsVal.
Variable matchQuery : string -> JsVal -> JsVal.
Variable termsQuery : string -> JsVal -> JsVal.
Variable existsQuery : string -> JsVal.
Variable rangeQuery : string -> JsVal -> JsVal.
Variable prefixQuery : string -> JsVal -> JsVal.
Variable wildcardQueryCI : string -> JsVal -> JsVal.
Variable queryStringQuery : JsVal -> string -> JsVal.
Variable boolMustNot : JsVal -> JsVal.
Variable boolQueryEmpty : JsVal.


Let backendBuild :=
  Backend.buildElasticsearchQuery
    termQuery matchQuery termsQuery existsQuery rangeQuery
    prefixQuery wildcardQueryCI queryStringQuery boolMustNot
    boolQueryEmpty.

Let skippedFilter :=
  Backend.skipped termQuery matchQuery termsQuery existsQuery rangeQuery
                  prefixQuery wildcardQueryCI queryStringQuery boolMustNot.

Lemma groupLoop_all_skipped filters :
  Forall skippedFilter filters ->
  forall index queryGroups currentGroup,
  Backend.groupLoop
    termQuery matchQuery termsQuery existsQuery rangeQuery
    prefixQuery wildcardQueryCI queryStringQuery boolMustNot
    index filters queryGroups currentGroup
  = (queryGroups, currentGroup).
Proof.
  induction 1 as [| f rest Hf _ IH]; intros index queryGroups currentGroup;
    cbn [Backend.groupLoop].
  - reflexivity.
  - destruct (String.eqb (Backend.field f) EmptyString) eqn:E1; [apply IH |].
    destruct (String.eqb (Backend.operator f) EmptyString) eqn:E2; [apply IH |].
    cbn [orb].
    destruct Hf as [Hf | [Hf | Hf]].
    + apply String.eqb_neq in E1. contradiction.
    + apply String.eqb_neq in E2. contradiction.
    + rewrite Hf. apply IH.
Qed.

(** When every filter of a non-empty list is skipped,
    [buildElasticsearchQuery] returns the JSON of an empty
    [esb.boolQuery()] under [query]. *)
Lemma buildElasticsearchQuery_all_skipped f rest :
  Forall skippedFilter (f :: rest) ->
  backendBuild (Some (f :: rest)) = Normal (obj1 "query" boolQueryEmpty).
Proof.
  intros H. unfold backendBuild, Backend.buildElasticsearchQuery.
  rewrite (groupLoop_all_skipped _ H). reflexivity.
Qed.

(** C3, amended: the empty tree compiles to the bare clause
    [{match_all:{}}] (the tree compiler never adds a [query] key); an absent
    or empty filter list compiles, in [buildElasticsearchQuery], to
    [{query:{match_all:{}}}]. *)
Theorem empty_inputs_compile_to_match_all :
  (forall treeId,
     TreeState.generateQueryDSL (TreeState.mkTree None treeId)
     = JObj [("match_all", JObj [])]) /\
  backendBuild None = Normal queryMatchAll /\
  backendBuild (Some []) = Normal queryMatchAll.
Proof.
  repeat split.
Qed.




End WithBuilder.


End CompilerProps.

(* ===================================================================== *)
(** ** Properties of the path-based normalizer *)
(* ===================================================================== *)

Module BuilderProps.

Import Builder Samples.

(** The [Combined] case is [normalizeCombined]: fewer than two non-empty
    params give the first of them, as it is; otherwise the params are
    replaced by their normalized array. *)
Lemma normalizeRecursively_combined relation params :
  normalizeRecursively (Combined relation params)
  = let nonEmptyCombinedFilters := present params in
    if List.length nonEmptyCombinedFilters <? 2
    then hd_error nonEmptyCombinedFilters
    else Some (Combined relation (map Some (normalizeArray nonEmptyCombinedFilters))).
Proof.
  cbn [normalizeRecursively]. cbv zeta.
  destruct (List.length (present params) <? 2); [reflexivity |].
  do 3 f_equal. unfold normalizeArray.
  induction params as [| [item |] rest IH].
  - reflexivity.
  - change (present (Some item :: rest)) with (item :: present rest).
    cbn [map]. destruct (normalizeRecursively item) as [n |].
    + change (present (Some n :: map normalizeRecursively (present rest)))
        with (n :: present (map normalizeRecursively (present rest))).
      rewrite <- IH. reflexivity.
    + change (present (None :: map normalizeRecursively (present rest)))
        with (present (map normalizeRecursively (present rest))).
      exact IH.
  - exact IH.
Qed.

(** C9, at the failing inputs: [normalizeFilters] hoists the only param of
    a group without normalizing it, and does not look again at a group
    whose params vanish: its result can hold a group with a single param,
    or with none, and a second pass changes it. *)
Theorem normalizeFilters_is_not_idempotent :
  normalizeFilters [singleOuter] = [singleInner] /\
  wellGrouped singleInner = false /\
  normalizeFilters (normalizeFilters [singleOuter]) = [plainA] /\
  normalizeFilters [emptyPair] = [Combined TreeState.AND []] /\
  normalizeFilters (normalizeFilters [emptyPair]) = [].
Proof.
  repeat split.
Qed.

End BuilderProps.

(* ===================================================================== *)
(** ** More properties of the tree service *)
(* ===================================================================== *)

Module TreeEditProps.

Import TreeState TreeShape TreeEdits.

Lemma map_fixed {A} (f : A -> A) (l : list A) :
  Forall (fun x => f x = x) l -> map f l = l.
Proof.
  induction 1 as [| x rest Hx _ IH]; cbn [map]; [reflexivity |].
  rewrite Hx, IH. reflexivity.
Qed.

Lemma flip_flip op : flip (flip op) = op.
Proof. destruct op; reflexivity. Qed.

Lemma toggleOperatorRecursive_involutive nodeId node :
  toggleOperatorRecursive nodeId (toggleOperatorRecursive nodeId node) = node.
Proof.
  induction node as [c | i op children IH] using TreeProps.FilterNode_forall_ind.
  - reflexivity.
  - cbn [toggleOperatorRecursive].
    destruct (String.eqb i nodeId) eqn:E; cbn [toggleOperatorRecursive]; rewrite E.
    + rewrite flip_flip. reflexivity.
    + rewrite map_map, map_fixed; [reflexivity | exact IH].
Qed.

(** X1: toggling the same identifier twice gives back the state, for every
    tree (empty, with or without that identifier, with a leaf under it). *)
Theorem toggleOperator_involutive :
  forall (nodeId : string) (s : State),
  toggleOperator nodeId (toggleOperator nodeId s) = s.
Proof.
  intros nodeId [[r tid] d]. unfold toggleOperator. cbn [tree root treeId drawn].
  destruct r as [r |]; cbn [tree root treeId drawn]; [| reflexivity].
  rewrite toggleOperatorRecursive_involutive. reflexivity.
Qed.

Lemma findNodeByIdRecursive_group nodeId i op children :
  findNodeByIdRecursive nodeId (BooleanNode i op children)
  = if String.eqb i nodeId then Some (BooleanNode i op children)
    else firstSome (findNodeByIdRecursive nodeId) children.
Proof.
  cbn [findNodeByIdRecursive idOf].
  destruct (String.eqb i nodeId); [reflexivity |].
  induction children as [| c rest IH]; cbn [firstSome]; [reflexivity |].
  destruct (findNodeByIdRecursive nodeId c); [reflexivity | exact IH].
Qed.

Lemma getNodePathRecursive_group nodeId i op children path :
  getNodePathRecursive nodeId (BooleanNode i op children) path
  = if String.eqb i nodeId then (true, path ++ [i])
    else eachChild (getNodePathRecursive nodeId) children (path ++ [i]).
Proof.
  cbn [getNodePathRecursive idOf].
  destruct (String.eqb i nodeId); [reflexivity |].
  generalize (path ++ [i]).
  induction children as [| c rest IH]; intros p; cbn [eachChild]; [reflexivity |].
  destruct (getNodePathRecursive nodeId c p) as [[|] p']; [reflexivity | apply IH].
Qed.

Lemma lookups_children nodeId children :
  Forall (lookupsAgree nodeId) children ->
  forall path,
  (~ In nodeId (flat_map nodeIds children) ->
   eachChild (getNodePathRecursive nodeId) children path = (false, removelast path) /\
   firstSome (findNodeByIdRecursive nodeId) children = None) /\
  (In nodeId (flat_map nodeIds children) ->
   exists k child p n,
     nth_error children k = Some child /\
     subtree p child = Some n /\ idOf n = nodeId /\
     eachChild (getNodePathRecursive nodeId) children path
     = (true, path ++ idsAlong p child) /\
     firstSome (findNodeByIdRecursive nodeId) children = Some n).
Proof.
  induction 1 as [| c rest Hc _ IH]; intros path; cbn [flat_map eachChild firstSome].
  - split; [intros _; split; reflexivity | intros []].
  - destruct (in_dec string_dec nodeId (nodeIds c)) as [Hin | Hout].
    + split; [intros Hnot; exfalso; apply Hnot, in_or_app; left; exact Hin |].
      intros _. destruct (proj2 (Hc path) Hin) as [p [n [Hs [Hid [Hp Hf]]]]].
      exists 0, c, p, n. rewrite Hp, Hf. repeat split; assumption.
    + destruct (proj1 (Hc path) Hout) as [Hp Hf]. rewrite Hp, Hf.
      destruct (IH path) as [IH1 IH2]. split.
      * intros Hnot. apply IH1. intros Hr. apply Hnot, in_or_app. right. exact Hr.
      * intros Hin. apply in_app_or in Hin. destruct Hin as [Hin | Hin];
          [contradiction |].
        destruct (IH2 Hin) as [k [child [p [n [Hk [Hs [Hid [Hp' Hf']]]]]]]].
        exists (S k), child, p, n. repeat split; assumption.
Qed.

Lemma lookups_agree nodeId node : lookupsAgree nodeId node.
Proof.
  induction node as [c | i op children IH] using TreeProps.FilterNode_forall_ind;
    intros path.
  - cbn [nodeIds getNodePathRecursive findNodeByIdRecursive idOf].
    destruct (String.eqb (id c) nodeId) eqn:E.
    + apply String.eqb_eq in E. split.
      * intros Hnot. exfalso. apply Hnot. left. exact E.
      * intros _. exists [], (Condition c). repeat split; try assumption.
    + apply String.eqb_neq in E. split.
      * intros _. split; reflexivity.
      * intros [H | []]. contradiction.
  - rewrite getNodePathRecursive_group, findNodeByIdRecursive_group.
    cbn [nodeIds].
    destruct (String.eqb i nodeId) eqn:E.
    + apply String.eqb_eq in E. split.
      * intros Hnot. exfalso. apply Hnot. left. exact E.
      * intros _. exists [], (BooleanNode i op children). repeat split; assumption.
    + apply String.eqb_neq in E.
      destruct (lookups_children nodeId children IH (path ++ [i])) as [H1 H2].
      split.
      * intros Hnot.
        destruct H1 as [Hp Hf].
        { intros Hin. apply Hnot. right. exact Hin. }
        rewrite Hp, Hf, removelast_last. split; reflexivity.
      * intros [Hi | Hin]; [contradiction |].
        destruct (H2 Hin) as [k [child [p [n [Hk [Hs [Hid [Hp Hf]]]]]]]].
        exists (k :: p), n. cbn [subtree idsAlong idOf]. rewrite Hk.
        rewrite Hp, Hf, <- app_assoc. repeat split; assumption.
Qed.

(** X2: [findNodeById] and [getNodePath] locate the same node.  For an
    identifier that is not in the tree they return [null] and the empty
    path; otherwise [findNodeById] returns a node with that identifier and
    [getNodePath] returns the identifiers from the root down to that very
    node. *)
Theorem find_and_path_agree :
  forall (nodeId : string) (s : State),
  match root (tree s) with
  | None => findNodeById nodeId s = None /\ getNodePath nodeId s = []
  | Some r =>
      (~ In nodeId (nodeIds r) ->
       findNodeById nodeId s = None /\ getNodePath nodeId s = []) /\
      (In nodeId (nodeIds r) ->
       exists p n,
         subtree p r = Some n /\ idOf n = nodeId /\
         findNodeById nodeId s = Some n /\
         getNodePath nodeId s = idsAlong p r)
  end.
Proof.
  intros nodeId s. unfold findNodeById, getNodePath.
  destruct (root (tree s)) as [r |]; [| split; reflexivity].
  destruct (lookups_agree nodeId r []) as [H1 H2]. split.
  - intros Hnot. destruct (H1 Hnot) as [Hp Hf]. rewrite Hp, Hf. split; reflexivity.
  - intros Hin. destruct (H2 Hin) as [p [n [Hs [Hid [Hp Hf]]]]].
    exists p, n. rewrite Hp, Hf. repeat split; assumption.
Qed.

(** *** Edits that name an identifier the tree does not hold *)

Lemma modifyFilterRecursive_absent nodeId operator updates node :
  ~ In nodeId (nodeIds node) ->
  modifyFilterRecursive nodeId operator updates node = node.
Proof.
  induction node as [c | i op children IH] using TreeProps.FilterNode_forall_ind;
    intros Hnot; cbn [modifyFilterRecursive].
  - destruct (String.eqb (id c) nodeId) eqn:E; [| reflexivity].
    apply String.eqb_eq in E. exfalso. apply Hnot. left. exact E.
  - destruct (String.eqb i nodeId) eqn:E.
    + apply String.eqb_eq in E. exfalso. apply Hnot. left. exact E.
    + rewrite map_fixed; [reflexivity |].
      rewrite Forall_forall in IH |- *. intros c Hc. apply IH; [exact Hc |].
      intros Hin. apply Hnot. right. apply in_flat_map. exists c. split; assumption.
Qed.

Lemma toggleOperatorRecursive_absent nodeId node :
  ~ In nodeId (nodeIds node) ->
  toggleOperatorRecursive nodeId node = node.
Proof.
  induction node as [c | i op children IH] using TreeProps.FilterNode_forall_ind;
    intros Hnot; cbn [toggleOperatorRecursive]; [reflexivity |].
  destruct (String.eqb i nodeId) eqn:E.
  - apply String.eqb_eq in E. exfalso. apply Hnot. left. exact E.
  - rewrite map_fixed; [reflexivity |].
    rewrite Forall_forall in IH |- *. intros c Hc. apply IH; [exact Hc |].
    intros Hin. apply Hnot. right. apply in_flat_map. exists c. split; assumption.
Qed.

(** Where no condition has the identifier, the recursive removal is the
    normalization. *)
Lemma removeFilterRecursive_absent nodeId node :
  ~ In nodeId (leafIds node) ->
  removeFilterRecursive nodeId node = normalizeNode' node.
Proof.
  induction node as [c | i op children IH] using TreeProps.FilterNode_forall_ind;
    intros Hnot.
  - cbn [removeFilterRecursive normalizeNode'].
    destruct (String.eqb (id c) nodeId) eqn:E; [| reflexivity].
    apply String.eqb_eq in E. exfalso. apply Hnot. left. exact E.
  - rewrite TreeProps.removeFilterRecursive_unfold, TreeProps.normalizeNode'_unfold.
    do 2 f_equal. apply map_ext_in. intros c Hc.
    rewrite Forall_forall in IH. apply IH; [exact Hc |].
    intros Hin. apply Hnot. cbn [leafIds]. apply in_flat_map.
    exists c. split; assumption.
Qed.

(** X3: an edit that names an identifier the tree does not hold.
    [modifyFilter] and [toggleOperator] return the state they were given;
    [removeFilter] only normalizes the root, so it returns the state it was
    given when every group has two children.  [addFilter] leaves the root
    of a tree that has one as it is (the condition it built is not
    inserted); on the empty tree, where every identifier is absent, it
    makes the condition it built the root. *)
Theorem edits_on_unknown_id :
  forall (genId : nat -> string) (nodeId : string) (r : Relation)
         (filter : PartialFilter) (operator : option Relation) (updates : Updates)
         (s : State),
  ~ In nodeId (rootIds (root (tree s))) ->
  root (tree (addFilter genId nodeId r filter s))
  = match root (tree s) with
    | Some t => Some t
    | None => Some (Condition (newCondition (genId (drawn s)) filter))
    end /\
  modifyFilter nodeId operator updates s = s /\
  toggleOperator nodeId s = s /\
  root (tree (removeFilter genId nodeId s)) = normalizeNode (root (tree s)) /\
  (rootOk (root (tree s)) = true -> removeFilter genId nodeId s = s).
Proof.
  intros genId nodeId r filter operator updates [[rt tid] d] Hnot.
  cbn [tree root drawn] in *.
  destruct rt as [t |]; [| repeat split].
  cbn [rootIds rootOk normalizeNode] in *.
  assert (Hid : String.eqb (idOf t) nodeId = false).
  { apply String.eqb_neq. intros Heq. apply Hnot. rewrite <- Heq.
    destruct t; left; reflexivity. }
  assert (Hrem : removeFilterRecursive nodeId t = normalizeNode' t).
  { apply removeFilterRecursive_absent. intros Hin. apply Hnot.
    apply RemoveProps.leafIds_incl. exact Hin. }
  repeat split.
  - unfold addFilter. cbn [tree root drawn treeId].
    rewrite AddProps.addFilterRecursive_absent by exact Hnot. reflexivity.
  - unfold modifyFilter. cbn [tree root drawn treeId].
    rewrite modifyFilterRecursive_absent by exact Hnot. reflexivity.
  - unfold toggleOperator. cbn [tree root drawn treeId].
    rewrite toggleOperatorRecursive_absent by exact Hnot. reflexivity.
  - unfold removeFilter. cbn [tree root drawn treeId]. rewrite Hid, Hrem.
    cbn [tree root normalizeNode].
    destruct (normalizeNode' t) as [m |] eqn:E; cbn [normalizeNode]; [| reflexivity].
    apply TreeProps.normalizeNode'_fixed.
    eapply TreeProps.normalizeNode'_closed. exact E.
  - intros Hok. unfold removeFilter. cbn [tree root drawn treeId]. rewrite Hid, Hrem.
    rewrite (TreeProps.normalizeNode'_fixed t Hok). cbn [normalizeNode].
    rewrite (TreeProps.normalizeNode'_fixed t Hok). reflexivity.
Qed.

(** X3 on the tree [g0 = AND [g1 = OR [a, b], c]] and on the empty tree,
    with the identifier [zz]. *)
Lemma edits_on_unknown_id_witness :
  (~ In "zz" (rootIds (root (tree sampleState))) /\
   root (tree (addFilter Samples.sampleId "zz" OR Samples.partialD sampleState))
   = Some Samples.treeNested /\
   modifyFilter "zz" (Some OR) valueUpdate sampleState = sampleState /\
   toggleOperator "zz" sampleState = sampleState /\
   root (tree (removeFilter Samples.sampleId "zz" sampleState))
   = normalizeNode (Some Samples.treeNested) /\
   (groupsOk Samples.treeNested = true ->
    removeFilter Samples.sampleId "zz" sampleState = sampleState)) /\
  (~ In "zz" (rootIds (root (tree emptyState))) /\
   root (tree (addFilter Samples.sampleId "zz" OR Samples.partialD emptyState))
   = Some (Condition (mkCond "filter_0" "bytes" "is" (JStr "42")
                             "gt" (JStr EmptyString) "lt" (JStr EmptyString))) /\
   modifyFilter "zz" (Some OR) valueUpdate emptyState = emptyState /\
   toggleOperator "zz" emptyState = emptyState /\
   root (tree (removeFilter Samples.sampleId "zz" emptyState)) = None /\
   (rootOk (root (tree emptyState)) = true ->
    removeFilter Samples.sampleId "zz" emptyState = emptyState)).
Proof.
  assert (Habsent : ~ In "zz" (rootIds (root (tree sampleState))))
    by (cbn; intuition discriminate).
  assert (Hempty : ~ In "zz" (rootIds (root (tree emptyState))))
    by (intros []).
  split; (split; [assumption |]).
  - exact (edits_on_unknown_id Samples.sampleId "zz" OR Samples.partialD (Some OR)
             valueUpdate sampleState Habsent).
  - exact (edits_on_unknown_id Samples.sampleId "zz" OR Samples.partialD (Some OR)
             valueUpdate emptyState Hempty).
Defined.

(** *** The well-grouped invariant *)

Lemma mapThread_length {A B} (f : A -> nat -> B * nat) (l : list A) :
  forall k, List.length (fst (mapThread f l k)) = List.length l.
Proof.
  induction l as [| x rest IH]; intros k; cbn [mapThread]; [reflexivity |].
  destruct (f x k) as [y k1]. specialize (IH k1).
  destruct (mapThread f rest k1) as [rest' k2]. cbn [fst] in *.
  cbn [List.length]. rewrite IH. reflexivity.
Qed.

Lemma forallb_app_single {A} (p : A -> bool) l x :
  forallb p (l ++ [x]) = forallb p l && p x.
Proof. rewrite forallb_app. cbn [forallb]. rewrite andb_true_r. reflexivity. Qed.

Section Invariants.

Variable genId : nat -> string.
Variable parentNodeId : string.
Variable operator : Relation.
Variable newFilter : FilterCondition.

Let add := addFilterRecursive genId parentNodeId operator newFilter.

Lemma addFilterRecursive_group_match i op children k :
  String.eqb i parentNodeId = true ->
  add (BooleanNode i op children) k
  = if relEq op operator
    then (BooleanNode i op (children ++ [Condition newFilter]), k)
    else (BooleanNode (genId k) operator
                      [BooleanNode i op children; Condition newFilter], S k).
Proof.
  intros E. unfold add. cbn [addFilterRecursive]. rewrite E. reflexivity.
Qed.

Lemma addFilterRecursive_groupsOk node :
  forall k, groupsOk node = true -> groupsOk (fst (add node k)) = true.
Proof.
  induction node as [c | i op children IH] using TreeProps.FilterNode_forall_ind;
    intros k Hok.
  - unfold add. cbn [addFilterRecursive].
    destruct (String.eqb (id c) parentNodeId); reflexivity.
  - destruct (String.eqb i parentNodeId) eqn:E.
    + rewrite addFilterRecursive_group_match by exact E.
      destruct (relEq op operator); cbn [fst].
      * cbn [groupsOk] in Hok |- *. apply andb_true_iff in Hok.
        destruct Hok as [Hlen Hall].
        apply andb_true_iff. split.
        -- apply Nat.leb_le. rewrite length_app. apply Nat.leb_le in Hlen.
           cbn [List.length]. lia.
        -- rewrite forallb_app_single, Hall. reflexivity.
      * cbn [groupsOk forallb List.length]. cbn [groupsOk] in Hok.
        rewrite Hok. reflexivity.
    + unfold add. rewrite AddProps.addFilterRecursive_group by exact E. fold add. cbn [fst groupsOk].
      cbn [groupsOk] in Hok. apply andb_true_iff in Hok. destruct Hok as [Hlen Hall].
      fold add. rewrite mapThread_length, Hlen. cbn [andb].
      clear Hlen E. revert k.
      induction IH as [| c rest Hc _ IHrest]; intros k; cbn [mapThread].
      * reflexivity.
      * cbn [forallb] in Hall. apply andb_true_iff in Hall. destruct Hall as [H1 H2].
        specialize (Hc k H1). destruct (add c k) as [c' k1]. cbn [fst] in Hc.
        specialize (IHrest H2 k1).
        destruct (mapThread add rest k1) as [rest' k2]. cbn [fst] in *.
        cbn [forallb]. rewrite Hc, IHrest. reflexivity.
Qed.

(** The identifier of the root after the recursive addition is the old one
    or the one just drawn. *)
Lemma addFilterRecursive_root_id node k :
  idOf (fst (add node k)) = idOf node \/ idOf (fst (add node k)) = genId k.
Proof.
  destruct node as [c | i op children].
  - unfold add. cbn [addFilterRecursive].
    destruct (String.eqb (id c) parentNodeId); [right | left]; reflexivity.
  - destruct (String.eqb i parentNodeId) eqn:E.
    + rewrite addFilterRecursive_group_match by exact E.
      destruct (relEq op operator); [left | right]; reflexivity.
    + unfold add. rewrite AddProps.addFilterRecursive_group by exact E. fold add. left. reflexivity.
Qed.

Lemma keepNodes_app (l1 l2 : list (option FilterNode)) :
  keepNodes (l1 ++ l2) = keepNodes l1 ++ keepNodes l2.
Proof. unfold keepNodes. apply flat_map_app. Qed.

(** Removing the new condition from the tree it was added to normalizes the
    tree it was added to. *)
Lemma remove_after_add node :
  forall k,
  ~ In (id newFilter) (nodeIds node) ->
  removeFilterRecursive (id newFilter) (fst (add node k)) = normalizeNode' node.
Proof.
  assert (Hnew : removeFilterRecursive (id newFilter) (Condition newFilter) = None).
  { cbn [removeFilterRecursive]. rewrite String.eqb_refl. reflexivity. }
  assert (Habs : forall n, ~ In (id newFilter) (nodeIds n) ->
                 removeFilterRecursive (id newFilter) n = normalizeNode' n).
  { intros n Hn. apply removeFilterRecursive_absent. intros Hin. apply Hn.
    apply RemoveProps.leafIds_incl. exact Hin. }
  induction node as [c | i op children IH] using TreeProps.FilterNode_forall_ind;
    intros k Hnot.
  - unfold add. cbn [addFilterRecursive].
    destruct (String.eqb (id c) parentNodeId); cbn [fst]; [| apply Habs; exact Hnot].
    rewrite TreeProps.removeFilterRecursive_unfold. cbn [map].
    rewrite Hnew, (Habs _ Hnot). reflexivity.
  - destruct (String.eqb i parentNodeId) eqn:E.
    + rewrite addFilterRecursive_group_match by exact E.
      destruct (relEq op operator); cbn [fst].
      * rewrite TreeProps.removeFilterRecursive_unfold, map_app, keepNodes_app.
        cbn [map]. rewrite Hnew. cbn [keepNodes flat_map]. rewrite app_nil_r.
        rewrite <- TreeProps.removeFilterRecursive_unfold. apply Habs. exact Hnot.
      * rewrite TreeProps.removeFilterRecursive_unfold. cbn [map].
        rewrite Hnew, (Habs _ Hnot).
        destruct (normalizeNode' (BooleanNode i op children)); reflexivity.
    + unfold add. rewrite AddProps.addFilterRecursive_group by exact E. fold add. cbn [fst]. fold add.
      rewrite TreeProps.removeFilterRecursive_unfold, TreeProps.normalizeNode'_unfold.
      do 2 f_equal.
      assert (Hkids : ~ In (id newFilter) (flat_map nodeIds children)).
      { intros Hin. apply Hnot. right. exact Hin. }
      clear Hnot E. revert k.
      induction IH as [| c rest Hc _ IHrest]; intros k; cbn [mapThread].
      * reflexivity.
      * cbn [flat_map] in Hkids.
        assert (H1 : ~ In (id newFilter) (nodeIds c))
          by (intros H; apply Hkids, in_or_app; left; exact H).
        assert (H2 : ~ In (id newFilter) (flat_map nodeIds rest))
          by (intros H; apply Hkids, in_or_app; right; exact H).
        specialize (Hc k H1). destruct (add c k) as [c' k1]. cbn [fst] in Hc.
        specialize (IHrest H2 k1).
        destruct (mapThread add rest k1) as [rest' k2]. cbn [fst] in *.
        cbn [map]. rewrite Hc, IHrest. reflexivity.
Qed.

End Invariants.

Lemma modifyFilterRecursive_groupsOk nodeId operator updates node :
  groupsOk (modifyFilterRecursive nodeId operator updates node) = groupsOk node.
Proof.
  induction node as [c | i op children IH] using TreeProps.FilterNode_forall_ind;
    cbn [modifyFilterRecursive].
  - destruct (String.eqb (id c) nodeId); reflexivity.
  - destruct (if String.eqb i nodeId then operator else None); [reflexivity |].
    cbn [groupsOk]. rewrite length_map. f_equal.
    induction IH as [| c rest Hc _ IHrest]; cbn [map forallb]; [reflexivity |].
    rewrite Hc, IHrest. reflexivity.
Qed.

Lemma toggleOperatorRecursive_groupsOk nodeId node :
  groupsOk (toggleOperatorRecursive nodeId node) = groupsOk node.
Proof.
  induction node as [c | i op children IH] using TreeProps.FilterNode_forall_ind;
    cbn [toggleOperatorRecursive]; [reflexivity |].
  destruct (String.eqb i nodeId); [reflexivity |].
  cbn [groupsOk]. rewrite length_map. f_equal.
  induction IH as [| c rest Hc _ IHrest]; cbn [map forallb]; [reflexivity |].
  rewrite Hc, IHrest. reflexivity.
Qed.

(** X4: the four edits keep the tree well grouped: from a tree in which
    every group has at least two children, [addFilter], [modifyFilter] and
    [toggleOperator] give such a tree again, whatever identifier they are
    given; [removeFilter] gives one from any tree. *)
Theorem edits_keep_groups_of_two :
  forall (genId : nat -> string) (nodeId : string) (r : Relation)
         (filter : PartialFilter) (operator : option Relation) (updates : Updates)
         (s : State),
  (rootOk (root (tree s)) = true ->
   rootOk (root (tree (addFilter genId nodeId r filter s))) = true /\
   rootOk (root (tree (modifyFilter nodeId operator updates s))) = true /\
   rootOk (root (tree (toggleOperator nodeId s))) = true) /\
  rootOk (root (tree (removeFilter genId nodeId s))) = true.
Proof.
  intros genId nodeId r filter operator updates s. split.
  - intros Hok. unfold addFilter, modifyFilter, toggleOperator.
    destruct (root (tree s)) as [t |] eqn:Er; cbn [rootOk] in Hok.
    + repeat split.
      * pose proof (addFilterRecursive_groupsOk genId nodeId r
                      (newCondition (genId (drawn s)) filter) t
                      (S (drawn s)) Hok) as H.
        destruct (addFilterRecursive genId nodeId r _ t (S (drawn s))) as [t' k].
        exact H.
      * cbn [tree root rootOk]. rewrite modifyFilterRecursive_groupsOk. exact Hok.
      * cbn [tree root rootOk]. rewrite toggleOperatorRecursive_groupsOk. exact Hok.
    + rewrite Er. repeat split.
  - unfold removeFilter. destruct (root (tree s)) as [t |] eqn:Er.
    + destruct (String.eqb (idOf t) nodeId); cbn [tree root]; [reflexivity |].
      apply TreeProps.normalizeNode_closed.
    + rewrite Er. reflexivity.
Qed.

(** X5: removing the condition that [addFilter] has just added gives back
    the normalized tree: when the identifier drawn for the new condition is
    not in the tree and differs from the next identifier drawn, the root
    after [addFilter] then [removeFilter] of that identifier is
    [normalizeNode] of the root before, whatever node [addFilter] was aimed
    at. *)
Theorem remove_undoes_add :
  forall (genId : nat -> string) (parentId : string) (r : Relation)
         (filter : PartialFilter) (s : State),
  (forall t, root (tree s) = Some t -> ~ In (genId (drawn s)) (nodeIds t)) ->
  genId (S (drawn s)) <> genId (drawn s) ->
  root (tree (removeFilter genId (genId (drawn s))
                           (addFilter genId parentId r filter s)))
  = normalizeNode (root (tree s)).
Proof.
  intros genId parentId r filter s Hfresh Hnext.
  unfold addFilter. destruct (root (tree s)) as [t |] eqn:Er.
  - set (c := newCondition (genId (drawn s)) filter).
    specialize (Hfresh t eq_refl).
    pose proof (remove_after_add genId parentId r c t (S (drawn s)) Hfresh) as Hrem.
    pose proof (addFilterRecursive_root_id genId parentId r c t (S (drawn s))) as Hid.
    destruct (addFilterRecursive genId parentId r c t (S (drawn s))) as [t' k].
    cbn [fst] in Hrem, Hid. unfold removeFilter. cbn [tree root treeId drawn].
    assert (E : String.eqb (idOf t') (genId (drawn s)) = false).
    { apply String.eqb_neq. destruct Hid as [Hid | Hid]; rewrite Hid.
      - intros Heq. apply Hfresh. rewrite <- Heq. destruct t; left; reflexivity.
      - exact Hnext. }
    rewrite E. cbn [tree root]. change (id c) with (genId (drawn s)) in Hrem.
    rewrite Hrem.
    exact (TreeProps.normalizeNode_idempotent (Some t)).
  - unfold initializeWithFilter, removeFilter. cbn [tree root idOf id newCondition].
    rewrite String.eqb_refl. reflexivity.
Qed.

Lemma remove_undoes_add_witness :
  root (tree (removeFilter Samples.sampleId (Samples.sampleId (drawn sampleState))
                (addFilter Samples.sampleId "g1" AND Samples.partialD sampleState)))
  = normalizeNode (root (tree sampleState)).
Proof.
  apply (remove_undoes_add Samples.sampleId "g1" AND Samples.partialD sampleState).
  - intros t Ht. injection Ht as <-. cbn. intuition discriminate.
  - discriminate.
Defined.

(** *** Lookup after an edit *)

Lemma find_none_absent nodeId node :
  findNodeByIdRecursive nodeId node = None -> ~ In nodeId (nodeIds node).
Proof.
  intros Hf Hin.
  destruct (proj2 (lookups_agree nodeId node []) Hin) as [p [n [_ [_ [_ Hsome]]]]].
  congruence.
Qed.

Lemma firstSome_map_modify nodeId operator updates children expected result :
  Forall (fun c =>
            findNodeByIdRecursive nodeId c = Some expected ->
            findNodeByIdRecursive nodeId
              (modifyFilterRecursive nodeId operator updates c) = Some result)
         children ->
  firstSome (findNodeByIdRecursive nodeId) children = Some expected ->
  firstSome (findNodeByIdRecursive nodeId)
            (map (modifyFilterRecursive nodeId operator updates) children)
  = Some result.
Proof.
  induction 1 as [| c rest Hc _ IH]; cbn [firstSome map]; [discriminate |].
  destruct (findNodeByIdRecursive nodeId c) as [found |] eqn:E.
  - intros Heq. injection Heq as ->. rewrite (Hc eq_refl). reflexivity.
  - intros Hrest.
    rewrite (modifyFilterRecursive_absent nodeId operator updates c
               (find_none_absent nodeId c E)), E.
    exact (IH Hrest).
Qed.

Lemma find_after_modify_condition nodeId operator updates node :
  uId updates = None ->
  forall c,
  findNodeByIdRecursive nodeId node = Some (Condition c) ->
  findNodeByIdRecursive nodeId (modifyFilterRecursive nodeId operator updates node)
  = Some (Condition (merge c updates)).
Proof.
  intros Hid.
  induction node as [c0 | i op children IH] using TreeProps.FilterNode_forall_ind;
    intros c Hf.
  - cbn [findNodeByIdRecursive idOf modifyFilterRecursive] in Hf |- *.
    destruct (String.eqb (id c0) nodeId) eqn:E; [| discriminate].
    injection Hf as <-.
    cbn [findNodeByIdRecursive idOf merge id]. rewrite Hid. cbn [over].
    rewrite E. reflexivity.
  - rewrite findNodeByIdRecursive_group in Hf. cbn [modifyFilterRecursive].
    destruct (String.eqb i nodeId) eqn:E; [discriminate |].
    rewrite findNodeByIdRecursive_group, E.
    eapply firstSome_map_modify; [| exact Hf].
    rewrite Forall_forall in IH |- *. intros ch Hch. apply IH. exact Hch.
Qed.

Lemma find_after_modify_group nodeId newOperator updates node :
  forall i op children,
  findNodeByIdRecursive nodeId node = Some (BooleanNode i op children) ->
  findNodeByIdRecursive nodeId
    (modifyFilterRecursive nodeId (Some newOperator) updates node)
  = Some (BooleanNode i newOperator children).
Proof.
  induction node as [c0 | i0 op0 children0 IH] using TreeProps.FilterNode_forall_ind;
    intros i op children Hf.
  - cbn [findNodeByIdRecursive idOf] in Hf.
    destruct (String.eqb (id c0) nodeId); discriminate.
  - rewrite findNodeByIdRecursive_group in Hf. cbn [modifyFilterRecursive].
    destruct (String.eqb i0 nodeId) eqn:E.
    + injection Hf as <- <- <-. rewrite findNodeByIdRecursive_group, E. reflexivity.
    + rewrite findNodeByIdRecursive_group, E.
      eapply firstSome_map_modify; [| exact Hf].
      rewrite Forall_forall in IH |- *. intros ch Hch. apply IH. exact Hch.
Qed.

(** X7: what [modifyFilter] wrote is what [findNodeById] reads.  When the
    identifier names a condition and the updates do not change its
    identifier, the lookup after the edit returns that condition with the
    updates merged in; when it names a group and a relation is supplied, the
    lookup returns that group with the new relation and the same
    children. *)
Theorem find_after_modifyFilter :
  forall (nodeId : string) (updates : Updates) (s : State),
  (forall operator c,
     uId updates = None ->
     findNodeById nodeId s = Some (Condition c) ->
     findNodeById nodeId (modifyFilter nodeId operator updates s)
     = Some (Condition (merge c updates))) /\
  (forall newOperator i op children,
     findNodeById nodeId s = Some (BooleanNode i op children) ->
     findNodeById nodeId (modifyFilter nodeId (Some newOperator) updates s)
     = Some (BooleanNode i newOperator children)).
Proof.
  intros nodeId updates s. unfold findNodeById, modifyFilter.
  destruct (root (tree s)) as [t |] eqn:Er; cbn [tree root].
  - split.
    + intros operator c Hid Hf. apply find_after_modify_condition; assumption.
    + intros newOperator i op children Hf.
      eapply find_after_modify_group. exact Hf.
  - split; intros; discriminate.
Qed.

(** *** Normalization and compilation *)

Lemma survives_matchAll : survives matchAll = false.
Proof. reflexivity. Qed.

Lemma kept_filter q1 q2 rest1 rest2 :
  kept q1 = kept q2 ->
  filter survives rest1 = filter survives rest2 ->
  filter survives (q1 :: rest1) = filter survives (q2 :: rest2).
Proof.
  unfold kept. intros Hk Hr. cbn [filter].
  destruct (survives q1), (survives q2); try discriminate; rewrite Hr;
    [injection Hk as -> |]; reflexivity.
Qed.

Lemma normalizeNode'_compiles node :
  match normalizeNode' node with
  | Some m => kept (generateQueryDSLRecursive m) = kept (generateQueryDSLRecursive node)
  | None => kept (generateQueryDSLRecursive node) = None
  end.
Proof.
  induction node as [c | i op children IH] using TreeProps.FilterNode_forall_ind.
  - reflexivity.
  - assert (Hs : survivors (keepNodes (map normalizeNode' children))
                 = survivors children).
    { unfold survivors.
      induction IH as [| c rest Hc _ IHrest]; cbn [map]; [reflexivity |].
      destruct (normalizeNode' c) as [m |].
      - rewrite TreeProps.keepNodes_cons_some. cbn [map].
        apply kept_filter; assumption.
      - rewrite TreeProps.keepNodes_cons_none. rewrite IHrest.
        cbn [filter]. unfold kept in Hc.
        destruct (survives (generateQueryDSLRecursive c)); [discriminate | reflexivity]. }
    rewrite TreeProps.normalizeNode'_unfold.
    rewrite (TreeClaims.generateQueryDSLRecursive_group i op children), <- Hs.
    destruct (keepNodes (map normalizeNode' children)) as [| a [| b rest]];
      cbn [collapse].
    + reflexivity.
    + unfold survivors. cbn [map filter]. unfold kept.
      destruct (survives (generateQueryDSLRecursive a)) eqn:E.
      * rewrite E. reflexivity.
      * rewrite survives_matchAll. reflexivity.
    + rewrite TreeClaims.generateQueryDSLRecursive_group. reflexivity.
Qed.

(** X6: normalizing a tree does not change what it compiles to: the
    compiled query of the normalized tree and of the tree are the same
    query, or both are empty ([null] or [match_all], which a parent group
    and [isEmptyQuery] treat alike). *)
Theorem normalize_keeps_compiled_query :
  forall (r : option FilterNode) (treeId : string),
  kept (generateQueryDSL (mkTree (normalizeNode r) treeId))
  = kept (generateQueryDSL (mkTree r treeId)).
Proof.
  intros [node |] tid; [| reflexivity].
  unfold generateQueryDSL. cbn [root normalizeNode].
  pose proof (normalizeNode'_compiles node) as H.
  destruct (normalizeNode' node) as [m |]; [exact H |].
  rewrite H. reflexivity.
Qed.

(** *** Identifiers under the edits *)

Lemma flat_map_same {A B} (f g : A -> list B) (l : list A) :
  Forall (fun x => f x = g x) l -> flat_map f l = flat_map g l.
Proof.
  induction 1 as [| x rest Hx _ IH]; cbn [flat_map]; [reflexivity |].
  rewrite Hx, IH. reflexivity.
Qed.

Lemma modifyFilterRecursive_ids nodeId operator updates node :
  uId updates = None ->
  nodeIds (modifyFilterRecursive nodeId operator updates node) = nodeIds node.
Proof.
  intros Hid.
  induction node as [c | i op children IH] using TreeProps.FilterNode_forall_ind;
    cbn [modifyFilterRecursive].
  - destruct (String.eqb (id c) nodeId); [| reflexivity].
    cbn [nodeIds merge id]. rewrite Hid. reflexivity.
  - destruct (if String.eqb i nodeId then operator else None); [reflexivity |].
    cbn [nodeIds]. f_equal. rewrite flat_map_concat_map, map_map,
      <- flat_map_concat_map.
    apply flat_map_same. exact IH.
Qed.

Lemma toggleOperatorRecursive_ids nodeId node :
  nodeIds (toggleOperatorRecursive nodeId node) = nodeIds node.
Proof.
  induction node as [c | i op children IH] using TreeProps.FilterNode_forall_ind;
    cbn [toggleOperatorRecursive]; [reflexivity |].
  destruct (String.eqb i nodeId); [reflexivity |].
  cbn [nodeIds]. f_equal. rewrite flat_map_concat_map, map_map,
    <- flat_map_concat_map.
  apply flat_map_same. exact IH.
Qed.

Lemma merge_nothing c :
  merge c (mkUpdates None None None None None None None None) = c.
Proof. destruct c; reflexivity. Qed.

Lemma modifyFilterRecursive_nothing nodeId node :
  modifyFilterRecursive nodeId None
    (mkUpdates None None None None None None None None) node = node.
Proof.
  induction node as [c | i op children IH] using TreeProps.FilterNode_forall_ind;
    cbn [modifyFilterRecursive].
  - destruct (String.eqb (id c) nodeId); [| reflexivity].
    rewrite merge_nothing. reflexivity.
  - destruct (String.eqb i nodeId); rewrite (map_fixed _ _ IH); reflexivity.
Qed.

(** X23: the identifiers are stable under the edits in place:
    [modifyFilter] with an update that carries no [id], and
    [toggleOperator], leave the identifiers of the tree as they are, in
    order; and [modifyFilter] with a [null] operator and an empty update, as
    [onRangeValueChange] calls it when it is given no argument, returns the
    state unchanged. *)
Theorem edits_in_place_keep_ids :
  forall (nodeId : string) (s : State),
  (forall operator updates,
     uId updates = None ->
     option_map nodeIds (root (tree (modifyFilter nodeId operator updates s)))
     = option_map nodeIds (root (tree s))) /\
  option_map nodeIds (root (tree (toggleOperator nodeId s)))
  = option_map nodeIds (root (tree s)) /\
  modifyFilter nodeId None (mkUpdates None None None None None None None None) s = s /\
  (forall node, onRangeValueChange node None None None None s = s).
Proof.
  intros nodeId [[r tid] d].
  assert (Hnothing : forall i,
            modifyFilter i None (mkUpdates None None None None None None None None)
                         (mkState (mkTree r tid) d)
            = mkState (mkTree r tid) d).
  { intros i. unfold modifyFilter. cbn [tree root treeId drawn].
    destruct r as [t |]; [| reflexivity].
    rewrite modifyFilterRecursive_nothing. reflexivity. }
  split; [| split; [| split]].
  - intros operator updates Hid. unfold modifyFilter. cbn [tree root treeId drawn].
    destruct r as [t |]; [| reflexivity].
    cbn [tree root option_map]. rewrite modifyFilterRecursive_ids by exact Hid.
    reflexivity.
  - unfold toggleOperator. cbn [tree root treeId drawn].
    destruct r as [t |]; [| reflexivity].
    cbn [tree root option_map]. rewrite toggleOperatorRecursive_ids. reflexivity.
  - apply Hnothing.
  - intros node. unfold onRangeValueChange. apply Hnothing.
Qed.

End TreeEditProps.

(* ===================================================================== *)
(** ** The flat compiler and the previews as one right-to-left fold *)
(* ===================================================================== *)

Module FlatFoldProps.

Import FlatBar FlatMore.

Lemma append_assoc (a b c : string) : (a +++ b) +++ c = a +++ b +++ c.
Proof.
  induction a as [| ch a IH]; cbn [String.append]; [reflexivity |].
  rewrite IH. reflexivity.
Qed.

Section Generic.

Variables A R : Type.
Variable leaf : A -> R.
Variable group : string -> list R -> R.
Variable nest : R -> R.
Variable step : option string -> bool -> A -> R -> R.
Variable none : A.
(** What the loop body assumes of an element it meets as the first
    [result]. *)
Variable P : A -> Prop.

Hypothesis step_new :
  forall op a b, P b ->
  step (Some op) false a (leaf b) = group op [leaf a; leaf b].
Hypothesis step_extend :
  forall op a x l,
  step (Some op) false a (group op (x :: l)) = group op (leaf a :: x :: l).
Hypothesis step_nest :
  forall op a r, step (Some op) true a r = group op [leaf a; nest r].

Lemma groupOf_head a op b rest :
  exists l, groupOf leaf group nest a op b rest = leaf a :: l.
Proof.
  destruct rest as [| [op2 c] rest']; cbn [groupOf].
  - eexists; reflexivity.
  - destruct (String.eqb op2 op); eexists; reflexivity.
Qed.

Lemma items_at (tag : string) a0 (rest : list (string * A)) pre x suf :
  (tag, a0) :: rest = pre ++ x :: suf ->
  nth (List.length pre) (foldItems a0 rest) none = snd x.
Proof.
  intros H.
  change (foldItems a0 rest) with (map snd ((tag, a0) :: rest)).
  rewrite H, map_app. cbn [map].
  rewrite <- (length_map snd pre). apply nth_middle.
Qed.

Lemma tags_at (tag : string) a0 (rest : list (string * A)) pre x suf :
  (tag, a0) :: rest = pre ++ x :: suf ->
  pre <> [] ->
  nth (List.length pre) (foldTags rest) None = Some (fst x).
Proof.
  intros H Hpre.
  assert (Hn : nth (List.length pre) (foldTags rest) None
               = nth (List.length pre)
                     (map (fun p : string * A => Some (fst p)) ((tag, a0) :: rest))
                     None).
  { destruct pre as [| e pre']; [contradiction | reflexivity]. }
  rewrite Hn, H, map_app. cbn [map].
  rewrite <- (length_map (fun p : string * A => Some (fst p)) pre).
  apply nth_middle.
Qed.

Lemma items_length a0 (rest : list (string * A)) (tag : string) pre x suf :
  (tag, a0) :: rest = pre ++ x :: suf ->
  List.length (foldItems a0 rest) = List.length pre + S (List.length suf).
Proof.
  intros H.
  change (foldItems a0 rest) with (map snd ((tag, a0) :: rest)).
  rewrite H, length_map, length_app. reflexivity.
Qed.

(** One pass of the loop body turns the fold of a suffix into the fold of
    the suffix extended by the element before it. *)
Lemma step_fold a0 (rest : list (string * A)) (tag : string) pre y x suf :
  Forall P (foldItems a0 rest) ->
  (tag, a0) :: rest = (pre ++ [y]) ++ x :: suf ->
  step (nth (List.length pre + 1) (foldTags rest) None)
       (needsNestingAt (List.length (foldItems a0 rest)) (foldTags rest)
                       (List.length pre))
       (nth (List.length pre) (foldItems a0 rest) none)
       (assocFold leaf group nest (snd x) suf)
  = assocFold leaf group nest (snd y) (x :: suf).
Proof.
  intros HP H.
  assert (Hy : (tag, a0) :: rest = pre ++ y :: x :: suf)
    by (rewrite H, <- app_assoc; reflexivity).
  assert (Hlen1 : List.length pre + 1 = List.length (pre ++ [y]))
    by (rewrite length_app; reflexivity).
  rewrite (items_at tag a0 rest pre y (x :: suf) Hy).
  rewrite Hlen1, (tags_at tag a0 rest (pre ++ [y]) x suf H)
    by (destruct pre; discriminate).
  unfold needsNestingAt.
  rewrite (items_length a0 rest tag (pre ++ [y]) x suf H), <- Hlen1.
  destruct x as [op b]. cbn [fst snd assocFold].
  destruct suf as [| [op2 c] suf']; cbn [List.length assocFold].
  - replace (List.length pre + 1 <? List.length pre + 1 + 1 - 1) with false
      by (symmetry; apply Nat.ltb_ge; lia).
    cbn [groupOf]. apply step_new.
    rewrite Forall_forall in HP. apply HP.
    change (foldItems a0 rest) with (map snd ((tag, a0) :: rest)).
    rewrite Hy. apply in_map_iff. exists (op, b). split; [reflexivity |].
    apply in_or_app. right. right. left. reflexivity.
  - replace (List.length pre + 1 <? List.length pre + 1 + S (S (List.length suf')) - 1)
      with true by (symmetry; apply Nat.ltb_lt; lia).
    assert (H2 : (tag, a0) :: rest = ((pre ++ [y]) ++ [(op, b)]) ++ (op2, c) :: suf')
      by (rewrite H, <- !app_assoc; reflexivity).
    replace (List.length pre + 2) with (List.length ((pre ++ [y]) ++ [(op, b)]))
      by (rewrite !length_app; cbn; lia).
    rewrite (tags_at tag a0 rest _ _ _ H2)
      by (destruct pre; discriminate).
    rewrite Hlen1, (tags_at tag a0 rest (pre ++ [y]) (op, b) _ H)
      by (destruct pre; discriminate).
    cbn [fst opEq groupOf].
    destruct (String.eqb op2 op) eqn:E; cbn [negb].
    + apply String.eqb_eq in E. subst op2.
      destruct (groupOf_head b op c suf') as [l Hl]. rewrite Hl.
      apply step_extend.
    + apply step_nest.
Qed.

(** The loop, started on the last element, computes the fold. *)
Lemma stepLoop_fold a0 (rest : list (string * A)) (tag : string) :
  Forall P (foldItems a0 rest) ->
  forall pre x suf,
  (tag, a0) :: rest = pre ++ x :: suf ->
  stepLoop step none (foldItems a0 rest) (foldTags rest) (List.length pre)
           (assocFold leaf group nest (snd x) suf)
  = assocFold leaf group nest a0 rest.
Proof.
  intros HP pre. induction pre as [| y pre' IH] using rev_ind; intros x suf H.
  - cbn [app] in H. injection H as <- <-. reflexivity.
  - rewrite length_app. cbn [List.length]. rewrite Nat.add_1_r.
    cbn [stepLoop]. rewrite (step_fold a0 rest tag pre' y x suf HP H).
    apply IH. rewrite H, <- app_assoc. reflexivity.
Qed.

(** A group whose relations are all the same is flat. *)
Lemma groupOf_same a op b (rest : list (string * A)) :
  forallb (fun p => String.eqb (fst p) op) rest = true ->
  groupOf leaf group nest a op b rest
  = leaf a :: leaf b :: map (fun p => leaf (snd p)) rest.
Proof.
  revert a b. induction rest as [| [op2 c] rest' IH]; intros a b Hall.
  - reflexivity.
  - cbn [forallb fst] in Hall. apply andb_true_iff in Hall. destruct Hall as [E Hall].
    cbn [groupOf map snd]. rewrite E. apply String.eqb_eq in E. subst op2.
    rewrite IH by exact Hall. reflexivity.
Qed.

End Generic.

(** *** List bookkeeping *)

Lemma last_split {X} (l : list X) :
  l <> [] ->
  exists pre z, l = pre ++ [z] /\
                nth_error l (List.length l - 1) = Some z /\
                List.length pre = List.length l - 1.
Proof.
  intros Hne. destruct (exists_last Hne) as [pre [z ->]].
  exists pre, z. rewrite length_app. cbn [List.length].
  replace (List.length pre + 1 - 1) with (List.length pre) by lia.
  repeat split. rewrite nth_error_app2 by lia.
  rewrite Nat.sub_diag. reflexivity.
Qed.

Lemma forallb_map_compose {X Y} (f : Y -> bool) (g : X -> Y) (l : list X) :
  forallb f (map g l) = forallb (fun x => f (g x)) l.
Proof.
  induction l as [| x rest IH]; cbn [map forallb]; [reflexivity |].
  rewrite IH. reflexivity.
Qed.

(** [everySame] on the tags of at least one tagged element: all tags equal
    the first. *)
Lemma everySame_tags {X} (op : string) (rest : list (string * X)) :
  everySame (Some op :: map (fun p => Some (fst p)) rest)
  = forallb (fun p => String.eqb (fst p) op) rest.
Proof.
  unfold everySame. cbn [map nth fst forallb opEq].
  rewrite String.eqb_refl. cbn [andb].
  rewrite forallb_map_compose. reflexivity.
Qed.

(** *** The compiler *)

Lemma nestLoop_stepLoop queries operators k :
  forall result,
  nestLoop queries operators k result
  = stepLoop combine JUndefined queries operators k result.
Proof.
  induction k as [| i IH]; intros result; cbn [nestLoop stepLoop]; [reflexivity |].
  apply IH.
Qed.

(** No clause built for a row looks like a group of the fold. *)
Lemma rowQuery_leaf row q :
  rowQuery row = Some q -> TreeShape.isGroupBool q = false.
Proof.
  unfold rowQuery.
  repeat match goal with
         | |- context [if ?b then _ else _] => destruct b
         end;
    intros H; try discriminate H; injection H as <-; reflexivity.
Qed.

Lemma collectQueries_leaves rows :
  forall i,
  Forall (fun e => TreeShape.isGroupBool (query e) = false) (collectQueries i rows).
Proof.
  induction rows as [| row rest IH]; intros i; cbn [collectQueries].
  - constructor.
  - destruct (_ || _); [apply IH |].
    destruct (rowQuery row) as [q |] eqn:E; [| apply IH].
    constructor; [exact (rowQuery_leaf row q E) | apply IH].
Qed.

Lemma combine_new op a b :
  TreeShape.isGroupBool b = false ->
  combine (Some op) false a b = docGroup op [a; b].
Proof.
  unfold TreeShape.isGroupBool. intros H. apply orb_false_iff in H.
  destruct H as [Hm Hs].
  unfold combine, docGroup, isOR. cbn [opEq].
  destruct (String.eqb op "OR"); [rewrite Hs | rewrite Hm];
    rewrite andb_false_r; reflexivity.
Qed.

Lemma combine_extend op a x l :
  combine (Some op) false a (docGroup op (x :: l)) = docGroup op (a :: x :: l).
Proof.
  unfold combine, docGroup, isOR. cbn [opEq].
  destruct (String.eqb op "OR"); reflexivity.
Qed.

Lemma combine_nest op a r :
  combine (Some op) true a r = docGroup op [a; r].
Proof.
  unfold combine, docGroup, isOR. cbn [opEq].
  destruct (String.eqb op "OR"); reflexivity.
Qed.

(** The tagged form of a list of compiled rows. *)
Lemma query_items e (es : list Entry) :
  foldItems (query e) (map (fun x => (strOr (entryLogic x) "AND", query x)) es)
  = map query (e :: es).
Proof. unfold foldItems. rewrite map_map. reflexivity. Qed.

Lemma query_tags e (es : list Entry) :
  foldTags (map (fun x => (strOr (entryLogic x) "AND", query x)) es)
  = operatorsOf entryLogic (e :: es).
Proof. unfold foldTags, operatorsOf. rewrite map_map. reflexivity. Qed.

(** With at least one compiled row, the document is the fold of the
    clauses. *)
Lemma generateQueryDSL_compiled rows e es :
  collectQueries 0 rows = e :: es ->
  generateQueryDSL rows
  = Normal (obj1 "query"
              (docFold (query e)
                 (map (fun x => (strOr (entryLogic x) "AND", query x)) es))).
Proof.
  intros Hrows. unfold generateQueryDSL.
  pose proof (collectQueries_leaves rows 0) as Hleaf.
  rewrite Hrows in *. clear Hrows.
  set (queries := e :: es) in *.
  set (rest := map (fun x => (strOr (entryLogic x) "AND", query x)) es).
  destruct es as [| e1 es']; [reflexivity |].
  replace (List.length queries =? 1) with false by reflexivity.
  assert (Htl : tl (operatorsOf entryLogic queries)
                = map (fun p => Some (fst p)) rest).
  { unfold rest, operatorsOf. cbn [tl]. rewrite map_map. reflexivity. }
  rewrite Htl.
  replace (0 <? List.length (map (fun p : string * JsVal => Some (fst p)) rest))
    with true by reflexivity.
  cbn [andb].
  unfold rest at 1 2. cbn [map fst]. rewrite everySame_tags.
  fold rest.
  set (tag := strOr (entryLogic e1) "AND").
  set (rest' := map (fun x => (strOr (entryLogic x) "AND", query x)) es').
  destruct (forallb (fun p => String.eqb (fst p) tag) rest') eqn:Hsame.
  - unfold rest. cbn [map nth fst]. fold tag rest'.
    unfold docFold. cbn [assocFold].
    rewrite groupOf_same by exact Hsame.
    unfold docGroup, isOR. cbn [opEq].
    replace (map query queries)
      with (query e :: query e1 :: map (fun p => snd p) rest')
      by (unfold queries, rest'; cbn [map]; rewrite map_map; reflexivity).
    destruct (String.eqb tag "OR"); reflexivity.
  - destruct (last_split queries) as [pre [z [Hq [Hnth Hlen]]]]; [discriminate |].
    rewrite Hnth, nestLoop_stepLoop, <- Hlen.
    change (map query queries) with (map query (e :: e1 :: es')).
    change (operatorsOf entryLogic queries)
      with (operatorsOf entryLogic (e :: e1 :: es')).
    rewrite <- (query_items e (e1 :: es')), <- (query_tags e (e1 :: es')).
    fold rest. do 2 f_equal.
    pose (mk := fun x : Entry => (strOr (entryLogic x) "AND", query x)).
    assert (Hent : (strOr (entryLogic e) "AND", query e) :: rest
                   = map mk pre ++ mk z :: []).
    { change ((strOr (entryLogic e) "AND", query e) :: rest) with (map mk queries).
      rewrite Hq, map_app. reflexivity. }
    rewrite <- (length_map mk pre).
    change (query z) with (assocFold (fun q : JsVal => q) docGroup (fun q => q)
                                     (snd (mk z)) []).
    apply (stepLoop_fold JsVal JsVal (fun q => q) docGroup (fun q => q) combine
             JUndefined (fun q => TreeShape.isGroupBool q = false)
             combine_new combine_extend combine_nest
             (query e) rest (strOr (entryLogic e) "AND")).
    + unfold rest. rewrite query_items. apply Forall_map. exact Hleaf.
    + exact Hent.
Qed.

Lemma generateQueryDSL_none_compiled rows :
  collectQueries 0 rows = [] ->
  generateQueryDSL rows
  = Throw "TypeError: Cannot read properties of undefined (reading 'query')".
Proof. intros H. unfold generateQueryDSL. rewrite H. reflexivity. Qed.

(** X8: the flat compiler is a right-to-left fold.  With no compiled row it
    raises; otherwise the document is [{query: d}] where [d] is the first
    clause alone, or the group under the relation of the second row that
    holds the first clause followed by the members of the rest: clauses as
    long as the relation stays the same, and one nested group for all that
    follows a change of relation. *)
Theorem generateQueryDSL_is_right_fold :
  forall rows : list Row,
  generateQueryDSL rows
  = match collectQueries 0 rows with
    | [] => Throw "TypeError: Cannot read properties of undefined (reading 'query')"
    | e :: es =>
        Normal (obj1 "query"
                  (docFold (query e)
                     (map (fun x => (strOr (entryLogic x) "AND", query x)) es)))
    end.
Proof.
  intros rows.
  destruct (collectQueries 0 rows) as [| e es] eqn:E.
  - exact (generateQueryDSL_none_compiled rows E).
  - exact (generateQueryDSL_compiled rows e es E).
Qed.

(** *** The previews *)

Lemma nth_map_default {X Y} (f : X -> Y) (d : Y) (l : list X) :
  forall i,
  nth i (map f l) d = match nth_error l i with Some x => f x | None => d end.
Proof.
  induction l as [| x rest IH]; intros [| i]; cbn [map nth nth_error];
    try reflexivity.
  apply IH.
Qed.

Lemma previewLoop_stepLoop filters operators k :
  forall result,
  previewLoop filters operators k result
  = stepLoop textStep EmptyString (map exprText filters) operators k result.
Proof.
  induction k as [| i IH]; intros result; cbn [previewLoop stepLoop];
    [reflexivity |].
  rewrite IH, length_map, nth_map_default. reflexivity.
Qed.

Lemma htmlLoop_stepLoop escapeHtml filters operators k :
  forall result,
  htmlLoop escapeHtml filters operators k result
  = stepLoop htmlStep EmptyString (map (exprHtml escapeHtml) filters)
             operators k result.
Proof.
  induction k as [| i IH]; intros result; cbn [htmlLoop stepLoop];
    [reflexivity |].
  rewrite IH, length_map, nth_map_default. reflexivity.
Qed.

Lemma sameParts_partsWith filters :
  forall idx operators,
  sameParts idx operators filters = partsWith opText exprText idx operators filters.
Proof.
  induction filters as [| f rest IH]; intros idx operators;
    cbn [sameParts partsWith]; [reflexivity |].
  rewrite IH. reflexivity.
Qed.

Lemma sameHtmlParts_partsWith escapeHtml filters :
  forall idx operators,
  sameHtmlParts escapeHtml idx operators filters
  = partsWith (fun op => " " +++ span "preview-operator" (opText op) +++ " ")
              (exprHtml escapeHtml) idx operators filters.
Proof.
  induction filters as [| f rest IH]; intros idx operators;
    cbn [sameHtmlParts partsWith]; [reflexivity |].
  rewrite IH. reflexivity.
Qed.

(** The [parts] of filters that all carry the relation [op]. *)
Lemma partsWith_same opPiece piece (op : string) (fs : list FilterExpr) :
  forall pre : list (option string),
  1 <= List.length pre ->
  forallb (fun x => String.eqb (strOr (exprLogic x) "AND") op) fs = true ->
  partsWith opPiece piece (List.length pre)
            (pre ++ map (fun x => Some (strOr (exprLogic x) "AND")) fs) fs
  = flat_map (fun x => [opPiece (Some op); piece x]) fs.
Proof.
  induction fs as [| f rest IH]; intros pre Hpre Hall; [reflexivity |].
  cbn [forallb] in Hall. apply andb_true_iff in Hall. destruct Hall as [E Hall].
  apply String.eqb_eq in E.
  cbn [partsWith map flat_map].
  replace (0 <? List.length pre) with true
    by (symmetry; apply Nat.ltb_lt; lia).
  rewrite nth_middle, E. cbn [app]. do 2 f_equal.
  specialize (IH (pre ++ [Some op])).
  rewrite length_app, Nat.add_1_r, <- app_assoc in IH. cbn [app] in IH.
  apply IH; [lia | exact Hall].
Qed.

(** Joining pieces that alternate with one and the same relation piece is
    joining the elements with a separator made of that piece. *)
Lemma join_alternating {X} (piece : X -> string) (sepJ o sepG : string) :
  (forall rest, sepJ +++ o +++ sepJ +++ rest = sepG +++ rest) ->
  forall (fs : list X) t0,
  join sepJ (t0 :: flat_map (fun x => [o; piece x]) fs)
  = join sepG (t0 :: map piece fs).
Proof.
  intros Hsep fs. induction fs as [| f rest IH]; intros t0; [reflexivity |].
  cbn [flat_map map app].
  change (join sepJ (t0 :: o :: piece f :: flat_map (fun x => [o; piece x]) rest))
    with (t0 +++ sepJ +++ o +++ sepJ
          +++ join sepJ (piece f :: flat_map (fun x => [o; piece x]) rest)).
  change (join sepG (t0 :: piece f :: map piece rest))
    with (t0 +++ sepG +++ join sepG (piece f :: map piece rest)).
  rewrite IH, Hsep. reflexivity.
Qed.

Lemma textStep_new op a b :
  True -> textStep (Some op) false a b = textGroup op [a; b].
Proof.
  intros _. unfold textStep, textGroup. cbn [join opText].
  rewrite !append_assoc. reflexivity.
Qed.

Lemma textStep_extend op a x l :
  textStep (Some op) false a (textGroup op (x :: l)) = textGroup op (a :: x :: l).
Proof.
  unfold textStep, textGroup. cbn [opText].
  change (join (" " +++ op +++ " ") (a :: x :: l))
    with (a +++ (" " +++ op +++ " ") +++ join (" " +++ op +++ " ") (x :: l)).
  rewrite !append_assoc. reflexivity.
Qed.

Lemma textStep_nest op a r :
  textStep (Some op) true a r = textGroup op [a; "(" +++ r +++ ")"].
Proof.
  unfold textStep, textGroup. cbn [join opText].
  rewrite !append_assoc. reflexivity.
Qed.

Lemma htmlStep_new op a b :
  True -> htmlStep (Some op) false a b = htmlGroup op [a; b].
Proof.
  intros _. unfold htmlStep, htmlGroup. cbn [join opText].
  rewrite !append_assoc. reflexivity.
Qed.

Lemma htmlStep_extend op a x l :
  htmlStep (Some op) false a (htmlGroup op (x :: l)) = htmlGroup op (a :: x :: l).
Proof.
  unfold htmlStep, htmlGroup. cbn [opText].
  change (join (" " +++ span "preview-operator" op +++ " ") (a :: x :: l))
    with (a +++ (" " +++ span "preview-operator" op +++ " ")
          +++ join (" " +++ span "preview-operator" op +++ " ") (x :: l)).
  rewrite !append_assoc. reflexivity.
Qed.

Lemma htmlStep_nest op a r :
  htmlStep (Some op) true a r
  = htmlGroup op [a; span "preview-group" ("(" +++ r +++ ")")].
Proof.
  unfold htmlStep, htmlGroup. cbn [join opText].
  rewrite !append_assoc. reflexivity.
Qed.

(** Both previews, over the piece shown for a filter. *)
Section Rendering.

Variable piece : FilterExpr -> string.
Variable opPiece : option string -> string.
Variable sepJ : string.
Variable group : string -> list string -> string.
Variable sepG : string -> string.
Variable nest : string -> string.
Variable step : option string -> bool -> string -> string -> string.

Hypothesis group_join : forall op l, group op l = join (sepG op) l.
Hypothesis sep_ok :
  forall op rest, sepJ +++ opPiece (Some op) +++ sepJ +++ rest = sepG op +++ rest.
Hypothesis step_new :
  forall op a b, True -> step (Some op) false a b = group op [a; b].
Hypothesis step_extend :
  forall op a x l, step (Some op) false a (group op (x :: l)) = group op (a :: x :: l).
Hypothesis step_nest :
  forall op a r, step (Some op) true a r = group op [a; nest r].

Let mk (x : FilterExpr) : string * string := (strOr (exprLogic x) "AND", piece x).

Lemma rendering_same f f1 fs :
  forallb (fun p => String.eqb (fst p) (strOr (exprLogic f1) "AND")) (map mk fs)
  = true ->
  join sepJ (partsWith opPiece piece 0 (operatorsOf exprLogic (f :: f1 :: fs))
                       (f :: f1 :: fs))
  = assocFold (fun t => t) group nest (piece f) (map mk (f1 :: fs)).
Proof.
  intros Hsame.
  cbn [map assocFold]. unfold mk at 1.
  rewrite (groupOf_same string string (fun t => t) group nest) by exact Hsame.
  rewrite group_join.
  rewrite forallb_map_compose in Hsame. cbn [mk fst] in Hsame.
  change (partsWith opPiece piece 0 (operatorsOf exprLogic (f :: f1 :: fs))
                     (f :: f1 :: fs))
    with (piece f
            :: partsWith opPiece piece (List.length [@None string])
                 ([None] ++ map (fun x => Some (strOr (exprLogic x) "AND")) (f1 :: fs))
                 (f1 :: fs)).
  rewrite (partsWith_same opPiece piece (strOr (exprLogic f1) "AND")
             (f1 :: fs) [None]); [| cbn; lia |].
  - rewrite (join_alternating piece sepJ _ (sepG (strOr (exprLogic f1) "AND")));
      [| apply sep_ok].
    cbn [map]. do 3 f_equal. rewrite map_map. reflexivity.
  - cbn [forallb]. rewrite String.eqb_refl. exact Hsame.
Qed.

Lemma rendering_loop f fs (z : FilterExpr) pre :
  f :: fs = pre ++ [z] ->
  stepLoop step EmptyString (map piece (f :: fs)) (operatorsOf exprLogic (f :: fs))
           (List.length pre) (piece z)
  = assocFold (fun t => t) group nest (piece f) (map mk fs).
Proof.
  intros Hq.
  assert (Hitems : map piece (f :: fs) = foldItems (piece f) (map mk fs)).
  { unfold foldItems. rewrite map_map. reflexivity. }
  assert (Htags : operatorsOf exprLogic (f :: fs) = foldTags (map mk fs)).
  { unfold foldTags, operatorsOf. rewrite map_map. reflexivity. }
  rewrite Hitems, Htags, <- (length_map mk pre).
  change (piece z) with (assocFold (fun t : string => t) group nest (snd (mk z)) []).
  apply (stepLoop_fold string string (fun t => t) group nest step EmptyString
           (fun _ => True) step_new step_extend step_nest
           (piece f) (map mk fs) (strOr (exprLogic f) "AND")).
  - apply Forall_forall. intros; exact I.
  - change ((strOr (exprLogic f) "AND", piece f) :: map mk fs) with (map mk (f :: fs)).
    rewrite Hq, map_app. reflexivity.
Qed.

End Rendering.

Lemma buildKibanaPreview_cons f fs :
  buildKibanaPreview (f :: fs)
  = textFold (exprText f)
             (map (fun x => (strOr (exprLogic x) "AND", exprText x)) fs).
Proof.
  destruct fs as [| f1 fs]; [reflexivity |].
  unfold buildKibanaPreview, textFold.
  set (filters := f :: f1 :: fs).
  set (mk := fun x : FilterExpr => (strOr (exprLogic x) "AND", exprText x)).
  assert (Htl : tl (operatorsOf exprLogic filters)
                = Some (strOr (exprLogic f1) "AND")
                    :: map (fun p => Some (fst p)) (map mk fs)).
  { unfold filters, operatorsOf. cbn [tl map]. rewrite map_map. reflexivity. }
  rewrite Htl, everySame_tags.
  destruct (forallb _ (map mk fs)) eqn:Hsame.
  - rewrite sameParts_partsWith.
    apply (rendering_same exprText opText " " textGroup
             (fun op => " " +++ op +++ " ")).
    + reflexivity.
    + intros op rest. cbn [opText]. rewrite !append_assoc. reflexivity.
    + exact Hsame.
  - destruct (last_split filters) as [pre [z [Hq [Hnth Hlen]]]]; [discriminate |].
    rewrite Hnth, previewLoop_stepLoop, <- Hlen.
    apply (rendering_loop exprText textGroup (fun t => "(" +++ t +++ ")") textStep
             textStep_new textStep_extend textStep_nest f (f1 :: fs) z pre Hq).
Qed.

(** X9: the text preview is the same right-to-left fold as the compiler:
    the first text alone, or the texts joined by the relation of the second
    filter as long as the relation stays the same, with all that follows a
    change of relation in one pair of parentheses. *)
Theorem buildKibanaPreview_is_right_fold :
  forall filters : list FilterExpr,
  buildKibanaPreview filters
  = match filters with
    | [] => EmptyString
    | f :: fs =>
        textFold (exprText f)
                 (map (fun x => (strOr (exprLogic x) "AND", exprText x)) fs)
    end.
Proof.
  intros [| f fs]; [reflexivity | apply buildKibanaPreview_cons].
Qed.

Lemma buildKibanaPreviewHtml_cons escapeHtml f fs :
  buildKibanaPreviewHtml escapeHtml (f :: fs)
  = Normal
      (htmlFold (exprHtml escapeHtml f)
         (map (fun x => (strOr (exprLogic x) "AND", exprHtml escapeHtml x)) fs)).
Proof.
  destruct fs as [| f1 fs]; [reflexivity |].
  unfold buildKibanaPreviewHtml, buildNestedPreviewHtml, htmlFold.
  set (filters := f :: f1 :: fs).
  set (mk := fun x : FilterExpr => (strOr (exprLogic x) "AND", exprHtml escapeHtml x)).
  assert (Htl : tl (operatorsOf exprLogic filters)
                = Some (strOr (exprLogic f1) "AND")
                    :: map (fun p => Some (fst p)) (map mk fs)).
  { unfold filters, operatorsOf. cbn [tl map]. rewrite map_map. reflexivity. }
  rewrite Htl, everySame_tags.
  destruct (forallb _ (map mk fs)) eqn:Hsame.
  - rewrite sameHtmlParts_partsWith. f_equal.
    apply (rendering_same (exprHtml escapeHtml)
             (fun op => " " +++ span "preview-operator" (opText op) +++ " ")
             EmptyString htmlGroup
             (fun op => " " +++ span "preview-operator" op +++ " ")).
    + reflexivity.
    + intros op rest. reflexivity.
    + exact Hsame.
  - destruct (last_split filters) as [pre [z [Hq [Hnth Hlen]]]]; [discriminate |].
    rewrite Hnth, htmlLoop_stepLoop, <- Hlen. f_equal.
    apply (rendering_loop (exprHtml escapeHtml) htmlGroup
             (fun t => span "preview-group" ("(" +++ t +++ ")")) htmlStep
             htmlStep_new htmlStep_extend htmlStep_nest f (f1 :: fs) z pre Hq).
Qed.

(** X10: the markup preview never fails and is the same fold over the
    markup of the filters: relations between [preview-operator] spans, and
    what follows a change of relation inside one [preview-group] span. *)
Theorem buildKibanaPreviewHtml_is_right_fold :
  forall (escapeHtml : string -> string) (filters : list FilterExpr),
  buildKibanaPreviewHtml escapeHtml filters
  = Normal
      match filters with
      | [] => EmptyString
      | f :: fs =>
          htmlFold (exprHtml escapeHtml f)
                   (map (fun x => (strOr (exprLogic x) "AND", exprHtml escapeHtml x)) fs)
      end.
Proof.
  intros escapeHtml [| f fs]; [reflexivity | apply buildKibanaPreviewHtml_cons].
Qed.

(** *** The document follows the preview *)

Lemma rowExpr_logic i row :
  exprLogic (rowExpr i row)
  = if 0 <? i then strOr (logic row) "AND" else EmptyString.
Proof.
  unfold rowExpr.
  repeat match goal with
         | |- context [if String.eqb ?a ?b then _ else _] =>
             destruct (String.eqb a b)
         end; try reflexivity.
  - destruct (_ ++ _); reflexivity.
  - destruct (truthy (value row)); reflexivity.
Qed.

Lemma strOr_strOr s d : strOr (strOr s d) d = strOr s d.
Proof.
  unfold strOr. destruct (String.eqb s EmptyString) eqn:E.
  - destruct (String.eqb d EmptyString); reflexivity.
  - rewrite E. reflexivity.
Qed.

Lemma map_pair_combine {X Y Z} (g : X -> Y) (h : X -> Z) (l : list X) :
  map (fun x => (g x, h x)) l = List.combine (map g l) (map h l).
Proof.
  induction l as [| x rest IH]; cbn [map List.combine]; [reflexivity |].
  rewrite IH. reflexivity.
Qed.

(** Past the first row, the compiled rows and the previewed rows carry the
    same relations when every previewed row compiles. *)
Lemma collected_tags rows :
  forall i, 1 <= i ->
  forallb compiles rows = true ->
  map (fun e => strOr (entryLogic e) "AND") (collectQueries i rows)
  = map (fun f => strOr (exprLogic f) "AND") (collectExprs i rows).
Proof.
  induction rows as [| row rest IH]; intros i Hi Hall; [reflexivity |].
  cbn [forallb] in Hall. apply andb_true_iff in Hall. destruct Hall as [Hrow Hall].
  specialize (IH (S i) ltac:(lia) Hall).
  unfold compiles, filled in Hrow.
  cbn [collectQueries collectExprs].
  destruct (String.eqb (field row) EmptyString);
    [exact IH |].
  destruct (String.eqb (operator row) EmptyString);
    [exact IH |].
  cbn [negb andb orb] in Hrow |- *.
  destruct (rowQuery row) as [q |]; [| discriminate Hrow].
  cbn [map entryLogic]. rewrite IH, rowExpr_logic.
  replace (0 <? i) with true by (symmetry; apply Nat.ltb_lt; lia).
  reflexivity.
Qed.

Lemma collected_from_first rows :
  forallb compiles rows = true ->
  match collectExprs 0 rows with
  | [] => collectQueries 0 rows = []
  | f :: fs =>
      exists e es, collectQueries 0 rows = e :: es /\
                   map (fun e => strOr (entryLogic e) "AND") es
                   = map (fun f => strOr (exprLogic f) "AND") fs
  end.
Proof.
  induction rows as [| row rest IH]; intros Hall; [reflexivity |].
  cbn [forallb] in Hall. apply andb_true_iff in Hall. destruct Hall as [Hrow Hall].
  assert (Hskip :
    match collectExprs 1 rest with
    | [] => collectQueries 1 rest = []
    | f :: fs =>
        exists e es, collectQueries 1 rest = e :: es /\
                     map (fun e => strOr (entryLogic e) "AND") es
                     = map (fun f => strOr (exprLogic f) "AND") fs
    end).
  { pose proof (collected_tags rest 1 (le_n 1) Hall) as H.
    destruct (collectExprs 1 rest) as [| f fs];
      destruct (collectQueries 1 rest) as [| e es]; try discriminate H.
    - reflexivity.
    - cbn [map] in H. injection H as _ H. exists e, es. split; [reflexivity | exact H]. }
  unfold compiles, filled in Hrow.
  cbn [collectQueries collectExprs].
  destruct (String.eqb (field row) EmptyString); [exact Hskip |].
  destruct (String.eqb (operator row) EmptyString); [exact Hskip |].
  cbn [negb andb orb] in Hrow |- *.
  destruct (rowQuery row) as [q |]; [| discriminate Hrow].
  eexists _, _. split; [reflexivity |].
  apply (collected_tags rest 1 (le_n 1) Hall).
Qed.

(** X11: when every row shown in the preview compiles, the preview text and
    the compiled document are the same fold over the same relations: one
    clause per previewed filter, a group of the document where the preview
    joins by one relation, a nested group where it opens a parenthesis.
    With nothing to show the preview is empty and the compiler raises. *)
Theorem flat_document_follows_preview :
  forall rows : list Row,
  forallb compiles rows = true ->
  match collectExprs 0 rows with
  | [] =>
      updatePreview rows = EmptyString /\
      generateQueryDSL rows
      = Throw "TypeError: Cannot read properties of undefined (reading 'query')"
  | f :: fs =>
      exists q qs,
      List.length qs = List.length fs /\
      updatePreview rows
      = textFold (exprText f) (List.combine (exprTags (f :: fs)) (map exprText fs)) /\
      generateQueryDSL rows
      = Normal (obj1 "query" (docFold q (List.combine (exprTags (f :: fs)) qs)))
  end.
Proof.
  intros rows Hall.
  pose proof (collected_from_first rows Hall) as H.
  unfold updatePreview.
  destruct (collectExprs 0 rows) as [| f fs] eqn:E.
  - split; [destruct rows; reflexivity |].
    exact (generateQueryDSL_none_compiled rows H).
  - destruct H as [e [es [Hq Htags]]].
    rewrite (generateQueryDSL_compiled rows e es Hq).
    exists (query e), (map query es). split; [| split].
    + rewrite length_map, <- (length_map (fun e => strOr (entryLogic e) "AND")),
        Htags, length_map. reflexivity.
    + destruct rows as [| row rest]; [discriminate E |].
      rewrite buildKibanaPreview_cons.
      rewrite map_pair_combine. reflexivity.
    + rewrite map_pair_combine, Htags. reflexivity.
Qed.

Lemma flat_document_follows_preview_witness :
  forallb compiles Samples.rowsABC = true /\
  match collectExprs 0 Samples.rowsABC with
  | [] =>
      updatePreview Samples.rowsABC = EmptyString /\
      generateQueryDSL Samples.rowsABC
      = Throw "TypeError: Cannot read properties of undefined (reading 'query')"
  | f :: fs =>
      exists q qs,
      List.length qs = List.length fs /\
      updatePreview Samples.rowsABC
      = textFold (exprText f) (List.combine (exprTags (f :: fs)) (map exprText fs)) /\
      generateQueryDSL Samples.rowsABC
      = Normal (obj1 "query" (docFold q (List.combine (exprTags (f :: fs)) qs)))
  end.
Proof.
  split; [reflexivity |].
  apply (flat_document_follows_preview Samples.rowsABC). reflexivity.
Defined.

End FlatFoldProps.

(* ===================================================================== *)
(** ** Row validity of the filter bar *)
(* ===================================================================== *)

Module FlatValidProps.

Import FlatBar FlatMore.

(** Decide the comparisons of two literal names. *)
Ltac eqb_literals :=
  repeat match goal with
         | |- context [String.eqb ?a ?b] =>
             let r := eval vm_compute in (String.eqb a b) in
             lazymatch r with true => idtac | false => idtac end;
             change (String.eqb a b) with r
         end;
  cbv beta iota.

Lemma setProp_hasKeys k v kv :
  hasKeys (setProp k v kv) = hasKeys kv || negb (String.eqb k "__proto__").
Proof.
  destruct kv as [| [k' v'] t]; cbn [setProp hasKeys orb].
  - destruct (String.eqb k "__proto__"); reflexivity.
  - destruct (String.eqb k k'); [reflexivity |].
    destruct (_ && _); reflexivity.
Qed.

Lemma truthy_orElse a b : truthy (orElse a b) = truthy a || truthy b.
Proof. unfold orElse. destruct (truthy a) eqn:E; [exact E | reflexivity]. Qed.

Lemma rangeBounds_hasKeys isKeyword row :
  hasKeys (rangeBounds isKeyword row) = writesRange row.
Proof.
  unfold rangeBounds, writesRange, writesBound.
  destruct (truthy (maxValue row)), (truthy (minValue row));
    rewrite ?setProp_hasKeys; cbn [hasKeys andb orb]; try reflexivity.
  symmetry. apply orb_false_r.
Qed.

(** No clause for a name that is none of the ten operators. *)
Lemma rowQuery_unknown row :
  ~ In (normalizeOperator (operator row)) operatorValues ->
  rowQuery row = None.
Proof.
  intros Hun. unfold rowQuery.
  repeat match goal with
         | |- context [if String.eqb ?a ?b then _ else _] =>
             destruct (String.eqb_spec a b) as [E | _];
             [exfalso; apply Hun; rewrite E; cbn; intuition congruence |]
         end.
  reflexivity.
Qed.

(** A valid row with one of the ten operators: the clause is there unless
    the row is a range whose bounds are not written. *)
Lemma rowQuery_known_valid row :
  In (normalizeOperator (operator row)) operatorValues ->
  isFilterValid row = true ->
  (rowQuery row <> None <->
   (normalizeOperator (operator row) = "range" -> writesRange row = true)).
Proof.
  intros Hin. unfold isFilterValid, rowQuery.
  destruct (String.eqb (field row) EmptyString); cbn [orb]; [discriminate |].
  destruct (String.eqb (operator row) EmptyString); cbn [orb]; [discriminate |].
  cbn in Hin.
  repeat destruct Hin as [Hin | Hin]; try contradiction;
    rewrite <- Hin; eqb_literals; cbn [orb]; intros Hv.
  - split; [discriminate | intros _; destruct (_ || _); discriminate].
  - split; [discriminate | intros _; destruct (_ || _); discriminate].
  - split; [discriminate | intros _; discriminate].
  - split; [discriminate | intros _; discriminate].
  - split; [discriminate | intros _; discriminate].
  - split; [discriminate | intros _; discriminate].
  - rewrite rangeBounds_hasKeys. destruct (writesRange row).
    + split; [intros _ _; reflexivity | intros _; discriminate].
    + split; [intros H; elim H; reflexivity | intros H _; specialize (H eq_refl); discriminate H].
  - rewrite Hv. cbn [negb].
    split; [discriminate | intros _; destruct (isKeywordField _); discriminate].
  - rewrite Hv. split; [discriminate | intros _; discriminate].
  - rewrite Hv. split; [discriminate | intros _; discriminate].
Qed.

Lemma isFilterValid_unknown row :
  field row <> EmptyString ->
  operator row <> EmptyString ->
  ~ In (normalizeOperator (operator row)) operatorValues ->
  isFilterValid row = truthy (value row).
Proof.
  intros Hf Ho Hun. unfold isFilterValid.
  apply String.eqb_neq in Hf. apply String.eqb_neq in Ho. rewrite Hf, Ho.
  cbn [orb].
  repeat match goal with
         | |- context [String.eqb (normalizeOperator (operator row)) ?b] =>
             destruct (String.eqb_spec (normalizeOperator (operator row)) b)
               as [E | _];
             [exfalso; apply Hun; rewrite E; cbn; intuition congruence |]
         end.
  reflexivity.
Qed.

(** X12: a row that passes the validity check is compiled to a clause
    exactly when its operator, once normalized, is one of the ten operators
    of the selector and, for [range], one of its bounds is written (a
    truthy bound under an operator name other than [__proto__]); a row with
    a field, any other operator name and a truthy value passes the check
    and yields no clause. *)
Theorem valid_row_compiles_iff_operator_known :
  forall row : Row,
  (isFilterValid row = true ->
   (rowQuery row <> None <->
    In (normalizeOperator (operator row)) operatorValues /\
    (normalizeOperator (operator row) = "range" -> writesRange row = true))) /\
  (field row <> EmptyString ->
   operator row <> EmptyString ->
   ~ In (normalizeOperator (operator row)) operatorValues ->
   truthy (value row) = true ->
   isFilterValid row = true /\ rowQuery row = None).
Proof.
  intros row. split.
  - intros Hvalid.
    destruct (in_dec string_dec (normalizeOperator (operator row)) operatorValues)
      as [Hin | Hun].
    + pose proof (rowQuery_known_valid row Hin Hvalid) as H. tauto.
    + rewrite (rowQuery_unknown row Hun). split; [intros H; elim H; reflexivity |].
      intros [Hin _]. contradiction.
  - intros Hf Ho Hun Hv. split.
    + rewrite (isFilterValid_unknown row Hf Ho Hun). exact Hv.
    + exact (rowQuery_unknown row Hun).
Qed.

(** X12 on a row whose operator is none of the ten: the row is valid and
    no clause is built. *)
Lemma valid_row_compiles_iff_operator_known_witness :
  isFilterValid (Samples.formRow "status" "between" "1" EmptyString) = true /\
  rowQuery (Samples.formRow "status" "between" "1" EmptyString) = None.
Proof.
  apply (valid_row_compiles_iff_operator_known
           (Samples.formRow "status" "between" "1" EmptyString));
    try discriminate; try reflexivity.
  cbn. intuition discriminate.
Defined.

Lemma isFilterValid_filled row :
  isFilterValid row = true -> filled row = true.
Proof.
  unfold isFilterValid, filled.
  destruct (String.eqb (field row) EmptyString); cbn [orb]; [discriminate |].
  destruct (String.eqb (operator row) EmptyString); cbn [orb]; [discriminate |].
  reflexivity.
Qed.

(** A valid range row whose operators are not [__proto__] has a bound that
    is written. *)
Lemma valid_range_writes row :
  isFilterValid row = true ->
  normalizeOperator (operator row) = "range" ->
  strOr (minOperator row) "gt" <> "__proto__" ->
  strOr (maxOperator row) "lt" <> "__proto__" ->
  writesRange row = true.
Proof.
  unfold isFilterValid, writesRange, writesBound.
  destruct (String.eqb (field row) EmptyString); cbn [orb]; [discriminate |].
  destruct (String.eqb (operator row) EmptyString); cbn [orb]; [discriminate |].
  intros Hv Hop Hmin Hmax. rewrite Hop in Hv. revert Hv. eqb_literals. cbn [orb].
  rewrite truthy_orElse. intros Hv.
  apply String.eqb_neq in Hmin. apply String.eqb_neq in Hmax.
  rewrite Hmin, Hmax. cbn [negb]. rewrite !andb_true_r. exact Hv.
Qed.

Lemma collectQueries_all rows :
  forallb isFilterValid rows = true ->
  Forall (fun r => In (normalizeOperator (operator r)) operatorValues /\
                   strOr (minOperator r) "gt" <> "__proto__" /\
                   strOr (maxOperator r) "lt" <> "__proto__") rows ->
  forall i,
  map index (collectQueries i rows) = seq i (List.length rows).
Proof.
  induction rows as [| row rest IH]; intros Hall Hknown i; [reflexivity |].
  cbn [forallb] in Hall. apply andb_true_iff in Hall. destruct Hall as [Hrow Hall].
  inversion Hknown as [| ? ? [Hk [Hmin Hmax]] Hknown']. subst.
  assert (Hq : rowQuery row <> None).
  { apply (rowQuery_known_valid row Hk Hrow). intros Hop.
    exact (valid_range_writes row Hrow Hop Hmin Hmax). }
  apply isFilterValid_filled in Hrow. unfold filled in Hrow.
  cbn [collectQueries List.length seq].
  destruct (String.eqb (field row) EmptyString); [discriminate Hrow |].
  destruct (String.eqb (operator row) EmptyString); [discriminate Hrow |].
  cbn [orb].
  destruct (rowQuery row) as [q |]; [| contradiction].
  cbn [map index]. rewrite IH by assumption. reflexivity.
Qed.

Lemma filter_all {X} (f : X -> bool) (l : list X) :
  forallb f l = true -> filter f l = l.
Proof.
  induction l as [| x rest IH]; cbn [forallb filter]; [reflexivity |].
  intros H. apply andb_true_iff in H. destruct H as [Hx H].
  rewrite Hx, IH by exact H. reflexivity.
Qed.

(** X13: when the add button is enabled and every row carries one of the
    ten operators, and range operators other than [__proto__], applying
    keeps every row, the compiler builds one clause per row, in row order,
    and returns a document. *)
Theorem canAddFilter_rows_all_compile :
  forall rows : list Row,
  canAddFilter rows = true ->
  Forall (fun r => In (normalizeOperator (operator r)) operatorValues /\
                   strOr (minOperator r) "gt" <> "__proto__" /\
                   strOr (maxOperator r) "lt" <> "__proto__") rows ->
  filter validFilter rows = rows /\
  map index (collectQueries 0 rows) = seq 0 (List.length rows) /\
  exists document, generateQueryDSL rows = Normal (obj1 "query" document).
Proof.
  intros rows Hcan Hknown. unfold canAddFilter in Hcan.
  apply andb_true_iff in Hcan. destruct Hcan as [Hlen Hall].
  apply Nat.ltb_lt in Hlen.
  pose proof (collectQueries_all rows Hall Hknown 0) as Hidx.
  split; [exact (filter_all validFilter rows Hall) |].
  split; [exact Hidx |].
  destruct (collectQueries 0 rows) as [| e es] eqn:E.
  - destruct rows; [cbn in Hlen; lia | discriminate Hidx].
  - eexists. exact (FlatFoldProps.generateQueryDSL_compiled rows e es E).
Qed.

(** X13 on rows that include a range row with the lower bound alone. *)
Lemma canAddFilter_rows_all_compile_witness :
  canAddFilter [Samples.rowA; Samples.rangeRow (JStr "10") (JStr EmptyString)] = true /\
  filter validFilter [Samples.rowA; Samples.rangeRow (JStr "10") (JStr EmptyString)]
  = [Samples.rowA; Samples.rangeRow (JStr "10") (JStr EmptyString)] /\
  map index (collectQueries 0 [Samples.rowA;
                               Samples.rangeRow (JStr "10") (JStr EmptyString)])
  = seq 0 2 /\
  exists document,
    generateQueryDSL [Samples.rowA; Samples.rangeRow (JStr "10") (JStr EmptyString)]
    = Normal (obj1 "query" document).
Proof.
  split; [reflexivity |].
  apply (canAddFilter_rows_all_compile
           [Samples.rowA; Samples.rangeRow (JStr "10") (JStr EmptyString)]);
    [reflexivity |].
  repeat constructor; try discriminate; cbn; intuition congruence.
Defined.

End FlatValidProps.

(* ===================================================================== *)
(** ** Grouping in [buildElasticsearchQuery] *)
(* ===================================================================== *)

Module BackendProps.

Import Backend BackendMore.

Section WithEsb.

Variable termQuery : string -> JsVal -> JsVal.
Variable matchQuery : string -> JsVal -> JsVal.
Variable termsQuery : string -> JsVal -> JsVal.
Variable existsQuery : string -> JsVal.
Variable rangeQuery : string -> JsVal -> JsVal.
Variable prefixQuery : string -> JsVal -> JsVal.
Variable wildcardQueryCI : string -> JsVal -> JsVal.
Variable queryStringQuery : JsVal -> string -> JsVal.
Variable boolMustNot : JsVal -> JsVal.
Variable boolQueryEmpty : JsVal.

Let compile :=
  filterQuery termQuery matchQuery termsQuery existsQuery rangeQuery
              prefixQuery wildcardQueryCI queryStringQuery boolMustNot.

Let loop :=
  groupLoop termQuery matchQuery termsQuery existsQuery rangeQuery
            prefixQuery wildcardQueryCI queryStringQuery boolMustNot.

Let build :=
  buildElasticsearchQuery
    termQuery matchQuery termsQuery existsQuery rangeQuery
    prefixQuery wildcardQueryCI queryStringQuery boolMustNot
    boolQueryEmpty.

Let skippedFilter :=
  skipped termQuery matchQuery termsQuery existsQuery rangeQuery
          prefixQuery wildcardQueryCI queryStringQuery boolMustNot.

(** With a group open, the loop leaves a group open. *)
Lemma groupLoop_open filters :
  forall index queryGroups currentGroup,
  currentGroup <> [] ->
  snd (loop index filters queryGroups currentGroup) <> [].
Proof.
  induction filters as [| f rest IH]; intros index queryGroups currentGroup Hne.
  - exact Hne.
  - unfold loop in *. cbn [groupLoop].
    destruct (String.eqb (field f) EmptyString || String.eqb (operator f) EmptyString);
      [apply IH; exact Hne |].
    fold compile. destruct (compile f) as [q |]; [| apply IH; exact Hne].
    assert (Hgrow : currentGroup ++ [q] <> [])
      by (intros H; apply app_eq_nil in H; destruct H; discriminate).
    destruct (index =? 0); [apply IH; exact Hgrow |].
    destruct (oneOf _ _); [apply IH; exact Hgrow |].
    destruct currentGroup as [| c rest']; [contradiction |].
    apply IH. discriminate.
Qed.

(** With no group open, the loop opens one exactly when a filter puts its
    query into it; until then nothing is kept. *)
Lemma groupLoop_closed filters :
  forall index queryGroups,
  if anyGrouped compile index filters
  then snd (loop index filters queryGroups []) <> []
  else loop index filters queryGroups [] = (queryGroups, []).
Proof.
  induction filters as [| f rest IH]; intros index queryGroups.
  - reflexivity.
  - unfold loop in *. cbn [groupLoop anyGrouped]. unfold grouped.
    destruct (String.eqb (field f) EmptyString || String.eqb (operator f) EmptyString);
      cbn [negb andb orb]; [apply IH |].
    fold compile. destruct (compile f) as [q |]; cbn [andb orb]; [| apply IH].
    unfold joinsGroup.
    destruct (index =? 0); cbn [orb].
    + apply (groupLoop_open rest). discriminate.
    + destruct (oneOf _ _); cbn [orb].
      * apply (groupLoop_open rest). discriminate.
      * apply IH.
Qed.

Lemma build_cases filters :
  build (Some filters)
  = match filters with
    | [] => Normal (obj1 "query" matchAll)
    | _ :: _ =>
        if anyGrouped compile 0 filters
        then Throw "TypeError: Argument must be an instance of Query"
        else Normal (obj1 "query" boolQueryEmpty)
    end.
Proof.
  destruct filters as [| f rest]; [reflexivity |].
  unfold build, buildElasticsearchQuery.
  pose proof (groupLoop_closed (f :: rest) 0 []) as H. unfold loop in H.
  destruct (anyGrouped compile 0 (f :: rest)).
  - destruct (groupLoop _ _ _ _ _ _ _ _ _ 0 (f :: rest) [] []) as [qg cg].
    cbn [snd] in H. destruct cg as [| c cg']; [contradiction |].
    destruct (qg ++ [closeGroup (c :: cg')]) eqn:E; [| reflexivity].
    apply app_eq_nil in E. destruct E as [_ E]. discriminate E.
  - rewrite H. reflexivity.
Qed.

(** X14: [buildElasticsearchQuery] never returns a document that holds a
    clause.  For an absent or empty array it returns [match_all]; for a
    non-empty array it raises the [TypeError] of [esb.boolQuery().must] as
    soon as one filter puts its query into a group (a filter with a field
    and an operator for which a query is built, at index 0 or tied by OR),
    and returns the empty [bool] query otherwise. *)
Theorem buildElasticsearchQuery_throws_once_grouped :
  forall filters : option (list Filter),
  build filters
  = match filters with
    | None | Some [] => Normal (obj1 "query" matchAll)
    | Some rows =>
        if anyGrouped compile 0 rows
        then Throw "TypeError: Argument must be an instance of Query"
        else Normal (obj1 "query" boolQueryEmpty)
    end.
Proof.
  intros [filters |]; [| reflexivity].
  rewrite build_cases. destruct filters; reflexivity.
Qed.

Lemma anyGrouped_no_or filters :
  Forall (fun g => joinsGroup g = false) filters ->
  forall index, 1 <= index ->
  anyGrouped compile index filters = false.
Proof.
  induction 1 as [| g rest Hg _ IH]; intros index Hi; cbn [anyGrouped];
    [reflexivity |].
  rewrite IH by lia. unfold grouped. rewrite Hg.
  replace (index =? 0) with false by (symmetry; apply Nat.eqb_neq; lia).
  cbn [orb]. rewrite andb_false_r. reflexivity.
Qed.

(** X15: when the filter at index 0 is skipped (no field, no operator, or
    no query built for it), every filter after it that is not an OR filter
    is dropped: with no OR filter in the array the result is the empty
    [bool] query, whatever the other filters are. *)
Theorem skipped_first_filter_drops_and_filters :
  forall (f : Filter) (rest : list Filter),
  skippedFilter f ->
  Forall (fun g => joinsGroup g = false) rest ->
  build (Some (f :: rest)) = Normal (obj1 "query" boolQueryEmpty).
Proof.
  intros f rest Hskip Hand. rewrite build_cases.
  cbn [anyGrouped]. rewrite (anyGrouped_no_or rest Hand 1 (le_n 1)).
  assert (Hhead : grouped compile 0 f = false).
  { unfold grouped. destruct Hskip as [H | [H | H]].
    - rewrite H. reflexivity.
    - rewrite H. rewrite orb_true_r. reflexivity.
    - fold compile in H. rewrite H. rewrite andb_false_r. reflexivity. }
  rewrite Hhead. reflexivity.
Qed.

End WithEsb.

Lemma skipped_first_filter_drops_and_filters_witness :
  Backend.buildElasticsearchQuery
    (fun f v => obj1 "term" (obj1 f v)) (fun f v => obj1 "match" (obj1 f v))
    (fun f v => obj1 "terms" (obj1 f v)) (fun f => obj1 "exists" (obj1 "field" (JStr f)))
    (fun f b => obj1 "range" (obj1 f b)) (fun f v => obj1 "prefix" (obj1 f v))
    (fun f v => obj1 "wildcard" (obj1 f v)) (fun v f => obj1 "query_string" (obj1 f v))
    mustNot (obj1 "bool" (JObj []))
    (Some [ mkFilter "host.keyword" EmptyString (JStr "web01") EmptyString
                     EmptyString JUndefined EmptyString JUndefined;
            mkFilter "verb.keyword" "is" (JStr "GET") "AND"
                     EmptyString JUndefined EmptyString JUndefined ])
  = Normal (obj1 "query" (obj1 "bool" (JObj []))).
Proof.
  apply skipped_first_filter_drops_and_filters.
  - right; left; reflexivity.
  - repeat constructor.
Defined.

(** X16: [queryDSLToElasticsearchBody] returns an object whose only key is
    [query], holding a truthy value: the [query] of its argument when that
    is truthy, [match_all] otherwise; every other key of the argument is
    left out, and applying it again changes nothing. *)
Theorem queryDSLToElasticsearchBody_keeps_query_only :
  forall queryDSL : JsVal,
  (exists q, queryDSLToElasticsearchBody queryDSL = obj1 "query" q /\
             truthy q = true /\
             ((q = prop queryDSL "query" /\ truthy queryDSL = true) \/
              (q = matchAll /\
               (truthy queryDSL = false \/ truthy (prop queryDSL "query") = false)))) /\
  queryDSLToElasticsearchBody (queryDSLToElasticsearchBody queryDSL)
  = queryDSLToElasticsearchBody queryDSL.
Proof.
  intros queryDSL.
  assert (Hfix : forall q, truthy q = true ->
            queryDSLToElasticsearchBody (obj1 "query" q) = obj1 "query" q).
  { intros q Hq. unfold queryDSLToElasticsearchBody.
    change (prop (obj1 "query" q) "query") with q.
    rewrite Hq. reflexivity. }
  assert (Hshape : exists q,
            queryDSLToElasticsearchBody queryDSL = obj1 "query" q /\
            truthy q = true /\
            ((q = prop queryDSL "query" /\ truthy queryDSL = true) \/
             (q = matchAll /\
              (truthy queryDSL = false \/ truthy (prop queryDSL "query") = false)))).
  { unfold queryDSLToElasticsearchBody.
    destruct (truthy queryDSL) eqn:Hd; cbn [negb orb].
    - destruct (truthy (prop queryDSL "query")) eqn:Hq; cbn [negb].
      + exists (prop queryDSL "query"). split; [reflexivity |].
        split; [exact Hq | left; split; reflexivity].
      + exists matchAll. split; [reflexivity |].
        split; [reflexivity | right; split; [reflexivity | right; reflexivity]].
    - exists matchAll. split; [reflexivity |].
      split; [reflexivity | right; split; [reflexivity | left; reflexivity]]. }
  split; [exact Hshape |].
  destruct Hshape as [q [Hq [Ht _]]]. rewrite Hq. exact (Hfix q Ht).
Qed.

End BackendProps.

(* ===================================================================== *)
(** ** [normalizeFilters] and [flattenFilters] *)
(* ===================================================================== *)

Module BuilderMoreProps.

Import Builder BuilderMore.

(** Induction on a filter, with the property for every param of a combined
    filter. *)
Lemma Filter_forall_ind (P : Filter -> Prop) :
  (forall row, P (Plain row)) ->
  (forall relation params,
     Forall (fun o => match o with Some f => P f | None => True end) params ->
     P (Combined relation params)) ->
  forall f, P f.
Proof.
  intros HP HC. fix IH 1. intros [row | relation params].
  - apply HP.
  - apply HC. induction params as [| [x |] rest IHrest]; constructor.
    + apply IH.
    + exact IHrest.
    + exact I.
    + exact IHrest.
Qed.

Lemma flattenInto_combined relation params :
  forall result,
  flattenInto (Combined relation params) result = flatten params result.
Proof.
  induction params as [| [x |] rest IHrest]; intros result; cbn [flattenInto flatten].
  - reflexivity.
  - destruct (flattenInto x result) as [result' | e]; [| reflexivity].
    apply IHrest.
  - reflexivity.
Qed.

Lemma present_map_Some {A} (l : list A) : present (map Some l) = l.
Proof.
  induction l as [| x rest IH]; [reflexivity |].
  cbn [map]. change (present (Some x :: map Some rest)) with (x :: present (map Some rest)).
  rewrite IH. reflexivity.
Qed.

Lemma present_cons_some {A} (x : A) l : present (Some x :: l) = x :: present l.
Proof. reflexivity. Qed.

Lemma present_cons_none {A} (l : list (option A)) : present (None :: l) = present l.
Proof. reflexivity. Qed.

Lemma flatten_normalizeArray params :
  Forall (fun o => match o with Some f => keepsLeaves f | None => True end) params ->
  forall result l,
  flatten params result = Normal l ->
  flatten (map Some (normalizeArray (present params))) result = Normal l.
Proof.
  unfold normalizeArray.
  induction 1 as [| [x |] rest Hx _ IH]; intros result l Hflat.
  - exact Hflat.
  - cbn [flatten] in Hflat.
    destruct (flattenInto x result) as [result' | e] eqn:E; [| discriminate Hflat].
    rewrite present_cons_some. cbn [map].
    specialize (Hx result result' E).
    destruct (normalizeRecursively x) as [n |].
    + rewrite present_cons_some. cbn [map flatten]. rewrite Hx.
      apply IH. exact Hflat.
    + rewrite present_cons_none. subst result'. apply IH. exact Hflat.
  - discriminate Hflat.
Qed.

Lemma normalizeRecursively_keepsLeaves f : keepsLeaves f.
Proof.
  induction f as [row | relation params IH] using Filter_forall_ind;
    intros result l Hflat.
  - exact Hflat.
  - rewrite BuilderProps.normalizeRecursively_combined. cbv zeta.
    rewrite flattenInto_combined in Hflat.
    destruct (List.length (present params) <? 2) eqn:Hlen.
    + apply Nat.ltb_lt in Hlen.
      destruct params as [| [x |] rest]; cbn [flatten] in Hflat.
      * injection Hflat as <-. reflexivity.
      * destruct (flattenInto x result) as [result' | e] eqn:E; [| discriminate Hflat].
        rewrite present_cons_some in Hlen |- *. cbn [hd_error].
        destruct rest as [| [y |] rest'].
        -- injection Hflat as <-. exact E.
        -- rewrite present_cons_some in Hlen. cbn [List.length] in Hlen. lia.
        -- discriminate Hflat.
      * discriminate Hflat.
    + rewrite flattenInto_combined.
      exact (flatten_normalizeArray params IH result l Hflat).
Qed.

(** X17: normalizing keeps the plain filters: whenever [flattenFilters]
    returns for an array of filters, it returns the same plain filters, in
    the same order, for the normalized array. *)
Theorem normalizeFilters_keeps_plain_filters :
  forall (filters : list Filter) (plain : list Filter),
  flattenFilters filters = Normal plain ->
  flattenFilters (normalizeFilters filters) = Normal plain.
Proof.
  intros filters plain Hflat. unfold flattenFilters, normalizeFilters in *.
  rewrite <- (present_map_Some filters) at 1.
  apply flatten_normalizeArray; [| exact Hflat].
  apply Forall_forall. intros [f |] _; [apply normalizeRecursively_keepsLeaves | exact I].
Qed.

Lemma normalizeFilters_keeps_plain_filters_witness :
  flattenFilters [Samples.singleOuter; Plain Samples.rowB]
  = Normal [Samples.plainA; Plain Samples.rowB] /\
  flattenFilters (normalizeFilters [Samples.singleOuter; Plain Samples.rowB])
  = Normal [Samples.plainA; Plain Samples.rowB].
Proof.
  split; [reflexivity |].
  apply (normalizeFilters_keeps_plain_filters
           [Samples.singleOuter; Plain Samples.rowB]).
  reflexivity.
Defined.

Lemma wellGrouped_combined relation params :
  wellGrouped (Combined relation params)
  = (2 <=? List.length params) &&
    forallb (fun o => match o with Some x => wellGrouped x | None => false end) params.
Proof.
  cbn [wellGrouped]. f_equal.
  induction params as [| [x |] rest IH]; cbn [forallb]; [reflexivity | | reflexivity].
  rewrite IH. reflexivity.
Qed.

Lemma normalizeArray_fixed params :
  Forall (fun o => match o with
                   | Some f => wellGrouped f = true -> normalizeRecursively f = Some f
                   | None => True
                   end) params ->
  forallb (fun o => match o with Some x => wellGrouped x | None => false end) params
  = true ->
  map Some (present params) = params /\
  normalizeArray (present params) = present params.
Proof.
  unfold normalizeArray.
  induction 1 as [| [x |] rest Hx _ IH]; cbn [forallb]; intros Hall.
  - split; reflexivity.
  - apply andb_true_iff in Hall. destruct Hall as [Hwx Hall].
    destruct (IH Hall) as [IH1 IH2].
    rewrite present_cons_some. cbn [map].
    rewrite (Hx Hwx), present_cons_some, IH1, IH2. split; reflexivity.
  - discriminate Hall.
Qed.

Lemma normalizeRecursively_fixed f :
  wellGrouped f = true -> normalizeRecursively f = Some f.
Proof.
  induction f as [row | relation params IH] using Filter_forall_ind; intros Hw.
  - reflexivity.
  - rewrite wellGrouped_combined in Hw. apply andb_true_iff in Hw.
    destruct Hw as [Hlen Hall]. apply Nat.leb_le in Hlen.
    destruct (normalizeArray_fixed params IH Hall) as [H1 H2].
    rewrite BuilderProps.normalizeRecursively_combined. cbv zeta.
    assert (Hp : List.length (present params) = List.length params)
      by (rewrite <- H1 at 2; rewrite length_map; reflexivity).
    replace (List.length (present params) <? 2) with false
      by (symmetry; apply Nat.ltb_ge; lia).
    rewrite H2, H1. reflexivity.
Qed.

(** X18: on filters whose groups all hold at least two params and no
    [undefined] entry, [normalizeFilters] changes nothing. *)
Theorem normalizeFilters_fixes_well_grouped :
  forall filters : list Filter,
  forallb wellGrouped filters = true ->
  normalizeFilters filters = filters.
Proof.
  intros filters Hall. unfold normalizeFilters.
  rewrite <- (present_map_Some filters) at 1 2.
  apply normalizeArray_fixed.
  - apply Forall_forall. intros [f |] _; [apply normalizeRecursively_fixed | exact I].
  - rewrite forallb_forall in Hall |- *.
    intros o Ho. apply in_map_iff in Ho. destruct Ho as [f [<- Hf]].
    apply Hall. exact Hf.
Qed.

Lemma normalizeFilters_fixes_well_grouped_witness :
  forallb wellGrouped
    [Combined TreeState.OR [Some Samples.plainA; Some (Plain Samples.rowB)];
     Plain Samples.rowC] = true /\
  normalizeFilters
    [Combined TreeState.OR [Some Samples.plainA; Some (Plain Samples.rowB)];
     Plain Samples.rowC]
  = [Combined TreeState.OR [Some Samples.plainA; Some (Plain Samples.rowB)];
     Plain Samples.rowC].
Proof.
  split; [reflexivity |].
  apply (normalizeFilters_fixes_well_grouped
           [Combined TreeState.OR [Some Samples.plainA; Some (Plain Samples.rowB)];
            Plain Samples.rowC]).
  reflexivity.
Defined.

End BuilderMoreProps.

(* ===================================================================== *)
(** ** The dashboard wrapper against the filter bar *)
(* ===================================================================== *)

Module WrapperProps.

Import FlatBar FlatMore.




(** A filter both compilers build the same clause for. *)
Lemma bucketLoop_and_filters rows :
  Forall (fun r => filled r = true /\ rowQuery r <> None /\
                   Wrapper.filterQuery r = rowQuery r) rows ->
  Forall (fun r => strOr (logic r) "AND" = "AND") rows ->
  forall index mustQueries shouldQueries, 1 <= index ->
  Wrapper.bucketLoop index rows mustQueries shouldQueries
  = (mustQueries ++ map query (collectQueries index rows), shouldQueries) /\
  Forall (fun e => strOr (entryLogic e) "AND" = "AND") (collectQueries index rows).
Proof.
  induction 1 as [| r rest [Hf [Hq Hsame]] _ IH];
    intros Hand index mustQueries shouldQueries Hi.
  - cbn. rewrite app_nil_r. split; [reflexivity | constructor].
  - inversion Hand as [| ? ? Hr Hand']. subst.
    unfold filled in Hf. cbn [Wrapper.bucketLoop collectQueries].
    destruct (String.eqb (field r) EmptyString); [discriminate Hf |].
    destruct (String.eqb (operator r) EmptyString); [discriminate Hf |].
    cbn [orb]. rewrite Hsame.
    destruct (rowQuery r) as [q |]; [| contradiction].
    replace (index =? 0) with false by (symmetry; apply Nat.eqb_neq; lia).
    rewrite Hr. cbn [String.eqb Ascii.eqb Bool.eqb andb].
    destruct (IH Hand' (S index) (mustQueries ++ [q]) shouldQueries ltac:(lia))
      as [IH1 IH2].
    rewrite IH1, <- app_assoc. cbn [map query app].
    split; [reflexivity |].
    constructor; [reflexivity | exact IH2].
Qed.

Lemma bucketLoop_cons index r rest q mustQueries shouldQueries :
  filled r = true ->
  Wrapper.filterQuery r = Some q ->
  Wrapper.bucketLoop index (r :: rest) mustQueries shouldQueries
  = if (index =? 0) || String.eqb (strOr (logic r) "AND") "AND"
    then Wrapper.bucketLoop (S index) rest (mustQueries ++ [q]) shouldQueries
    else Wrapper.bucketLoop (S index) rest mustQueries (shouldQueries ++ [q]).
Proof.
  intros Hf Hq. unfold filled in Hf. cbn [Wrapper.bucketLoop].
  destruct (String.eqb (field r) EmptyString); [discriminate Hf |].
  destruct (String.eqb (operator r) EmptyString); [discriminate Hf |].
  cbn [orb]. rewrite Hq. destruct (index =? 0); reflexivity.
Qed.

Lemma collectQueries_cons index r rest q :
  filled r = true ->
  rowQuery r = Some q ->
  collectQueries index (r :: rest)
  = mkEntry q (strOr (logic r) "AND") index :: collectQueries (S index) rest.
Proof.
  intros Hf Hq. unfold filled in Hf. cbn [collectQueries].
  destruct (String.eqb (field r) EmptyString); [discriminate Hf |].
  destruct (String.eqb (operator r) EmptyString); [discriminate Hf |].
  cbn [orb]. rewrite Hq. reflexivity.
Qed.

(** X20: on two or more filters that are all tied by AND and for each of
    which the two compilers build the same clause, the filter bar and the
    dashboard wrapper compile to the same document: the clauses, in order,
    under [bool.must]. *)
Theorem wrapper_agrees_on_and_filters :
  forall (first second : Row) (rest : list Row),
  Forall (fun r => filled r = true /\ rowQuery r <> None /\
                   Wrapper.filterQuery r = rowQuery r)
         (first :: second :: rest) ->
  Forall (fun r => strOr (logic r) "AND" = "AND") (second :: rest) ->
  generateQueryDSL (first :: second :: rest)
  = Normal (Wrapper.generateQueryDSLFromFilters (first :: second :: rest)) /\
  Wrapper.generateQueryDSLFromFilters (first :: second :: rest)
  = obj1 "query"
      (boolMust (map query (collectQueries 0 (first :: second :: rest)))).
Proof.
  intros first second rest Hgood Hand.
  inversion Hgood as [| ? ? [Hf [Hq Hsame]] Hgood']. subst.
  inversion Hgood' as [| ? ? [Hf2 [Hq2 Hsame2]] _]. subst.
  destruct (rowQuery first) as [q |] eqn:E1; [| contradiction].
  destruct (rowQuery second) as [q2 |] eqn:E2; [| contradiction].
  destruct (bucketLoop_and_filters (second :: rest) Hgood' Hand 1 [q] [] (le_n 1))
    as [Hloop Htags].
  pose proof (collectQueries_cons 0 first (second :: rest) q Hf E1) as Hc.
  pose proof (collectQueries_cons 1 second rest q2 Hf2 E2) as Hc2.
  assert (Hwrap :
    Wrapper.generateQueryDSLFromFilters (first :: second :: rest)
    = obj1 "query"
        (boolMust (map query (collectQueries 0 (first :: second :: rest))))).
  { unfold Wrapper.generateQueryDSLFromFilters.
    rewrite (bucketLoop_cons 0 first (second :: rest) q [] [] Hf Hsame).
    cbn [Nat.eqb orb app]. rewrite Hloop, Hc. reflexivity. }
  split; [| exact Hwrap].
  rewrite Hwrap, (FlatFoldProps.generateQueryDSL_compiled _ _ _ Hc).
  rewrite Hc2 in Htags |- *.
  inversion Htags as [| ? ? Ht1 Htags']. subst.
  unfold docFold. cbn [map assocFold]. cbn [entryLogic] in Ht1 |- *. rewrite Ht1.
  rewrite FlatFoldProps.groupOf_same.
  - unfold docGroup. cbn [String.eqb Ascii.eqb Bool.eqb andb map query].
    rewrite Hc, Hc2. cbn [map query]. rewrite map_map. reflexivity.
  - rewrite FlatFoldProps.forallb_map_compose. cbn [fst].
    apply forallb_forall. intros x Hx.
    rewrite Forall_forall in Htags'. rewrite (Htags' x Hx). reflexivity.
Qed.

Lemma wrapper_agrees_on_and_filters_witness :
  generateQueryDSL [Samples.rowA; Samples.noneOfRow]
  = Normal (Wrapper.generateQueryDSLFromFilters [Samples.rowA; Samples.noneOfRow]) /\
  Wrapper.generateQueryDSLFromFilters [Samples.rowA; Samples.noneOfRow]
  = obj1 "query"
      (boolMust (map query (collectQueries 0 [Samples.rowA; Samples.noneOfRow]))).
Proof.
  apply (wrapper_agrees_on_and_filters Samples.rowA Samples.noneOfRow []).
  - repeat constructor; discriminate.
  - repeat constructor.
Defined.

(** The loop only adds to the two arrays, and a compiled filter past index
    0 that is not tied by AND adds to [shouldQueries]. *)
Lemma bucketLoop_grows rows :
  forall index mustQueries shouldQueries,
  exists must' should',
    Wrapper.bucketLoop index rows mustQueries shouldQueries
    = (mustQueries ++ must', shouldQueries ++ should') /\
    (1 <= index ->
     Exists (fun r => filled r = true /\ Wrapper.filterQuery r <> None /\
                      strOr (logic r) "AND" <> "AND") rows ->
     should' <> []).
Proof.
  induction rows as [| r rest IH]; intros index mustQueries shouldQueries.
  - exists [], []. rewrite !app_nil_r. split; [reflexivity |].
    intros _ H. inversion H.
  - destruct (filled r) eqn:Hf.
    + destruct (Wrapper.filterQuery r) as [q |] eqn:Hq.
      * rewrite (bucketLoop_cons index r rest q _ _ Hf Hq).
        destruct ((index =? 0) || String.eqb (strOr (logic r) "AND") "AND") eqn:Hm.
        -- destruct (IH (S index) (mustQueries ++ [q]) shouldQueries)
             as [m' [s' [H1 H2]]].
           exists ([q] ++ m'), s'. rewrite app_assoc. split; [exact H1 |].
           intros Hi Hex. apply H2; [lia |].
           inversion Hex as [? ? [_ [_ Hor]] | ? ? Hex']; subst; [| exact Hex'].
           exfalso. apply orb_true_iff in Hm. destruct Hm as [Hm | Hm].
           ++ apply Nat.eqb_eq in Hm. lia.
           ++ apply String.eqb_eq in Hm. contradiction.
        -- destruct (IH (S index) mustQueries (shouldQueries ++ [q]))
             as [m' [s' [H1 H2]]].
           exists m', ([q] ++ s'). rewrite app_assoc. split; [exact H1 |].
           intros _ _. discriminate.
      * assert (Hskip : Wrapper.bucketLoop index (r :: rest) mustQueries shouldQueries
                        = Wrapper.bucketLoop (S index) rest mustQueries shouldQueries).
        { cbn [Wrapper.bucketLoop]. rewrite Hq. destruct (_ || _); reflexivity. }
        rewrite Hskip.
        destruct (IH (S index) mustQueries shouldQueries) as [m' [s' [H1 H2]]].
        exists m', s'. split; [exact H1 |].
        intros Hi Hex. apply H2; [lia |].
        inversion Hex as [? ? [_ [Hc _]] | ? ? Hex']; subst;
          [contradiction | exact Hex'].
    + assert (Hskip : Wrapper.bucketLoop index (r :: rest) mustQueries shouldQueries
                      = Wrapper.bucketLoop (S index) rest mustQueries shouldQueries).
      { unfold filled in Hf. cbn [Wrapper.bucketLoop].
        destruct (String.eqb (field r) EmptyString); [reflexivity |].
        destruct (String.eqb (operator r) EmptyString); [reflexivity |].
        discriminate Hf. }
      rewrite Hskip.
      destruct (IH (S index) mustQueries shouldQueries) as [m' [s' [H1 H2]]].
      exists m', s'. split; [exact H1 |].
      intros Hi Hex. apply H2; [lia |].
      inversion Hex as [? ? [Hc _] | ? ? Hex']; subst; [congruence | exact Hex'].
Qed.

(** The documents of the filter bar hold no [bool] with the three keys
    [must], [should] and [minimum_should_match]. *)
Lemma docFold_not_three_keys q rest must should :
  TreeShape.isGroupBool q = false ->
  docFold q rest
  <> obj1 "bool" (JObj [("must", JArr must); ("should", JArr should);
                        ("minimum_should_match", JNum (Fin 1 0))]).
Proof.
  intros Hleaf. unfold docFold.
  destruct rest as [| [op b] rest']; cbn [assocFold].
  - intros H. rewrite H in Hleaf. discriminate Hleaf.
  - unfold docGroup. destruct (String.eqb op "OR"); discriminate.
Qed.

(** X21: once the filter at index 0 is compiled and a later compiled filter
    is not tied by AND, the wrapper stores a [bool] with [must], [should]
    and [minimum_should_match: 1] side by side, and the filter bar never
    produces that document for the same filters. *)
Theorem wrapper_differs_once_a_filter_is_or :
  forall (first : Row) (rest : list Row),
  filled first = true ->
  Wrapper.filterQuery first <> None ->
  Exists (fun r => filled r = true /\ Wrapper.filterQuery r <> None /\
                   strOr (logic r) "AND" <> "AND") rest ->
  (exists must should,
     must <> [] /\ should <> [] /\
     Wrapper.generateQueryDSLFromFilters (first :: rest)
     = obj1 "query"
         (obj1 "bool"
            (JObj [("must", JArr must); ("should", JArr should);
                   ("minimum_should_match", JNum (Fin 1 0))]))) /\
  generateQueryDSL (first :: rest)
  <> Normal (Wrapper.generateQueryDSLFromFilters (first :: rest)).
Proof.
  intros first rest Hf Hq Hor.
  destruct (Wrapper.filterQuery first) as [q |] eqn:Eq; [| contradiction].
  destruct (bucketLoop_grows rest 1 [q] []) as [m' [s' [Hloop Hs]]].
  specialize (Hs (le_n 1) Hor).
  assert (Hwrap :
    Wrapper.generateQueryDSLFromFilters (first :: rest)
    = obj1 "query"
        (obj1 "bool"
           (JObj [("must", JArr (q :: m')); ("should", JArr s');
                  ("minimum_should_match", JNum (Fin 1 0))]))).
  { unfold Wrapper.generateQueryDSLFromFilters.
    rewrite (bucketLoop_cons 0 first rest q [] [] Hf Eq).
    cbn [Nat.eqb orb app]. rewrite Hloop. cbn [app List.length].
    destruct s' as [| x s'']; [contradiction | reflexivity]. }
  split.
  - exists (q :: m'), s'. split; [discriminate | split; [exact Hs | exact Hwrap]].
  - rewrite Hwrap.
    pose proof (FlatFoldProps.collectQueries_leaves (first :: rest) 0) as Hleaf.
    destruct (collectQueries 0 (first :: rest)) as [| e es] eqn:E.
    + rewrite (FlatFoldProps.generateQueryDSL_none_compiled _ E). discriminate.
    + rewrite (FlatFoldProps.generateQueryDSL_compiled _ e es E).
      intros H. injection H as H.
      inversion Hleaf as [| ? ? He _]. subst.
      exact (docFold_not_three_keys _ _ _ _ He H).
Qed.

Lemma wrapper_differs_once_a_filter_is_or_witness :
  (exists must should,
     must <> [] /\ should <> [] /\
     Wrapper.generateQueryDSLFromFilters [Samples.rowA; Samples.rowC]
     = obj1 "query"
         (obj1 "bool"
            (JObj [("must", JArr must); ("should", JArr should);
                   ("minimum_should_match", JNum (Fin 1 0))]))) /\
  generateQueryDSL [Samples.rowA; Samples.rowC]
  <> Normal (Wrapper.generateQueryDSLFromFilters [Samples.rowA; Samples.rowC]).
Proof.
  apply (wrapper_differs_once_a_filter_is_or Samples.rowA [Samples.rowC]).
  - reflexivity.
  - discriminate.
  - constructor. repeat split; discriminate.
Defined.

End WrapperProps.

(* ===================================================================== *)
(** ** The tree compiler against the filter bar, condition by condition *)
(* ===================================================================== *)

Module CrossProps.

Import TreeState TreeEdits.



End CrossProps.
